(** * aws_subnet_usage.py: IP usage of an AWS subnet, and its projection

    A shallow embedding of [src/aws_subnet_usage.py] and the properties of it
    that the specification states.

    The file holds two variants of the script, one after the other.  Both
    define [class AWSIPUsage]; the second definition (from line 305 on) is the
    one the name is bound to once the module is loaded, and it is the one
    that has the NLB and EKS accounting.  It is embedded in full below
    (module [V2]); of the first variant the parts that differ and that a
    property depends on are in module [V1].

    Conventions of the embedding.
    - Python [int] is [Z]; [str] is [string]; [len] is [Z.of_nat (length _)].
    - The dict [used_ips] (address -> holder descriptor) is a [gmap string
      string]; [dict.update] is the union that prefers the argument.
    - A [set] of strings is a [gset string].
    - The order in which a [set] or a [dict] is iterated is a parameter of
      the run ([Runtime]); nothing but that it enumerates every element once
      is assumed of it.
    - boto3 calls are the fields of [AWS]: what each call returns, or the
      exception it raises, in this run.
    - [print] and [logger.warning] append a [line] to the output of the run;
      [logger.debug] and [logger.info] are below the level the script sets
      and are not part of the output.
    - Of [netaddr] and [re] the operations the script uses are modelled from
      the libraries' documented behaviour. *)

From Stdlib Require Import ZArith Ascii String List Lia Bool DecimalString.
From stdpp Require Import gmap strings list fin_maps.

Local Open Scope string_scope.
Local Open Scope Z_scope.

(** ** Exceptions and results *)

Inductive exn : Type :=
| ClientError      (* botocore.exceptions.ClientError: an error response of the service *)
| BotoCoreError    (* any other botocore failure, e.g. no connection *)
| KeyError         (* a subscript on a key the dict lacks *)
| AddrFormatError   (* netaddr: the CIDR block is malformed *)
| SystemExit.      (* raise SystemExit(...) *)

Inductive result (A : Type) : Type :=
| Ok (a : A)
| Raise (e : exn).
Arguments Ok {A} a.
Arguments Raise {A} e.

Definition is_ok {A} (r : result A) : bool :=
  match r with Ok _ => true | Raise _ => false end.

#[global] Instance exn_eq_dec : EqDecision exn.
Proof. solve_decision. Defined.

(** ** Strings *)

Module Str.

(** [s.startswith(p)] *)
Definition startswith (s p : string) : bool := String.prefix p s.

(** [sub in s] on strings *)
Fixpoint contains (sub s : string) : bool :=
  String.prefix sub s ||
  match s with
  | EmptyString => false
  | String _ s' => contains sub s'
  end.

(** [s.split(sep)] for a separator of one character: never empty. *)
Fixpoint split (sep : ascii) (s : string) : list string :=
  match s with
  | EmptyString => [EmptyString]
  | String c s' =>
      if Ascii.eqb c sep then EmptyString :: split sep s'
      else match split sep s' with
           | h :: t => String c h :: t
           | [] => [String c EmptyString]
           end
  end.

(** [l[0]] and [l[-1]] of a list that [split] returned *)
Definition first (l : list string) : string := hd EmptyString l.
Definition last (l : list string) : string := List.last l EmptyString.

(** [x in l] for a list of strings *)
Definition mem (x : string) (l : list string) : bool :=
  existsb (String.eqb x) l.

End Str.

(** ** The regular expressions of the script

    [re.compile(p).match(s)]: a backtracking match of [p] at the start of
    [s].  The patterns of the script only repeat single characters, so a
    pattern is a sequence of nodes. *)

Module Re.

Inductive atom : Type :=
| Chr (c : ascii)                        (* a literal character *)
| Dot                                    (* .  : anything but a newline *)
| InSet (ranges : list (ascii * ascii))  (* [a-f0-9] *)
| NotIn (ranges : list (ascii * ascii)). (* [^/] *)

Inductive node : Type :=
| Bol              (* ^ *)
| Eol              (* $ : at the end, or before a newline that ends the string *)
| One (a : atom)
| Plus (a : atom)  (* a+ , greedy *)
| Star (a : atom)  (* a* , greedy *)
| Open             (* ( of group 1 *)
| Close.           (* ) of group 1 *)

Definition newline : ascii := ascii_of_nat 10.

Definition in_range (c : ascii) (r : ascii * ascii) : bool :=
  (nat_of_ascii (fst r) <=? nat_of_ascii c)%nat &&
  (nat_of_ascii c <=? nat_of_ascii (snd r))%nat.

Definition accepts (a : atom) (c : ascii) : bool :=
  match a with
  | Chr d => Ascii.eqb c d
  | Dot => negb (Ascii.eqb c newline)
  | InSet rs => existsb (in_range c) rs
  | NotIn rs => negb (existsb (in_range c) rs)
  end.

(** How many characters at the head of [s] does [a] accept? *)
Fixpoint run_length (a : atom) (s : list ascii) : nat :=
  match s with
  | c :: s' => if accepts a c then S (run_length a s') else O
  | [] => O
  end.

(** The state of a match: where group 1 was opened, and what it holds. *)
Record captures : Type := { opened : option (list ascii); group1 : option (list ascii) }.

Definition no_captures : captures := {| opened := None; group1 := None |}.

(** Greedy repetition: the longest run first, then shorter ones, down to
    [lo] characters. *)
Fixpoint backtrack {R} (k : list ascii -> option R) (s : list ascii)
    (lo n : nat) : option R :=
  match k (skipn n s) with
  | Some r => Some r
  | None =>
      match n with
      | O => None
      | S n' => if (n' <? lo)%nat then None else backtrack k s lo n'
      end
  end.

Fixpoint run (p : list node) (at_start : bool) (cs : captures)
    (s : list ascii) : option captures :=
  match p with
  | [] => Some cs
  | Bol :: p' => if at_start then run p' at_start cs s else None
  | Eol :: p' =>
      match s with
      | [] => run p' at_start cs s
      | [c] => if Ascii.eqb c newline then run p' at_start cs s else None
      | _ => None
      end
  | One a :: p' =>
      match s with
      | c :: s' => if accepts a c then run p' false cs s' else None
      | [] => None
      end
  | Plus a :: p' =>
      let n := run_length a s in
      if (n <? 1)%nat then None
      else backtrack (run p' false cs) s 1 n
  | Star a :: p' =>
      match run_length a s with
      | O => run p' at_start cs s
      | S n =>
          match backtrack (run p' false cs) s 1 (S n) with
          | Some r => Some r
          | None => run p' at_start cs s
          end
      end
  | Open :: p' =>
      run p' at_start {| opened := Some s; group1 := group1 cs |} s
  | Close :: p' =>
      let g := match opened cs with
               | Some s0 => Some (firstn (length s0 - length s) s0)
               | None => None
               end in
      run p' at_start {| opened := opened cs; group1 := g |} s
  end.

Definition lit (s : string) : list node :=
  map (fun c => One (Chr c)) (list_ascii_of_string s).

(** [p.match(s)]: [None], or the match object, of which [group(1)] is
    kept. *)
Definition match_ (p : list node) (s : string) : option (option string) :=
  match run p true no_captures (list_ascii_of_string s) with
  | Some cs => Some (option_map string_of_list_ascii (group1 cs))
  | None => None
  end.

(** [m.group(1)] of a match of a pattern that has a group *)
Definition group_1 (p : list node) (s : string) : option string :=
  match match_ p s with
  | Some (Some g) => Some g
  | _ => None
  end.

End Re.

Definition ELB_MAX_IPS : Z := 8.

(** [re.compile(r'^eni-[a-f0-9]+ / ELB (.+)$')] *)
Definition ENI_ELB_RE : list Re.node :=
  [Re.Bol] ++ Re.lit "eni-"
  ++ [Re.Plus (Re.InSet [("a"%char, "f"%char); ("0"%char, "9"%char)])]
  ++ Re.lit " / ELB "
  ++ [Re.Open; Re.Plus Re.Dot; Re.Close; Re.Eol].

(** [re.compile(r'^ELB net/([^/]+)/.*$')] *)
Definition ENI_NLB_RE : list Re.node :=
  [Re.Bol] ++ Re.lit "ELB net/"
  ++ [Re.Open; Re.Plus (Re.NotIn [("/"%char, "/"%char)]); Re.Close]
  ++ Re.lit "/"
  ++ [Re.Star Re.Dot; Re.Eol].

(** ** netaddr: [IPNetwork], its slices, and [str] of an address *)

Module Netaddr.

Definition digit (c : ascii) : option Z :=
  let n := nat_of_ascii c in
  if ((48 <=? n) && (n <=? 57))%nat then Some (Z.of_nat (n - 48)) else None.

Fixpoint decimal_from (acc : Z) (s : string) : option Z :=
  match s with
  | EmptyString => Some acc
  | String c s' =>
      match digit c with
      | Some d => decimal_from (10 * acc + d) s'
      | None => None
      end
  end.

(** A non-empty string of decimal digits. *)
Definition decimal (s : string) : option Z :=
  match s with
  | EmptyString => None
  | _ => decimal_from 0 s
  end.

Definition width : Z := 32.
Definition max_int : Z := 2 ^ width - 1.

(** [IPNetwork(cidr)]: the address as given and the prefix length. *)
Record IPNetwork : Type := { value : Z; prefixlen : Z }.

Definition octet (o : option Z) : option Z :=
  match o with
  | Some v => if v <=? 255 then Some v else None
  | None => None
  end.

(** The form [a.b.c.d/p], which is what EC2 returns as [CidrBlock]; any
    other string is rejected ([AddrFormatError]). *)
Definition parse (cidr : string) : option IPNetwork :=
  match Str.split "/"%char cidr with
  | [addr; pfx] =>
      match map (fun s => octet (decimal s)) (Str.split "."%char addr), decimal pfx with
      | [Some a; Some b; Some c; Some d], Some p =>
          if p <=? width
          then Some {| value := ((a * 256 + b) * 256 + c) * 256 + d; prefixlen := p |}
          else None
      | _, _ => None
      end
  | _ => None
  end.

Definition hostmask_int (n : IPNetwork) : Z :=
  Z.shiftl 1 (width - prefixlen n) - 1.

Definition first (n : IPNetwork) : Z :=
  Z.land (value n) (Z.lxor max_int (hostmask_int n)).

Definition last (n : IPNetwork) : Z :=
  Z.lor (value n) (hostmask_int n).

Definition size (n : IPNetwork) : Z := last n - first n + 1.

(** [slice(start, stop).indices(len)] with the default step 1. *)
Definition clip (len i : Z) : Z :=
  if i <? 0 then Z.max 0 (i + len) else Z.min i len.

Definition slice_indices (start stop len : Z) : Z * Z * Z :=
  (clip len start, clip len stop, 1).

(** [iter_iprange(start, end, 1)]: both ends included. *)
Definition iter_iprange (a b : Z) : list Z :=
  map (fun i => a + Z.of_nat i) (seq 0 (Z.to_nat (b - a + 1))).

(** [list(net[start:stop])] *)
Definition getitem_slice (n : IPNetwork) (start stop : Z) : list Z :=
  let '(i, j, step) := slice_indices start stop (size n) in
  if (i + step <? 0) || (j <? step) then [first n]
  else iter_iprange (first n + i) (first n + j - step).

Definition str_Z (z : Z) : string :=
  NilZero.string_of_uint (N.to_uint (Z.to_N z)).

(** [str(IPAddress(v))] *)
Definition str (v : Z) : string :=
  str_Z (Z.shiftr v 24) ++ "." ++ str_Z (Z.land (Z.shiftr v 16) 255) ++ "."
  ++ str_Z (Z.land (Z.shiftr v 8) 255) ++ "." ++ str_Z (Z.land v 255).

End Netaddr.

(** [_ips_for_subnet]: [[str(x) for x in list(IPNetwork(cidr)[4:-1])]].
    The two variants have the same body. *)
Definition _ips_for_subnet (cidr : string) : option (list string) :=
  match Netaddr.parse cidr with
  | Some net => Some (map Netaddr.str (Netaddr.getitem_slice net 4 (-1)))
  | None => None
  end.

(** ** What the AWS API returns *)

(** [ec2_res.network_interfaces]: an ENI with its id, its description and
    the [PrivateIpAddress] of each entry of [private_ip_addresses]. *)
Record NetworkInterface : Type := {
  eni_id : string;
  eni_description : string;
  eni_private_ip_addresses : list string
}.

(** An instance of [describe_instances].  [PrivateIpAddress] and
    [PublicIpAddress] may be missing; [NetworkInterfaces] holds the
    [PrivateIpAddress] of each attached interface. *)
Record Instance : Type := {
  InstanceId : string;
  PrivateIpAddress : option string;
  PublicIpAddress : option string;
  NetworkInterfaces : list string;
  NetworkInterfaceId : option string;
  Tags : list (string * string)
}.

(** A group of [describe_auto_scaling_groups]; [Instances] holds the
    [InstanceId] of each member. *)
Record AutoScalingGroup : Type := {
  VPCZoneIdentifier : string;
  Instances : list string;
  MaxSize : Z
}.

(** A load balancer of [describe_load_balancers]; [AvailabilityZones] holds
    [az.get('SubnetId')] of each zone. *)
Record LoadBalancer : Type := {
  Type_ : string;
  LoadBalancerArn : string;
  LoadBalancerName : string;
  AvailabilityZones : list (option string)
}.

Record Subnet : Type := {
  SubnetId : string;
  CidrBlock : string;
  AvailableIpAddressCount : Z
}.

(** A paginated call: the pages it yields, and the exception that ends the
    iteration, if one does. *)
Record paginator (A : Type) : Type := {
  pages : list (list A);
  error : option exn
}.
Arguments pages {A} p.
Arguments error {A} p.

(** One invocation's view of the account.  [subnet] is what [_find_subnet]
    returned. *)
Record AWS : Type := {
  subnet : Subnet;
  (* network_interfaces.filter(subnet-id) *)
  enis_in_subnet : result (list NetworkInterface);
  (* network_interfaces.filter(description, subnet-id), by description *)
  enis_by_description : string -> result (list NetworkInterface);
  (* describe_instances, filter network-interface.subnet-id: reservations *)
  instances_by_ni_subnet : paginator (list Instance);
  (* describe_instances, filter subnet-id: reservations *)
  instances_by_subnet : paginator (list Instance);
  (* describe_instances(InstanceIds=...): reservations *)
  instances_by_ids : gset string -> paginator (list Instance);
  describe_auto_scaling_groups : paginator AutoScalingGroup;
  describe_load_balancers : paginator LoadBalancer
}.

(** ** The run: iteration order, output, exceptions *)

Record Runtime : Type := {
  iter_items : gmap string string -> list (string * string);   (* d.items() *)
  iter_set : gset string -> list string                        (* for x in s *)
}.

Definition RuntimeOk (rt : Runtime) : Prop :=
  (forall m, iter_items rt m ≡ₚ map_to_list m) /\
  (forall s, iter_set rt s ≡ₚ elements s).

Definition canonical : Runtime :=
  {| iter_items := map_to_list; iter_set := elements |}.

(** What the script writes. *)
Inductive line : Type :=
| FoundSubnet (subnet_id cidr : string) (available : Z)
| UsedOutOfTotal (used total : Z)
| FoundELBs (count curr max : Z)
| FoundNLBs (count curr max : Z)
| FoundASGs (count curr max : Z)
| FoundEKS (count : Z)
| DriftWarning
| Summary (usable used total_max : Z)
| LogWarning (msg : string).

#[global] Instance line_eq_dec : EqDecision line.
Proof. solve_decision. Defined.

(** Output so far, and a value or the exception that ended the run. *)
Definition M (A : Type) : Type := list line * result A.

Definition ret {A} (a : A) : M A := ([], Ok a).

Definition bind {A B} (m : M A) (f : A -> M B) : M B :=
  match m with
  | (out, Ok a) => let '(out', r) := f a in ((out ++ out')%list, r)
  | (out, Raise e) => (out, Raise e)
  end.

Definition print (l : line) : M unit := ([l], Ok tt).

Definition lift {A} (r : result A) : M A := ([], r).

#[global] Instance M_ret : MRet M := @ret.
#[global] Instance M_bind : MBind M := fun A B f m => bind m f.

(** A [for] loop over [l] that threads the local variables [s]; it stops at
    the first element whose body raises, with the variables as they were
    before that element. *)
Fixpoint for_each {A S} (body : S -> A -> result S) (l : list A) (s : S)
    : S * option exn :=
  match l with
  | [] => (s, None)
  | a :: l' =>
      match body s a with
      | Ok s' => for_each body l' s'
      | Raise e => (s, Some e)
      end
  end.

(** [for page in paginator.paginate(): for x in page: body] *)
Definition for_pages {A S} (p : paginator A) (body : S -> A -> result S) (s : S)
    : S * option exn :=
  match for_each body (concat (pages p)) s with
  | (s', None) => (s', error p)
  | r => r
  end.

(** A loop that is not inside a [try]: its exception ends the function. *)
Definition propagate {S} (r : S * option exn) : result S :=
  match r with
  | (s, None) => Ok s
  | (_, Some e) => Raise e
  end.

(** [try: loop / except ClientError as e: logger.warning(msg)]: the local
    variables keep what the loop reached. *)
Definition except_ClientError {S} (msg : string) (r : S * option exn) : M S :=
  match r with
  | (s, None) => ret s
  | (s, Some ClientError) => ([LogWarning msg], Ok s)
  | (_, Some e) => lift (Raise e)
  end.

Definition len {A} (l : list A) : Z := Z.of_nat (length l).

(** ** The second variant: [class AWSIPUsage], lines 305-718 *)

Module V2.

(** [_find_used_eni]: [res[ip] = '%s / %s' % (eni.id, eni.description)] for
    every private address of every ENI of the subnet.  (The parameters that
    the functions of the script take and do not read are left out
    throughout.) *)
Definition eni_descriptor (eni : NetworkInterface) : string :=
  eni_id eni ++ " / " ++ eni_description eni.

Definition eni_record (res : gmap string string) (eni : NetworkInterface)
    : gmap string string :=
  fold_left (fun res ip => <[ip := eni_descriptor eni]> res)
            (eni_private_ip_addresses eni) res.

Definition _find_used_eni (w : AWS) : result (gmap string string) :=
  match enis_in_subnet w with
  | Ok enis => Ok (fold_left eni_record enis ∅)
  | Raise e => Raise e
  end.

(** The body of the two loops of [_find_used_ec2_instances]. *)
Definition ec2_record (ips : list string) (res : gmap string string)
    (inst : Instance) : result (gmap string string) :=
  match PrivateIpAddress inst with
  | None => Raise KeyError
  | Some priv =>
      let by_interfaces :=
        fold_left
          (fun res ni =>
             if Str.mem ni ips
             then <[priv := InstanceId inst ++ "/"
                            ++ default "0" (NetworkInterfaceId inst)]> res
             else res)
          (NetworkInterfaces inst) res in
      if Str.mem priv ips then Ok (<[priv := InstanceId inst]> res)
      else
        match PublicIpAddress inst with
        | Some pub =>
            if Str.mem pub ips then Ok (<[pub := InstanceId inst]> res)
            else Ok by_interfaces
        | None => Ok by_interfaces
        end
  end.

(** [for r in resp: for reservation in r['Reservations']: for inst in
    reservation['Instances']] *)
Definition for_instances {S} (p : paginator (list Instance))
    (body : S -> Instance -> result S) (s : S) : S * option exn :=
  for_pages {| pages := map (@concat Instance) (pages p); error := error p |} body s.

Definition _find_used_ec2_instances (w : AWS) (ips : list string)
    : result (gmap string string) :=
  match propagate (for_instances (instances_by_ni_subnet w) (ec2_record ips) ∅) with
  | Ok res => propagate (for_instances (instances_by_subnet w) (ec2_record ips) res)
  | Raise e => Raise e
  end.

(** [_handle_elbs], first loop: the names that [ENI_ELB_RE] takes out of the
    descriptors. *)
Definition elb_name_of (elbnames : gset string) (item : string * string)
    : gset string :=
  match Re.match_ ENI_ELB_RE (snd item) with
  | None => elbnames
  | Some m => match m with
              | Some elbname => {[elbname]} ∪ elbnames
              | None => elbnames
              end
  end.

Definition elbnames_of (rt : Runtime) (ips : gmap string string) : gset string :=
  fold_left elb_name_of (iter_items rt ips) ∅.

(** [_handle_elbs], second loop: one query per name. *)
Definition elb_count (w : AWS) (acc : Z * Z) (elbname : string) : result (Z * Z) :=
  match enis_by_description w ("ELB " ++ elbname) with
  | Ok elb_enis => Ok (fst acc + len elb_enis, snd acc + ELB_MAX_IPS)
  | Raise e => Raise e
  end.

Definition _handle_elbs (rt : Runtime) (w : AWS) (ips : gmap string string)
    : result (Z * Z * Z) :=
  let elbnames := elbnames_of rt ips in
  match propagate (for_each (elb_count w) (iter_set rt elbnames) (0, 0)) with
  | Ok (curr_ips, max_ips) => Ok (Z.of_nat (size elbnames), curr_ips, max_ips)
  | Raise e => Raise e
  end.

(** [_handle_nlbs], first loop: the descriptors that [ENI_NLB_RE] matches,
    with the name it takes out.  The script only passes them to
    [logger.debug]. *)
Definition nlb_eni_names (rt : Runtime) (ips : gmap string string)
    : list (string * string) :=
  omap (fun item => match Re.group_1 ENI_NLB_RE (snd item) with
                    | Some nlb_name => Some (fst item, nlb_name)
                    | None => None
                    end)
       (iter_items rt ips).

(** [sum(1 for ip, desc in ips.items() if lb['LoadBalancerName'] in desc)] *)
Definition nlb_ips (rt : Runtime) (ips : gmap string string) (name : string) : Z :=
  len (filter (fun item => Is_true (Str.contains name (snd item))) (iter_items rt ips)).

Record nlb_state : Type := {
  nlb_curr_ips : Z;
  nlb_max_ips : Z;
  nlb_arns : gset string
}.

(** [_handle_nlbs], the body of the loop over the load balancers, with
    [show_tags] at its default, [False]. *)
Definition nlb_count (rt : Runtime) (ips : gmap string string) (subnet_id : string)
    (st : nlb_state) (lb : LoadBalancer) : result nlb_state :=
  if negb (String.eqb (Type_ lb) "network") then Ok st
  else if existsb (fun az => match az with
                             | Some s => String.eqb s subnet_id
                             | None => false
                             end) (AvailabilityZones lb)
  then
    let n := nlb_ips rt ips (LoadBalancerName lb) in
    Ok {| nlb_curr_ips := nlb_curr_ips st + (if 0 <? n then n else 1);
          nlb_max_ips := nlb_max_ips st + ELB_MAX_IPS;
          nlb_arns := {[LoadBalancerArn lb]} ∪ nlb_arns st |}
  else Ok st.

Definition _handle_nlbs (rt : Runtime) (w : AWS) (ips : gmap string string)
    (subnet_id : string) : M (Z * Z * Z) :=
  st ← except_ClientError "Error querying NLBs"
         (for_pages (describe_load_balancers w) (nlb_count rt ips subnet_id)
            {| nlb_curr_ips := 0; nlb_max_ips := 0; nlb_arns := ∅ |});
  mret (Z.of_nat (size (nlb_arns st)), nlb_curr_ips st, nlb_max_ips st).

(** [_handle_asgs], the body of the loop over the groups.  (The function
    does not read its first parameter, [ips]; it is left out.) *)
Definition asg_count (rt : Runtime) (subnet_id : string)
    (ec2_ip_to_id : gmap string string) (acc : Z * Z * Z) (asg : AutoScalingGroup)
    : result (Z * Z * Z) :=
  let '(count, curr_ips, max_ips) := acc in
  let subnets := Str.split ","%char (VPCZoneIdentifier asg) in
  if negb (Str.mem subnet_id subnets) then Ok acc
  else
    let values := map snd (iter_items rt ec2_ip_to_id) in
    let curr := fold_left (fun c inst => if Str.mem inst values then c + 1 else c)
                          (Instances asg) curr_ips in
    Ok (count + 1, curr, max_ips + (MaxSize asg - len (Instances asg))).

Definition _handle_asgs (rt : Runtime) (w : AWS) (subnet_id : string)
    (ec2_ip_to_id : gmap string string) : result (Z * Z * Z) :=
  propagate (for_pages (describe_auto_scaling_groups w)
               (asg_count rt subnet_id ec2_ip_to_id) (0, 0, 0)).

(** [_handle_eks]: the tags of an instance, as the dict the script builds
    of them, read through its two lookups. *)
Definition tag_value (key : string) (tags : list (string * string)) : option string :=
  snd <$> List.find (fun kv => String.eqb (fst kv) key) (rev tags).

(** The cluster an instance belongs to.  The test
    ['kubernetes.io/cluster/' in str(tags)] guards a search for a key with
    that prefix; the search finds nothing when the test fails, so the search
    alone is the result. *)
Definition cluster_name_of (tags : list (string * string)) : option string :=
  match tag_value "eks:cluster-name" tags with
  | Some v => Some v
  | None =>
      match List.find (fun kv => Str.startswith (fst kv) "kubernetes.io/cluster/") tags with
      | Some kv => Some (Str.last (Str.split "/"%char (fst kv)))
      | None => None
      end
  end.

(** [eks_instances[cluster_name].append(x)], the entry made if missing *)
Fixpoint dict_append {X} (k : string) (x : X) (d : list (string * list X))
    : list (string * list X) :=
  match d with
  | [] => [(k, [x])]
  | (k', l) :: d' =>
      if String.eqb k k' then (k', (l ++ [x])%list) :: d'
      else (k', l) :: dict_append k x d'
  end.

Definition eks_state : Type := Z * list (string * list (string * string)).

Definition eks_record (st : eks_state) (inst : Instance) : result eks_state :=
  match cluster_name_of (Tags inst) with
  | Some cluster_name =>
      if String.eqb cluster_name EmptyString then Ok st
      else Ok (fst st + 1,
               dict_append cluster_name
                 (InstanceId inst, default "N/A" (PrivateIpAddress inst)) (snd st))
  | None => Ok st
  end.

(** [instance_ids]: the ids of the holders that are instances. *)
Definition eks_instance_ids (rt : Runtime) (ec2_ip_to_id : gmap string string)
    : list string :=
  let values := iter_set rt (list_to_set (map snd (iter_items rt ec2_ip_to_id))) in
  map (fun iid => Str.first (Str.split "/"%char iid))
      (filter (fun iid => Is_true (Str.startswith iid "i-")) values).

Definition _handle_eks (rt : Runtime) (w : AWS) (ec2_ip_to_id : gmap string string)
    : M eks_state :=
  let instance_ids := eks_instance_ids rt ec2_ip_to_id in
  match instance_ids with
  | [] => mret (0, [])
  | _ =>
      except_ClientError "Error querying instance details"
        (for_instances (instances_by_ids w (list_to_set instance_ids)) eks_record (0, []))
  end.

(** [used_ips = {}; used_ips.update(eni_ips); used_ips.update(ec2_ips)] *)
Definition used_ips_of (eni_ips ec2_ips : gmap string string) : gmap string string :=
  ec2_ips ∪ (eni_ips ∪ ∅).

(** [show_subnet_usage], after [_find_subnet] has returned the subnet, with
    [show_tags] at its default. *)
Definition show_subnet_usage (rt : Runtime) (w : AWS) : M unit :=
  let sn := subnet w in
  print (FoundSubnet (SubnetId sn) (CidrBlock sn) (AvailableIpAddressCount sn));;
  let avail_ips := AvailableIpAddressCount sn in
  ips ← lift (match _ips_for_subnet (CidrBlock sn) with
              | Some l => Ok l
              | None => Raise AddrFormatError
              end);
  eni_ips ← lift (_find_used_eni w);
  ec2_ips ← lift (_find_used_ec2_instances w ips);
  let used_ips := used_ips_of eni_ips ec2_ips in
  let used := Z.of_nat (size used_ips) in
  print (UsedOutOfTotal used (len ips));;
  '(elb_count, elb_curr, elb_max) ← lift (_handle_elbs rt w used_ips);
  print (FoundELBs elb_count elb_curr elb_max);;
  '(nlb_count, nlb_curr, nlb_max) ← _handle_nlbs rt w used_ips (SubnetId sn);
  print (FoundNLBs nlb_count nlb_curr nlb_max);;
  '(asg_count, asg_curr, asg_max) ← lift (_handle_asgs rt w (SubnetId sn) ec2_ips);
  print (FoundASGs asg_count asg_curr asg_max);;
  '(eks_count, eks_details) ← _handle_eks rt w ec2_ips;
  print (FoundEKS eks_count);;
  (if bool_decide (used ≠ len ips - avail_ips) then print DriftWarning else mret tt);;
  let total_max := used + elb_max + nlb_max + asg_max in
  print (Summary (len ips) used total_max).

End V2.

(** ** The figures of the report, stated on the collected data

    What the specification says each group's figures are.  The theorems
    below compare the handlers of the script with these. *)

Module Spec.

Definition sumZ (l : list Z) : Z := foldr Z.add 0 l.

(** The holder descriptors of an address map: [d.values()]. *)
Definition holders (m : gmap string string) : list string :=
  map snd (map_to_list m).

(** Classic/ALB: the load balancers named by some descriptor
    ["<eni-id> / ELB <name>"], and the ENIs that carry ["ELB <name>"]. *)
Definition elb_names (ips : gmap string string) : gset string :=
  list_to_set (omap (fun item => Re.group_1 ENI_ELB_RE (snd item)) (map_to_list ips)).

Definition elb_enis (w : AWS) (name : string) : Z :=
  match enis_by_description w ("ELB " ++ name) with
  | Ok l => len l
  | Raise _ => 0
  end.

Definition elb_query_ok (w : AWS) (name : string) : bool :=
  is_ok (enis_by_description w ("ELB " ++ name)).

(** NLB: a load balancer of type network with a zone in the subnet; its
    current count is the number of descriptors that contain its name, or 1
    if there is none. *)
Definition nlb_in_subnet (subnet_id : string) (lb : LoadBalancer) : bool :=
  String.eqb (Type_ lb) "network" &&
  existsb (fun az => match az with
                     | Some s => String.eqb s subnet_id
                     | None => false
                     end) (AvailabilityZones lb).

Definition nlb_descriptors (ips : gmap string string) (name : string) : Z :=
  len (filter (fun item => Is_true (Str.contains name (snd item))) (map_to_list ips)).

Definition nlb_current (ips : gmap string string) (lb : LoadBalancer) : Z :=
  let n := nlb_descriptors ips (LoadBalancerName lb) in
  if 0 <? n then n else 1.

(** ASG: a group whose subnet list has the subnet; its current count is the
    number of its members that hold an address of the subnet; its maximum is
    the room left under its maximal size. *)
Definition asg_in_subnet (subnet_id : string) (asg : AutoScalingGroup) : bool :=
  Str.mem subnet_id (Str.split ","%char (VPCZoneIdentifier asg)).

Definition asg_current (ec2_ips : gmap string string) (asg : AutoScalingGroup) : Z :=
  len (List.filter (fun inst => Str.mem inst (holders ec2_ips)) (Instances asg)).

Definition asg_maximum (asg : AutoScalingGroup) : Z :=
  MaxSize asg - len (Instances asg).

(** The maximum that a line of the report states for a group; the line for
    the EKS instances states none. *)
Definition group_maximum (l : line) : Z :=
  match l with
  | FoundELBs _ _ m => m
  | FoundNLBs _ _ m => m
  | FoundASGs _ _ m => m
  | _ => 0
  end.

(** The lines that state figures: all but the one that repeats what the
    subnet reports, and the warning. *)
Definition states_figures (l : line) : bool :=
  match l with
  | FoundSubnet _ _ _ | DriftWarning => false
  | _ => true
  end.

Definition caught (e : option exn) : Prop :=
  e = None \/ e = Some ClientError.

(** Every call of the run succeeds, but that the two calls inside a [try] may
    end with a [ClientError]. *)
Record collectors_ok (w : AWS) : Prop := {
  cidr_ok : is_Some (_ips_for_subnet (CidrBlock (subnet w)));
  enis_ok : is_ok (enis_in_subnet w) = true;
  elb_queries_ok : forall description, is_ok (enis_by_description w description) = true;
  instances_1_ok : error (instances_by_ni_subnet w) = None;
  instances_2_ok : error (instances_by_subnet w) = None;
  addresses_1_ok : Forall (fun inst => is_Some (PrivateIpAddress inst))
                     (concat (map (@concat Instance) (pages (instances_by_ni_subnet w))));
  addresses_2_ok : Forall (fun inst => is_Some (PrivateIpAddress inst))
                     (concat (map (@concat Instance) (pages (instances_by_subnet w))));
  asgs_ok : error (describe_auto_scaling_groups w) = None;
  lbs_ok : caught (error (describe_load_balancers w));
  eks_ok : forall ids, caught (error (instances_by_ids w ids))
}.

End Spec.

(** ** Accounts to run the script on *)

Module Fixtures.

(** The description filter of [network_interfaces.filter], on a fixed list
    of ENIs. *)
Definition describe_by (enis : list NetworkInterface) (d : string)
    : result (list NetworkInterface) :=
  Ok (List.filter (fun e => String.eqb (eni_description e) d) enis).

Definition one_page {A} (l : list A) : paginator A :=
  {| pages := [l]; error := None |}.

(** An account in which every call succeeds. *)
Definition account (sn : Subnet) (enis : list NetworkInterface)
    (insts : list Instance) (asgs : list AutoScalingGroup)
    (lbs : list LoadBalancer) : AWS :=
  {| subnet := sn;
     enis_in_subnet := Ok enis;
     enis_by_description := describe_by enis;
     instances_by_ni_subnet := one_page [insts];
     instances_by_subnet := one_page [insts];
     instances_by_ids := fun ids =>
       one_page [List.filter (fun i => bool_decide (InstanceId i ∈ ids)) insts];
     describe_auto_scaling_groups := one_page asgs;
     describe_load_balancers := one_page lbs |}.

Definition subnet_1 (available : Z) : Subnet :=
  {| SubnetId := "subnet-1"; CidrBlock := "10.0.1.0/24";
     AvailableIpAddressCount := available |}.

Definition eni (id description ip : string) : NetworkInterface :=
  {| eni_id := id; eni_description := description;
     eni_private_ip_addresses := [ip] |}.

Definition instance (id ip : string) (tags : list (string * string)) : Instance :=
  {| InstanceId := id; PrivateIpAddress := Some ip; PublicIpAddress := None;
     NetworkInterfaces := [ip]; NetworkInterfaceId := None; Tags := tags |}.

(** Two ENIs of the classic load balancer [myelb], and nothing else. *)
Definition two_elb_enis : AWS :=
  account (subnet_1 249)
    [eni "eni-1" "ELB myelb" "10.0.1.10"; eni "eni-2" "ELB myelb" "10.0.1.11"]
    [] [] [].

(** One ENI of the network load balancer [mynlb]. *)
Definition one_nlb_eni : AWS :=
  account (subnet_1 250)
    [eni "eni-3" "ELB net/mynlb/abcd1234" "10.0.1.10"]
    [] []
    [{| Type_ := "network"; LoadBalancerArn := "arn:aws:elasticloadbalancing:nlb/mynlb";
        LoadBalancerName := "mynlb"; AvailabilityZones := [Some "subnet-1"] |}].

(** A group of at most 5 instances with its 2 instances in the subnet, and a
    group that is configured for another subnet. *)
Definition one_asg : AWS :=
  account (subnet_1 249)
    [eni "eni-a" EmptyString "10.0.1.20"; eni "eni-b" EmptyString "10.0.1.21"]
    [instance "i-1" "10.0.1.20" [("eks:cluster-name", "c1")];
     instance "i-2" "10.0.1.21" [("kubernetes.io/cluster/c2", "owned")]]
    [{| VPCZoneIdentifier := "subnet-0,subnet-1"; Instances := ["i-1"; "i-2"]; MaxSize := 5 |};
     {| VPCZoneIdentifier := "subnet-0"; Instances := ["i-9"]; MaxSize := 50 |}]
    [].

(** Eight holders of an address, in a subnet of 251 usable addresses that
    reports 241 of them as available. *)
Definition eight_holders : AWS :=
  account (subnet_1 241)
    (map (fun n => eni ("eni-" ++ n) EmptyString ("10.0.1.1" ++ n))
         ["0"; "1"; "2"; "3"; "4"; "5"; "6"; "7"])
    [] [] [].

(** [w], but the call that lists the load balancers ends as [p] does. *)
Definition with_load_balancers (w : AWS) (p : paginator LoadBalancer) : AWS :=
  {| subnet := subnet w;
     enis_in_subnet := enis_in_subnet w;
     enis_by_description := enis_by_description w;
     instances_by_ni_subnet := instances_by_ni_subnet w;
     instances_by_subnet := instances_by_subnet w;
     instances_by_ids := instances_by_ids w;
     describe_auto_scaling_groups := describe_auto_scaling_groups w;
     describe_load_balancers := p |}.

(** [w], but the call that lists the autoscaling groups ends as [p] does. *)
Definition with_auto_scaling_groups (w : AWS) (p : paginator AutoScalingGroup) : AWS :=
  {| subnet := subnet w;
     enis_in_subnet := enis_in_subnet w;
     enis_by_description := enis_by_description w;
     instances_by_ni_subnet := instances_by_ni_subnet w;
     instances_by_subnet := instances_by_subnet w;
     instances_by_ids := instances_by_ids w;
     describe_auto_scaling_groups := p;
     describe_load_balancers := describe_load_balancers w |}.

(** [w], but the subnet reports [available] free addresses. *)
Definition with_available (w : AWS) (available : Z) : AWS :=
  {| subnet := {| SubnetId := SubnetId (subnet w); CidrBlock := CidrBlock (subnet w);
                  AvailableIpAddressCount := available |};
     enis_in_subnet := enis_in_subnet w;
     enis_by_description := enis_by_description w;
     instances_by_ni_subnet := instances_by_ni_subnet w;
     instances_by_subnet := instances_by_subnet w;
     instances_by_ids := instances_by_ids w;
     describe_auto_scaling_groups := describe_auto_scaling_groups w;
     describe_load_balancers := describe_load_balancers w |}.

End Fixtures.

(** ** The first variant, lines 40-237, where it differs

    [_handle_asgs] adds the maximal size of a group, not the room left in
    it.  ([show_subnet_usage] there adds [elb_max] and [asg_max] to the used
    count, and lists the NLBs and the EKS node groups without a figure.) *)

Module V1.

Definition asg_count (rt : Runtime) (subnet_id : string)
    (ec2_ip_to_id : gmap string string) (acc : Z * Z * Z) (asg : AutoScalingGroup)
    : result (Z * Z * Z) :=
  let '(count, curr_ips, max_ips) := acc in
  let subnets := Str.split ","%char (VPCZoneIdentifier asg) in
  if negb (Str.mem subnet_id subnets) then Ok acc
  else
    let values := map snd (iter_items rt ec2_ip_to_id) in
    let curr := fold_left (fun c inst => if Str.mem inst values then c + 1 else c)
                          (Instances asg) curr_ips in
    Ok (count + 1, curr, max_ips + MaxSize asg).

Definition _handle_asgs (rt : Runtime) (w : AWS) (subnet_id : string)
    (ec2_ip_to_id : gmap string string) : result (Z * Z * Z) :=
  propagate (for_pages (describe_auto_scaling_groups w)
               (asg_count rt subnet_id ec2_ip_to_id) (0, 0, 0)).

End V1.

(** A second order of iteration: the reverse of the canonical one. *)
Definition reversed : Runtime :=
  {| iter_items := fun m => rev (map_to_list m);
     iter_set := fun s => rev (elements s) |}.

(** ** Finding the subnet of a query

    [re.match(pattern, query)] as the truth value the script takes of it.
    The two patterns of [_find_subnet] have no group; one of them bounds its
    repetitions ([\d{1,3}]), which [Rx] adds to the atoms of [Re].  The
    modules [V2b] and [V1b] continue [V2] and [V1]: the lookup of the subnet
    in both variants, and the instance records of the first. *)

Module Rx.

Inductive node : Type :=
| Bol                                              (* ^ *)
| Eol                                              (* $ *)
| One (a : Re.atom)
| Repeat (a : Re.atom) (lo : nat) (hi : option nat). (* a{lo,hi}; a+ is a{1,} *)

(** Greedy repetition: [n] characters first, then fewer, down to [lo]. *)
Fixpoint try_counts (k : nat -> bool) (lo n : nat) : bool :=
  k n ||
  match n with
  | O => false
  | S n' => if (n' <? lo)%nat then false else try_counts k lo n'
  end.

(** Does [p] match at position [pos] of the subject, of which [s] is what is
    left? *)
Fixpoint matches (p : list node) (pos : nat) (s : list ascii) : bool :=
  match p with
  | [] => true
  | Bol :: p' => (pos =? 0)%nat && matches p' pos s
  | Eol :: p' =>
      match s with
      | [] => matches p' pos s
      | [c] => Ascii.eqb c Re.newline && matches p' pos s
      | _ => false
      end
  | One a :: p' =>
      match s with
      | c :: s' => Re.accepts a c && matches p' (S pos) s'
      | [] => false
      end
  | Repeat a lo hi :: p' =>
      let n := match hi with
               | Some h => Nat.min h (Re.run_length a s)
               | None => Re.run_length a s
               end in
      (lo <=? n)%nat && try_counts (fun i => matches p' (pos + i) (skipn i s)) lo n
  end.

Definition lit (s : string) : list node :=
  map (fun c => One (Re.Chr c)) (list_ascii_of_string s).

(** [re.match(p, s)] is not [None] *)
Definition match_ (p : list node) (s : string) : bool :=
  matches p 0 (list_ascii_of_string s).

End Rx.

(** [\d], on the characters a [string] has, and [[a-fA-F0-9]]. *)
Definition any_digit : Re.atom := Re.InSet [("0"%char, "9"%char)].

Definition hex_digit : Re.atom :=
  Re.InSet [("a"%char, "f"%char); ("A"%char, "F"%char); ("0"%char, "9"%char)].

(** [r'^subnet-[a-fA-F0-9]+$'] *)
Definition SUBNET_ID_RE : list Rx.node :=
  [Rx.Bol] ++ Rx.lit "subnet-"
  ++ [Rx.Repeat hex_digit 1 None; Rx.Eol].

(** [r'^\d{1,3}\.\d{1,3}\.\d{1,3}\.\d{1,3}/\d{1,2}'] *)
Definition CIDR_BLOCK_RE : list Rx.node :=
  [Rx.Bol;
   Rx.Repeat any_digit 1 (Some 3%nat); Rx.One (Re.Chr "."%char);
   Rx.Repeat any_digit 1 (Some 3%nat); Rx.One (Re.Chr "."%char);
   Rx.Repeat any_digit 1 (Some 3%nat); Rx.One (Re.Chr "."%char);
   Rx.Repeat any_digit 1 (Some 3%nat); Rx.One (Re.Chr "/"%char);
   Rx.Repeat any_digit 1 (Some 2%nat)].

(** The keyword arguments [_find_classic_subnet] passes to
    [ec2.describe_subnets]. *)
Inductive describe_subnets_kwargs : Type :=
| SubnetIds (ids : list string)
| Filters (name : string) (values : list string).

(** [ec2.describe_subnets] called with these arguments: the ['Subnets'] of
    the response, or the exception of the call. *)
Definition describe_subnets_call : Type :=
  describe_subnets_kwargs -> result (list Subnet).

(** What the lookup writes. *)
Inductive notice : Type :=
| NoMatchingSubnets   (* logger.error('No matching subnets found! ...') *)
| MultipleSubnets.    (* print('Multiple subnets found, selecting first match.') *)

Module V2b.

Definition _find_classic_subnet (describe_subnets : describe_subnets_call)
    (kwargs : describe_subnets_kwargs) : result (option Subnet) :=
  match describe_subnets kwargs with
  | Raise ClientError => Ok None
  | Raise e => Raise e
  | Ok subnets =>
      if len subnets <? 1 then Raise SystemExit
      else if 1 <? len subnets then Raise SystemExit
      else match subnets with
           | sn :: _ => Ok (Some sn)
           | [] => Raise SystemExit   (* not reached *)
           end
  end.

Definition _find_subnet_by_id (describe_subnets : describe_subnets_call)
    (subnet_id : string) : result (option Subnet) :=
  _find_classic_subnet describe_subnets (SubnetIds [subnet_id]).

Definition _find_subnet_by_block (describe_subnets : describe_subnets_call)
    (cidr : string) : result (option Subnet) :=
  _find_classic_subnet describe_subnets (Filters "cidrBlock" [cidr]).

Definition _find_subnet (describe_subnets : describe_subnets_call)
    (query : string) : result (option Subnet) :=
  if Rx.match_ SUBNET_ID_RE query then _find_subnet_by_id describe_subnets query
  else if Rx.match_ CIDR_BLOCK_RE query then _find_subnet_by_block describe_subnets query
  else Raise SystemExit.

(** The head of [show_subnet_usage]: the subnet the report is about. *)
Definition subnet_of_query (describe_subnets : describe_subnets_call)
    (query : string) : list notice * result Subnet :=
  match _find_subnet describe_subnets query with
  | Ok (Some subnet) => ([], Ok subnet)
  | Ok None => ([NoMatchingSubnets], Raise SystemExit)
  | Raise e => ([], Raise e)
  end.

End V2b.

Module V1b.

(** [_find_subnet] of the first variant, lines 224-237.  It returns a
    subnet or raises, so the test [subnet is None] of its caller never
    holds. *)
Definition _find_subnet (describe_subnets : describe_subnets_call)
    (query : string) : list notice * result Subnet :=
  let find kwargs :=
    match describe_subnets kwargs with
    | Raise e => ([], Raise e)
    | Ok subnets =>
        match subnets with
        | [] => ([], Raise SystemExit)
        | sn :: _ =>
            ((if 1 <? len subnets then [MultipleSubnets] else []), Ok sn)
        end
    end in
  if Rx.match_ SUBNET_ID_RE query then find (SubnetIds [query])
  else if Rx.match_ CIDR_BLOCK_RE query then find (Filters "cidrBlock" [query])
  else ([], Raise SystemExit).

(** [_find_used_ec2_instances] of the first variant, lines 194-204:
    [ip = inst.get('PrivateIpAddress'); if ip: res[ip] = inst['InstanceId']]. *)
Definition ec2_record (res : gmap string string) (inst : Instance)
    : result (gmap string string) :=
  match PrivateIpAddress inst with
  | Some ip =>
      if String.eqb ip EmptyString then Ok res
      else Ok (<[ip := InstanceId inst]> res)
  | None => Ok res
  end.

Definition _find_used_ec2_instances (w : AWS) : result (gmap string string) :=
  propagate (V2.for_instances (instances_by_subnet w) ec2_record ∅).

End V1b.

(** The instances a paginated [describe_instances] lists, in the order the
    loops of the script meet them. *)
Definition instances_of (p : paginator (list Instance)) : list Instance :=
  concat (map (@concat Instance) (pages p)).

(** ** Predicates of the properties below *)

(** What a record of [_find_used_ec2_instances] can be, given the instances
    that were listed: the id of an instance at one of its two addresses, the
    address being one of the subnet; or, at a private address that is not
    one of the subnet, the id of the instance and of its interface, one of
    its interfaces having an address of the subnet. *)
Definition ec2_record_ok (ips : list string) (listed : list Instance)
    (ip holder : string) : Prop :=
  exists inst, In inst listed /\
    ((Str.mem ip ips = true /\ holder = InstanceId inst /\
      (PrivateIpAddress inst = Some ip \/ PublicIpAddress inst = Some ip)) \/
     (Str.mem ip ips = false /\ PrivateIpAddress inst = Some ip /\
      holder = InstanceId inst ++ "/" ++ default "0" (NetworkInterfaceId inst) /\
      exists ni, In ni (NetworkInterfaces inst) /\ Str.mem ni ips = true)).

(** What [_handle_eks] returns, as a whole: the count is the number of
    instances listed, cluster by cluster; no cluster is listed twice, under
    an empty name, or without an instance. *)
Definition eks_state_ok (st : V2.eks_state) : Prop :=
  fst st = Spec.sumZ (map (fun entry => len (snd entry)) (snd st)) /\
  NoDup (map fst (snd st)) /\
  Forall (fun entry => fst entry <> EmptyString /\ snd entry <> []) (snd st).

(** [x] is an element of [s] read as a list separated by [sep]. *)
Definition whole_element (sep : ascii) (x s : string) : Prop :=
  exists pre post,
    s = pre ++ x ++ post /\
    (pre = EmptyString \/ exists p, pre = p ++ String sep EmptyString) /\
    (post = EmptyString \/ exists q, post = String sep q).

(** A count within the upper bound of a repetition, if it has one. *)
Definition bounded (n : nat) (hi : option nat) : Prop :=
  match hi with Some h => (n <= h)%nat | None => True end.

(** The characters of a string are all accepted by [a], and there are
    between [lo] and [hi] of them. *)
Definition run_of (a : Re.atom) (lo : nat) (hi : option nat) (s : string) : Prop :=
  (lo <= String.length s)%nat /\ bounded (String.length s) hi /\
  Forall (fun c => Re.accepts a c = true) (list_ascii_of_string s).

(** A newline, as the string that ends a query. *)
Definition trailing_newline : string := String Re.newline EmptyString.

(** The record that an instance leaves when its private address is taken
    as it is. *)
Definition private_record (res : gmap string string) (inst : Instance)
    : gmap string string :=
  match PrivateIpAddress inst with
  | Some ip => <[ip := InstanceId inst]> res
  | None => res
  end.

(** * Properties *)

(** ** The definitions on examples *)

Example ENI_ELB_RE_classic :
  Re.group_1 ENI_ELB_RE "eni-1 / ELB myelb" = Some "myelb".
Proof. reflexivity. Qed.

Example ENI_ELB_RE_no_eni :
  Re.match_ ENI_ELB_RE "ELB myelb" = None.
Proof. reflexivity. Qed.

Example ENI_NLB_RE_bare_description :
  Re.group_1 ENI_NLB_RE "ELB net/mynlb/abcd1234" = Some "mynlb".
Proof. reflexivity. Qed.

Example split_subnets :
  Str.split ","%char "subnet-1,subnet-2" = ["subnet-1"; "subnet-2"].
Proof. reflexivity. Qed.

Example ips_24 :
  option_map (fun l => (hd EmptyString l, List.last l EmptyString, length l)) (_ips_for_subnet "10.0.1.0/24")
  = Some ("10.0.1.4", "10.0.1.254", 251%nat).
Proof. vm_compute. reflexivity. Qed.

Example ips_29 : _ips_for_subnet "10.0.1.9/29" = Some ["10.0.1.12"; "10.0.1.13"; "10.0.1.14"].
Proof. vm_compute. reflexivity. Qed.

Example ips_30 : _ips_for_subnet "10.0.1.8/30" = Some [].
Proof. vm_compute. reflexivity. Qed.

Example run_two_elb_enis :
  V2.show_subnet_usage canonical Fixtures.two_elb_enis
  = ([FoundSubnet "subnet-1" "10.0.1.0/24" 249; UsedOutOfTotal 2 251;
      FoundELBs 1 2 8; FoundNLBs 0 0 0; FoundASGs 0 0 0; FoundEKS 0;
      Summary 251 2 10], Ok tt).
Proof. vm_compute. reflexivity. Qed.

Example run_one_asg :
  V2.show_subnet_usage canonical Fixtures.one_asg
  = ([FoundSubnet "subnet-1" "10.0.1.0/24" 249; UsedOutOfTotal 2 251;
      FoundELBs 0 0 0; FoundNLBs 0 0 0; FoundASGs 1 2 3; FoundEKS 2;
      Summary 251 2 5], Ok tt).
Proof. vm_compute. reflexivity. Qed.

(** ** The address space of a CIDR block *)

Section AddressSpace.
Import Netaddr.

Lemma digit_bounds c d : digit c = Some d -> 0 <= d <= 9.
Proof.
  unfold digit. destruct (_ && _)%bool eqn:E; [|discriminate].
  intros [= <-]. apply andb_true_iff in E as [E1 E2].
  apply Nat.leb_le in E1, E2. lia.
Qed.

Lemma decimal_from_nonneg s : forall acc v,
  0 <= acc -> decimal_from acc s = Some v -> 0 <= v.
Proof.
  induction s as [|c s IH]; simpl; intros acc v Hacc H.
  - injection H as <-. exact Hacc.
  - destruct (digit c) as [d|] eqn:Ed; [|discriminate].
    apply digit_bounds in Ed. apply (IH (10 * acc + d)); [lia|exact H].
Qed.

Lemma decimal_nonneg s v : decimal s = Some v -> 0 <= v.
Proof.
  destruct s; [discriminate|]. unfold decimal.
  apply decimal_from_nonneg. lia.
Qed.

Lemma octet_bounds s v : octet (decimal s) = Some v -> 0 <= v <= 255.
Proof.
  unfold octet. destruct (decimal s) as [x|] eqn:E; [|discriminate].
  destruct (x <=? 255) eqn:L; [|discriminate]. intros [= <-].
  apply decimal_nonneg in E. apply Z.leb_le in L. lia.
Qed.

Lemma parse_bounds cidr net :
  parse cidr = Some net ->
  0 <= value net < 2 ^ 32 /\ 0 <= prefixlen net <= 32.
Proof.
  unfold parse.
  destruct (Str.split "/" cidr) as [|addr [|pfx [|? ?]]]; try discriminate.
  destruct (Str.split "." addr) as [|a [|b [|c [|d [|? ?]]]]]; simpl;
    try discriminate;
    repeat match goal with
    | |- context [octet (decimal ?x)] =>
        let E := fresh "E" in destruct (octet (decimal x)) eqn:E; try discriminate
    end.
  destruct (decimal pfx) as [p|] eqn:Ep; [|discriminate].
  unfold width. destruct (p <=? 32) eqn:Lp; [|discriminate].
  intros [= <-]. simpl.
  apply Z.leb_le in Lp. apply decimal_nonneg in Ep.
  repeat match goal with H : octet _ = Some _ |- _ => apply octet_bounds in H end.
  lia.
Qed.

(** The block of a network: it starts at a multiple of its size. *)
Lemma first_spec net :
  0 <= value net < 2 ^ 32 -> 0 <= prefixlen net <= 32 ->
  first net = 2 ^ (32 - prefixlen net) * (value net / 2 ^ (32 - prefixlen net)).
Proof.
  intros Hv Hp. unfold first, hostmask_int, max_int, width.
  set (k := 32 - prefixlen net). assert (0 <= k <= 32) as Hk by lia.
  rewrite Z.shiftl_1_l.
  replace (2 ^ 32 - 1) with (Z.ones 32) by (rewrite Z.ones_equiv; lia).
  replace (2 ^ k - 1) with (Z.ones k) by (rewrite Z.ones_equiv; lia).
  rewrite (Z.mul_comm (2 ^ k)), <- Z.shiftr_div_pow2, <- Z.shiftl_mul_pow2 by lia.
  apply Z.bits_inj'. intros n Hn.
  rewrite Z.land_spec, Z.lxor_spec, Z.shiftl_spec by lia.
  destruct (Z.lt_ge_cases n k) as [Hlt|Hge].
  - rewrite (Z.testbit_neg_r _ (n - k)) by lia.
    rewrite !Z.ones_spec_low by lia. simpl. apply andb_false_r.
  - rewrite Z.shiftr_spec by lia. replace (n - k + k) with n by lia.
    rewrite (Z.ones_spec_high k) by lia.
    destruct (Z.lt_ge_cases n 32) as [H32|H32].
    + rewrite Z.ones_spec_low by lia. simpl. apply andb_true_r.
    + rewrite Z.ones_spec_high by lia. simpl. rewrite andb_false_r.
      symmetry. apply Z.bits_above_log2; [lia|].
      destruct (Z.eq_dec (value net) 0) as [Hz|Hnz]; [rewrite Hz; simpl; lia|].
      apply Z.log2_lt_pow2; [lia|].
      pose proof (Z.pow_le_mono_r 2 32 n). lia.
Qed.

Lemma last_spec net :
  0 <= value net < 2 ^ 32 -> 0 <= prefixlen net <= 32 ->
  last net = first net + (2 ^ (32 - prefixlen net) - 1).
Proof.
  intros Hv Hp. rewrite first_spec by assumption.
  unfold last, hostmask_int, width.
  set (k := 32 - prefixlen net). assert (0 <= k <= 32) as Hk by lia.
  rewrite Z.shiftl_1_l.
  replace (2 ^ k - 1) with (Z.ones k) by (rewrite Z.ones_equiv; lia).
  rewrite (Z.mul_comm (2 ^ k)), <- Z.shiftr_div_pow2, <- Z.shiftl_mul_pow2 by lia.
  assert (Z.land (Z.shiftl (Z.shiftr (value net) k) k) (Z.ones k) = 0) as Hdisj.
  { apply Z.bits_inj'. intros n Hn.
    rewrite Z.land_spec, Z.shiftl_spec, Z.bits_0 by lia.
    destruct (Z.lt_ge_cases n k) as [Hlt|Hge].
    - rewrite (Z.testbit_neg_r _ (n - k)) by lia. reflexivity.
    - rewrite Z.ones_spec_high by lia. apply andb_false_r. }
  rewrite (Z.add_nocarry_lxor _ _ Hdisj), (Z.lxor_lor _ _ Hdisj).
  apply Z.bits_inj'. intros n Hn.
  rewrite !Z.lor_spec, Z.shiftl_spec by lia.
  destruct (Z.lt_ge_cases n k) as [Hlt|Hge].
  - rewrite Z.ones_spec_low by lia. rewrite !orb_true_r. reflexivity.
  - rewrite Z.shiftr_spec by lia. replace (n - k + k) with n by lia. reflexivity.
Qed.

Lemma size_spec net :
  0 <= value net < 2 ^ 32 -> 0 <= prefixlen net <= 32 ->
  size net = 2 ^ (32 - prefixlen net).
Proof. intros Hv Hp. unfold size. rewrite last_spec by assumption. lia. Qed.

End AddressSpace.

Lemma getitem_slice_4_m1 net :
  5 <= Netaddr.size net ->
  Netaddr.getitem_slice net 4 (-1)
  = map (fun i => Netaddr.first net + 4 + Z.of_nat i)
        (seq 0 (Z.to_nat (Netaddr.size net - 5))).
Proof.
  intros Hs. unfold Netaddr.getitem_slice, Netaddr.slice_indices, Netaddr.clip.
  change (4 <? 0) with false. change (-1 <? 0) with true. cbv iota.
  rewrite Z.min_l, Z.max_r by lia.
  change (4 + 1 <? 0) with false.
  replace (-1 + Netaddr.size net <? 1) with false by (symmetry; apply Z.ltb_ge; lia).
  cbn [orb]. unfold Netaddr.iter_iprange.
  replace (Netaddr.first net + (-1 + Netaddr.size net) - 1 - (Netaddr.first net + 4) + 1)
    with (Netaddr.size net - 5) by lia.
  reflexivity.
Qed.

(** C6. For every well-formed CIDR string of prefix length p <= 27,
    [_ips_for_subnet] returns the addresses of the block in increasing
    order, without its first 4 and its last 1: 2^(32-p) - 5 addresses. *)
Theorem C6_address_space_size (cidr : string) (net : Netaddr.IPNetwork) :
  Netaddr.parse cidr = Some net ->
  Netaddr.prefixlen net <= 27 ->
  let block := 2 ^ (32 - Netaddr.prefixlen net) in
  exists l,
    _ips_for_subnet cidr = Some l /\
    len l = block - 5 /\
    l = map (fun i => Netaddr.str (Netaddr.first net + 4 + Z.of_nat i))
            (seq 0 (Z.to_nat (block - 5))) /\
    Netaddr.first net = block * (Netaddr.value net / block) /\
    Netaddr.last net = Netaddr.first net + (block - 1).
Proof.
  intros Hparse Hp block.
  destruct (parse_bounds _ _ Hparse) as [Hv Hpb].
  pose proof (size_spec net Hv Hpb) as Hsize. fold block in Hsize.
  assert (32 <= block) as Hblock.
  { unfold block. change 32 with (2 ^ 5). apply Z.pow_le_mono_r; lia. }
  exists (map (fun i => Netaddr.str (Netaddr.first net + 4 + Z.of_nat i))
            (seq 0 (Z.to_nat (block - 5)))).
  split; [|split; [|split; [reflexivity|split]]].
  - unfold _ips_for_subnet. rewrite Hparse.
    rewrite getitem_slice_4_m1 by lia. rewrite Hsize, map_map. reflexivity.
  - unfold len. rewrite length_map, length_seq. lia.
  - apply first_spec; assumption.
  - apply last_spec; assumption.
Qed.

Lemma C6_address_space_size_witness :
  exists l, _ips_for_subnet "10.0.1.0/24" = Some l /\ len l = 251.
Proof.
  destruct (C6_address_space_size "10.0.1.0/24" {| Netaddr.value := 167772416; Netaddr.prefixlen := 24 |})
    as (l & Hl & Hlen & _).
  - vm_compute. reflexivity.
  - simpl. lia.
  - exists l. split; [exact Hl|exact Hlen].
Defined.

(** ** Loops *)

Lemma for_each_ext {A S} (f g : S -> A -> result S) l :
  (forall s a, f s a = g s a) -> forall s, for_each f l s = for_each g l s.
Proof.
  intros Hfg. induction l as [|a l IH]; intros s; simpl; [reflexivity|].
  rewrite Hfg. destruct (g s a); [apply IH|reflexivity].
Qed.

Lemma for_each_total {A S} (step : S -> A -> S) l :
  forall s, for_each (fun s a => Ok (step s a)) l s = (fold_left step l s, None).
Proof. induction l as [|a l IH]; intros s; simpl; [reflexivity|apply IH]. Qed.

Lemma sumZ_app l1 l2 : Spec.sumZ (l1 ++ l2) = Spec.sumZ l1 + Spec.sumZ l2.
Proof. induction l1 as [|x l1 IH]; simpl; [reflexivity|]. rewrite IH. lia. Qed.

#[local] Instance sumZ_perm : Proper (Permutation ==> eq) Spec.sumZ.
Proof.
  intros l1 l2 H. induction H; simpl; try lia.
Qed.

Lemma mem_In x l : Str.mem x l = true <-> In x l.
Proof.
  unfold Str.mem. rewrite existsb_exists. split.
  - intros (y & Hy & Heq). apply String.eqb_eq in Heq. subst. exact Hy.
  - intros H. exists x. split; [exact H|apply String.eqb_refl].
Qed.

Lemma mem_perm x l1 l2 : l1 ≡ₚ l2 -> Str.mem x l1 = Str.mem x l2.
Proof.
  intros H. apply eq_true_iff_eq. rewrite !mem_In.
  split; apply Permutation_in; [exact H|symmetry; exact H].
Qed.

(** ** The figures do not depend on the order of iteration *)

Section Order.
Context (rt : Runtime) (Hrt : RuntimeOk rt).

Lemma items_perm m : iter_items rt m ≡ₚ map_to_list m.
Proof. apply Hrt. Qed.

Lemma set_perm s : iter_set rt s ≡ₚ elements s.
Proof. apply Hrt. Qed.

Lemma fold_elb_name_of l : forall acc,
  fold_left V2.elb_name_of l acc
  = list_to_set (omap (fun item => Re.group_1 ENI_ELB_RE (snd item)) l) ∪ acc.
Proof.
  induction l as [|item l IH]; intros acc; simpl.
  - symmetry. apply (left_id_L ∅ (∪)).
  - rewrite IH. unfold V2.elb_name_of, Re.group_1.
    destruct (Re.match_ ENI_ELB_RE item.2) as [[g|]|]; simpl; try reflexivity.
    rewrite (assoc_L (∪)). f_equal. apply (comm_L (∪)).
Qed.

Lemma elbnames_of_spec ips : V2.elbnames_of rt ips = Spec.elb_names ips.
Proof.
  unfold V2.elbnames_of, Spec.elb_names. rewrite fold_elb_name_of.
  rewrite (right_id_L ∅ (∪)).
  apply list_to_set_perm_L, omap_Permutation, items_perm.
Qed.

Lemma elb_loop_ok w names : forall acc,
  forallb (Spec.elb_query_ok w) names = true ->
  for_each (V2.elb_count w) names acc
  = ((fst acc + Spec.sumZ (map (Spec.elb_enis w) names),
      snd acc + ELB_MAX_IPS * len names), None).
Proof.
  induction names as [|n names IH]; intros [c m] Hok; simpl in *.
  - f_equal. f_equal; unfold len; simpl; lia.
  - apply andb_true_iff in Hok as [Hn Hok].
    unfold Spec.elb_query_ok in Hn. unfold V2.elb_count at 1, Spec.elb_enis at 1.
    destruct (enis_by_description w ("ELB " ++ n)) as [l|e]; [|discriminate].
    rewrite IH by exact Hok. simpl. f_equal. f_equal; unfold len; simpl length; lia.
Qed.

Lemma elb_loop_fail w names : forall acc,
  forallb (Spec.elb_query_ok w) names = false ->
  exists s e, for_each (V2.elb_count w) names acc = (s, Some e).
Proof.
  induction names as [|n names IH]; intros acc Hok; simpl in *; [discriminate|].
  unfold Spec.elb_query_ok in Hok at 1. unfold V2.elb_count at 1.
  destruct (enis_by_description w ("ELB " ++ n)) as [l|e]; simpl in Hok.
  - apply IH. exact Hok.
  - eauto.
Qed.

Lemma forallb_perm {A} (f : A -> bool) l1 l2 :
  l1 ≡ₚ l2 -> forallb f l1 = forallb f l2.
Proof.
  intros H. induction H; simpl; try congruence.
  destruct (f x), (f y); reflexivity.
Qed.

(** [_handle_elbs], when every query succeeds, and when one does not. *)
Lemma handle_elbs_ok w ips :
  forallb (Spec.elb_query_ok w) (elements (Spec.elb_names ips)) = true ->
  V2._handle_elbs rt w ips
  = Ok (Z.of_nat (size (Spec.elb_names ips)),
        Spec.sumZ (map (Spec.elb_enis w) (elements (Spec.elb_names ips))),
        ELB_MAX_IPS * Z.of_nat (size (Spec.elb_names ips))).
Proof.
  intros Hok. unfold V2._handle_elbs. rewrite elbnames_of_spec.
  rewrite elb_loop_ok.
  - simpl. f_equal. f_equal; [f_equal|].
    + apply sumZ_perm, fmap_Permutation, set_perm.
    + unfold len. rewrite (Permutation_length (set_perm _)). reflexivity.
  - rewrite (forallb_perm _ _ _ (set_perm _)). exact Hok.
Qed.

Lemma handle_elbs_fail w ips :
  forallb (Spec.elb_query_ok w) (elements (Spec.elb_names ips)) = false ->
  exists e, V2._handle_elbs rt w ips = Raise e.
Proof.
  intros Hok. unfold V2._handle_elbs. rewrite elbnames_of_spec.
  destruct (elb_loop_fail w (iter_set rt (Spec.elb_names ips)) (0, 0)) as (s & e & ->).
  - rewrite (forallb_perm _ _ _ (set_perm _)). exact Hok.
  - exists e. reflexivity.
Qed.

Lemma nlb_ips_spec ips name : V2.nlb_ips rt ips name = Spec.nlb_descriptors ips name.
Proof.
  unfold V2.nlb_ips, Spec.nlb_descriptors, len.
  rewrite (items_perm ips). reflexivity.
Qed.

Lemma nlb_count_spec ips subnet_id st lb :
  V2.nlb_count rt ips subnet_id st lb
  = Ok (if Spec.nlb_in_subnet subnet_id lb
        then {| V2.nlb_curr_ips := V2.nlb_curr_ips st + Spec.nlb_current ips lb;
                V2.nlb_max_ips := V2.nlb_max_ips st + ELB_MAX_IPS;
                V2.nlb_arns := {[LoadBalancerArn lb]} ∪ V2.nlb_arns st |}
        else st).
Proof.
  unfold V2.nlb_count, Spec.nlb_in_subnet, Spec.nlb_current.
  rewrite nlb_ips_spec.
  destruct (String.eqb (Type_ lb) "network"); simpl; [|reflexivity].
  destruct (existsb _ _); reflexivity.
Qed.

Lemma holders_perm m : map snd (iter_items rt m) ≡ₚ Spec.holders m.
Proof. unfold Spec.holders. apply Permutation_map, items_perm. Qed.

Lemma fold_count {A} (p : A -> bool) l : forall c,
  fold_left (fun c x => if p x then c + 1 else c) l c = c + len (List.filter p l).
Proof.
  induction l as [|x l IH]; intros c; simpl.
  - unfold len. simpl. lia.
  - rewrite IH. destruct (p x); unfold len; simpl length; lia.
Qed.

Lemma asg_count_spec subnet_id ec2 acc asg :
  V2.asg_count rt subnet_id ec2 acc asg
  = Ok (if Spec.asg_in_subnet subnet_id asg
        then (acc.1.1 + 1, acc.1.2 + Spec.asg_current ec2 asg, acc.2 + Spec.asg_maximum asg)
        else acc).
Proof.
  destruct acc as [[count curr] mx]. unfold V2.asg_count, Spec.asg_in_subnet.
  destruct (Str.mem subnet_id _); simpl; [|reflexivity].
  rewrite fold_count. unfold Spec.asg_current, Spec.asg_maximum.
  do 3 f_equal. f_equal. f_equal. apply List.filter_ext. intros inst.
  apply mem_perm, holders_perm.
Qed.

End Order.

Section Figures.
Context (rt : Runtime) (Hrt : RuntimeOk rt).

Lemma nlb_fold ips subnet_id lbs : forall st,
  fold_left (fun st lb =>
               if Spec.nlb_in_subnet subnet_id lb
               then {| V2.nlb_curr_ips := V2.nlb_curr_ips st + Spec.nlb_current ips lb;
                       V2.nlb_max_ips := V2.nlb_max_ips st + ELB_MAX_IPS;
                       V2.nlb_arns := {[LoadBalancerArn lb]} ∪ V2.nlb_arns st |}
               else st) lbs st
  = let matched := List.filter (Spec.nlb_in_subnet subnet_id) lbs in
    {| V2.nlb_curr_ips := V2.nlb_curr_ips st + Spec.sumZ (map (Spec.nlb_current ips) matched);
       V2.nlb_max_ips := V2.nlb_max_ips st + ELB_MAX_IPS * len matched;
       V2.nlb_arns := list_to_set (map LoadBalancerArn matched) ∪ V2.nlb_arns st |}.
Proof.
  induction lbs as [|lb lbs IH]; intros [c m a]; simpl.
  - f_equal; [lia|unfold len; simpl; lia|symmetry; apply (left_id_L ∅ (∪))].
  - rewrite IH. destruct (Spec.nlb_in_subnet subnet_id lb); simpl; [|reflexivity].
    f_equal; [lia|unfold len; simpl length; lia|].
    rewrite (assoc_L (∪)). f_equal. apply (comm_L (∪)).
Qed.

Lemma handle_nlbs_spec w ips subnet_id :
  V2._handle_nlbs rt w ips subnet_id
  = let matched := List.filter (Spec.nlb_in_subnet subnet_id)
                     (concat (pages (describe_load_balancers w))) in
    let figures :=
      (Z.of_nat (size (list_to_set (map LoadBalancerArn matched) : gset string)),
       Spec.sumZ (map (Spec.nlb_current ips) matched),
       ELB_MAX_IPS * len matched) in
    match error (describe_load_balancers w) with
    | None => ([], Ok figures)
    | Some ClientError => ([LogWarning "Error querying NLBs"], Ok figures)
    | Some e => ([], Raise e)
    end.
Proof.
  unfold V2._handle_nlbs, for_pages.
  rewrite (for_each_ext _ _ _ (nlb_count_spec rt Hrt ips subnet_id)).
  rewrite for_each_total, nlb_fold. cbn zeta.
  simpl V2.nlb_curr_ips. simpl V2.nlb_max_ips. simpl V2.nlb_arns.
  rewrite (right_id_L ∅ (∪)), !Z.add_0_l.
  destruct (error (describe_load_balancers w)) as [[]|]; reflexivity.
Qed.

Lemma asg_fold subnet_id ec2 asgs : forall acc : Z * Z * Z,
  fold_left (fun acc asg =>
               if Spec.asg_in_subnet subnet_id asg
               then (acc.1.1 + 1, acc.1.2 + Spec.asg_current ec2 asg,
                     acc.2 + Spec.asg_maximum asg)
               else acc) asgs acc
  = let groups := List.filter (Spec.asg_in_subnet subnet_id) asgs in
    (acc.1.1 + len groups,
     acc.1.2 + Spec.sumZ (map (Spec.asg_current ec2) groups),
     acc.2 + Spec.sumZ (map Spec.asg_maximum groups)).
Proof.
  induction asgs as [|asg asgs IH]; intros [[n c] m]; simpl.
  - unfold len. simpl. f_equal; [f_equal|]; lia.
  - rewrite IH. destruct (Spec.asg_in_subnet subnet_id asg); simpl; [|reflexivity].
    unfold len. simpl length. f_equal; [f_equal|]; lia.
Qed.

Lemma handle_asgs_spec w subnet_id ec2 :
  V2._handle_asgs rt w subnet_id ec2
  = let groups := List.filter (Spec.asg_in_subnet subnet_id)
                    (concat (pages (describe_auto_scaling_groups w))) in
    match error (describe_auto_scaling_groups w) with
    | None => Ok (len groups,
                  Spec.sumZ (map (Spec.asg_current ec2) groups),
                  Spec.sumZ (map Spec.asg_maximum groups))
    | Some e => Raise e
    end.
Proof.
  unfold V2._handle_asgs, for_pages.
  rewrite (for_each_ext _ _ _ (asg_count_spec rt Hrt subnet_id ec2)).
  rewrite for_each_total, asg_fold. cbn zeta. simpl.
  destruct (error (describe_auto_scaling_groups w)); reflexivity.
Qed.

Lemma eks_instance_ids_perm ec2 :
  V2.eks_instance_ids rt ec2 ≡ₚ V2.eks_instance_ids canonical ec2.
Proof.
  unfold V2.eks_instance_ids. simpl.
  apply fmap_Permutation, filter_Permutation.
  rewrite (set_perm rt Hrt).
  rewrite (list_to_set_perm_L _ _ (holders_perm rt Hrt ec2)). reflexivity.
Qed.

Lemma handle_eks_canonical w ec2 :
  V2._handle_eks rt w ec2 = V2._handle_eks canonical w ec2.
Proof.
  unfold V2._handle_eks.
  pose proof (eks_instance_ids_perm ec2) as Hp.
  rewrite (list_to_set_perm_L _ _ Hp).
  destruct (V2.eks_instance_ids rt ec2) as [|x l].
  - apply Permutation_nil in Hp. rewrite Hp. reflexivity.
  - destruct (V2.eks_instance_ids canonical ec2) as [|y l'].
    + symmetry in Hp. apply Permutation_nil in Hp. discriminate.
    + reflexivity.
Qed.

End Figures.

Lemma canonical_ok : RuntimeOk canonical.
Proof. split; reflexivity. Defined.

Ltac run := cbn [mbind mret M_bind M_ret bind ret lift print fst snd app].
Ltac run_in H := cbn [mbind mret M_bind M_ret bind ret lift print fst snd app] in H.

(** C9. Two runs over the same collector outputs give the same report,
    whatever the order in which each run iterates over its sets and dicts:
    the lines written are the same, one run completes exactly when the other
    does, and runs that complete are equal. *)
Theorem C9_report_is_deterministic (rt1 rt2 : Runtime) (w : AWS) :
  RuntimeOk rt1 -> RuntimeOk rt2 ->
  fst (V2.show_subnet_usage rt1 w) = fst (V2.show_subnet_usage rt2 w) /\
  is_ok (snd (V2.show_subnet_usage rt1 w)) = is_ok (snd (V2.show_subnet_usage rt2 w)) /\
  (is_ok (snd (V2.show_subnet_usage rt1 w)) = true ->
   V2.show_subnet_usage rt1 w = V2.show_subnet_usage rt2 w).
Proof.
  intros H1 H2. unfold V2.show_subnet_usage.
  destruct (_ips_for_subnet _) as [ips|]; run; [|repeat split; reflexivity].
  destruct (V2._find_used_eni w) as [eni_ips|e]; run; [|repeat split; reflexivity].
  destruct (V2._find_used_ec2_instances w ips) as [ec2_ips|e]; run;
    [|repeat split; reflexivity].
  rewrite (handle_nlbs_spec rt1 H1), (handle_nlbs_spec rt2 H2).
  rewrite (handle_asgs_spec rt1 H1), (handle_asgs_spec rt2 H2).
  rewrite (handle_eks_canonical rt1 H1), (handle_eks_canonical rt2 H2).
  destruct (forallb (Spec.elb_query_ok w)
              (elements (Spec.elb_names (V2.used_ips_of eni_ips ec2_ips)))) eqn:E.
  - rewrite (handle_elbs_ok rt1 H1), (handle_elbs_ok rt2 H2) by exact E.
    repeat split; reflexivity.
  - destruct (handle_elbs_fail rt1 H1 _ _ E) as [e1 ->].
    destruct (handle_elbs_fail rt2 H2 _ _ E) as [e2 ->].
    run. repeat split; try reflexivity. discriminate.
Qed.

(** ** The shape of a run that completes *)

Lemma except_ClientError_out {S} msg (r : S * option exn) l :
  In l (fst (except_ClientError msg r)) -> l = LogWarning msg.
Proof.
  destruct r as [s [[]|]]; simpl; intros H; try contradiction.
  destruct H as [H|[]]. symmetry. exact H.
Qed.

Lemma handle_nlbs_out rt w ips subnet_id l :
  In l (fst (V2._handle_nlbs rt w ips subnet_id)) -> exists msg, l = LogWarning msg.
Proof.
  unfold V2._handle_nlbs. 
  destruct (except_ClientError _ _) as [o [st|e]] eqn:E; run.
  - rewrite app_nil_r. intros H. exists "Error querying NLBs".
    apply (except_ClientError_out _ (for_pages (describe_load_balancers w)
             (V2.nlb_count rt ips subnet_id)
             {| V2.nlb_curr_ips := 0; V2.nlb_max_ips := 0; V2.nlb_arns := ∅ |})).
    rewrite E. exact H.
  - intros H. exists "Error querying NLBs".
    apply (except_ClientError_out _ (for_pages (describe_load_balancers w)
             (V2.nlb_count rt ips subnet_id)
             {| V2.nlb_curr_ips := 0; V2.nlb_max_ips := 0; V2.nlb_arns := ∅ |})).
    rewrite E. exact H.
Qed.

Lemma handle_eks_out rt w ec2 l :
  In l (fst (V2._handle_eks rt w ec2)) -> exists msg, l = LogWarning msg.
Proof.
  unfold V2._handle_eks. destruct (V2.eks_instance_ids rt ec2); simpl; [contradiction|].
  intros H. eexists. eapply except_ClientError_out. exact H.
Qed.

Lemma logs_no_maximum out :
  (forall l, In l out -> exists msg, l = LogWarning msg) ->
  Spec.sumZ (map Spec.group_maximum out) = 0.
Proof.
  induction out as [|l out IH]; intros H; simpl; [reflexivity|].
  destruct (H l (or_introl eq_refl)) as [msg ->]. simpl.
  apply IH. intros l' Hl'. apply H. right. exact Hl'.
Qed.

Lemma logs_no_drift out :
  (forall l, In l out -> exists msg, l = LogWarning msg) -> ~ In DriftWarning out.
Proof. intros H Hin. destruct (H _ Hin) as [msg Hmsg]. discriminate. Qed.

(** The shape of a run that completes. *)
Lemma show_subnet_usage_completes rt w out :
  V2.show_subnet_usage rt w = (out, Ok tt) ->
  exists ips eni_ips ec2_ips elb nlb_out nlb asg eks_out eks,
    let sn := subnet w in
    let used_ips := V2.used_ips_of eni_ips ec2_ips in
    let used := Z.of_nat (size used_ips) in
    _ips_for_subnet (CidrBlock sn) = Some ips /\
    V2._find_used_eni w = Ok eni_ips /\
    V2._find_used_ec2_instances w ips = Ok ec2_ips /\
    V2._handle_elbs rt w used_ips = Ok elb /\
    V2._handle_nlbs rt w used_ips (SubnetId sn) = (nlb_out, Ok nlb) /\
    V2._handle_asgs rt w (SubnetId sn) ec2_ips = Ok asg /\
    V2._handle_eks rt w ec2_ips = (eks_out, Ok eks) /\
    out = ([FoundSubnet (SubnetId sn) (CidrBlock sn) (AvailableIpAddressCount sn);
            UsedOutOfTotal used (len ips);
            FoundELBs elb.1.1 elb.1.2 elb.2]
           ++ nlb_out
           ++ [FoundNLBs nlb.1.1 nlb.1.2 nlb.2; FoundASGs asg.1.1 asg.1.2 asg.2]
           ++ eks_out
           ++ [FoundEKS eks.1]
           ++ (if bool_decide (used ≠ len ips - AvailableIpAddressCount sn)
               then [DriftWarning] else [])
           ++ [Summary (len ips) used (used + elb.2 + nlb.2 + asg.2)])%list.
Proof.
  unfold V2.show_subnet_usage. intros H.
  destruct (_ips_for_subnet _) as [ips|] eqn:E1; run_in H; [|discriminate].
  destruct (V2._find_used_eni w) as [eni_ips|e] eqn:E2; run_in H; [|discriminate].
  destruct (V2._find_used_ec2_instances w ips) as [ec2_ips|e] eqn:E3; run_in H;
    [|discriminate].
  destruct (V2._handle_elbs _ _ _) as [[[a b] c]|e] eqn:E4; run_in H; [|discriminate].
  destruct (V2._handle_nlbs _ _ _ _) as [o1 [[[d e] f]|e]] eqn:E5; run_in H;
    [|discriminate].
  destruct (V2._handle_asgs _ _ _ _) as [[[g h] i]|e'] eqn:E6; run_in H; [|discriminate].
  destruct (V2._handle_eks _ _ _) as [o2 [[j k]|e']] eqn:E7; run_in H; [|discriminate].
  exists ips, eni_ips, ec2_ips, (a, b, c), o1, (d, e, f), (g, h, i), o2, (j, k).
  cbn zeta. repeat (split; [first [assumption|reflexivity]|]).
  destruct (bool_decide _); run_in H; injection H as <-; simpl;
    rewrite <- ?app_assoc; reflexivity.
Qed.

(** ** A run whose calls succeed completes *)

Lemma ec2_loop_ok ips insts : forall res,
  Forall (fun inst => is_Some (PrivateIpAddress inst)) insts ->
  exists res', for_each (V2.ec2_record ips) insts res = (res', None).
Proof.
  induction insts as [|inst insts IH]; intros res Hall; simpl; [eauto|].
  inversion Hall as [|? ? [priv Hpriv] Hrest]; subst.
  unfold V2.ec2_record at 1. rewrite Hpriv.
  destruct (Str.mem priv ips); [apply IH; exact Hrest|].
  destruct (PublicIpAddress inst) as [pub|]; [|apply IH; exact Hrest].
  destruct (Str.mem pub ips); apply IH; exact Hrest.
Qed.

Lemma find_used_ec2_instances_ok w ips :
  Spec.collectors_ok w -> exists ec2_ips, V2._find_used_ec2_instances w ips = Ok ec2_ips.
Proof.
  intros Hok. unfold V2._find_used_ec2_instances, V2.for_instances, for_pages.
  cbn [pages error].
  rewrite (Spec.instances_1_ok w Hok), (Spec.instances_2_ok w Hok).
  destruct (ec2_loop_ok ips (concat (map (@concat Instance) (pages (instances_by_ni_subnet w)))) ∅)
    as [res1 ->].
  { apply Hok. }
  cbn [propagate].
  destruct (ec2_loop_ok ips (concat (map (@concat Instance) (pages (instances_by_subnet w)))) res1)
    as [res2 ->].
  { apply Hok. }
  eauto.
Qed.

Lemma eks_loop_ok insts : forall st,
  for_each V2.eks_record insts st
  = (fold_left (fun st inst =>
                  match V2.eks_record st inst with Ok st' => st' | Raise _ => st end)
               insts st, None).
Proof.
  induction insts as [|inst insts IH]; intros st; simpl; [reflexivity|].
  assert (exists st', V2.eks_record st inst = Ok st') as [st' Hst'].
  { unfold V2.eks_record. destruct (V2.cluster_name_of _) as [name|]; [|eauto].
    destruct (String.eqb name EmptyString); eauto. }
  rewrite Hst'. apply IH.
Qed.

Lemma handle_eks_ok rt w ec2_ips :
  Spec.collectors_ok w -> exists out eks, V2._handle_eks rt w ec2_ips = (out, Ok eks).
Proof.
  intros Hok. unfold V2._handle_eks.
  destruct (V2.eks_instance_ids rt ec2_ips) as [|iid ids]; [eexists _, _; reflexivity|].
  unfold V2.for_instances, for_pages. cbn [pages error].
  rewrite eks_loop_ok.
  destruct (Spec.eks_ok w Hok (list_to_set (iid :: ids))) as [-> | ->];
    eexists _, _; reflexivity.
Qed.

Lemma show_subnet_usage_total (rt : Runtime) (w : AWS) :
  RuntimeOk rt -> Spec.collectors_ok w ->
  exists out, V2.show_subnet_usage rt w = (out, Ok tt).
Proof.
  intros Hrt Hok. unfold V2.show_subnet_usage.
  destruct (Spec.cidr_ok w Hok) as [ips ->]. run.
  unfold V2._find_used_eni.
  destruct (enis_in_subnet w) as [enis|e] eqn:Henis;
    [|pose proof (Spec.enis_ok w Hok) as H; rewrite Henis in H; discriminate H].
  run.
  destruct (find_used_ec2_instances_ok w ips Hok) as [ec2_ips ->]. run.
  rewrite (handle_elbs_ok rt Hrt).
  2:{ apply forallb_forall. intros name _. apply (Spec.elb_queries_ok w Hok). }
  run.
  rewrite (handle_nlbs_spec rt Hrt), (handle_asgs_spec rt Hrt). cbn zeta.
  rewrite (Spec.asgs_ok w Hok).
  destruct (handle_eks_ok rt w ec2_ips Hok) as (o2 & [j k] & ->).
  destruct (Spec.lbs_ok w Hok) as [-> | ->]; run;
    destruct (bool_decide _); run; eexists; reflexivity.
Qed.

(** The report of a run whose calls succeed, figure by figure. *)
Lemma show_subnet_usage_figures (rt : Runtime) (w : AWS) :
  RuntimeOk rt -> Spec.collectors_ok w ->
  exists out ips eni_ips ec2_ips,
    V2.show_subnet_usage rt w = (out, Ok tt) /\
    _ips_for_subnet (CidrBlock (subnet w)) = Some ips /\
    V2._find_used_eni w = Ok eni_ips /\
    V2._find_used_ec2_instances w ips = Ok ec2_ips /\
    let used_ips := V2.used_ips_of eni_ips ec2_ips in
    let used := Z.of_nat (size used_ips) in
    let elbs := Z.of_nat (size (Spec.elb_names used_ips)) in
    let nlbs := List.filter (Spec.nlb_in_subnet (SubnetId (subnet w)))
                  (concat (pages (describe_load_balancers w))) in
    let asgs := List.filter (Spec.asg_in_subnet (SubnetId (subnet w)))
                  (concat (pages (describe_auto_scaling_groups w))) in
    List.last out DriftWarning
    = Summary (len ips) used
        (used + ELB_MAX_IPS * elbs + ELB_MAX_IPS * len nlbs
         + Spec.sumZ (map Spec.asg_maximum asgs)).
Proof.
  intros Hrt Hok.
  destruct (show_subnet_usage_total rt w Hrt Hok) as [out H].
  destruct (show_subnet_usage_completes _ _ _ H)
    as (ips & eni_ips & ec2_ips & elb & o1 & nlb & asg & o2 & eks
        & E1 & E2 & E3 & E4 & E5 & E6 & E7 & Hout).
  exists out, ips, eni_ips, ec2_ips. repeat (split; [assumption|]).
  cbn zeta in *.
  rewrite (handle_elbs_ok rt Hrt) in E4.
  2:{ apply forallb_forall. intros name _. apply (Spec.elb_queries_ok w Hok). }
  injection E4 as <-.
  rewrite (handle_asgs_spec rt Hrt) in E6. cbn zeta in E6.
  rewrite (Spec.asgs_ok w Hok) in E6. injection E6 as <-.
  rewrite (handle_nlbs_spec rt Hrt) in E5. cbn zeta in E5.
  assert (nlb.2 = ELB_MAX_IPS * len (List.filter (Spec.nlb_in_subnet (SubnetId (subnet w)))
                                        (concat (pages (describe_load_balancers w))))) as Hnlb.
  { destruct (Spec.lbs_ok w Hok) as [Hc | Hc]; rewrite Hc in E5;
      injection E5 as _ <-; reflexivity. }
  rewrite Hout, !app_assoc, last_last. cbn [fst snd]. rewrite Hnlb. reflexivity.
Qed.

(** C3. The last line of a report states, as the theoretical maximum, the
    number of used addresses plus the maxima that the lines of the report
    state for the groups: Classic/ALB, NLB and ASG.  The line for the EKS
    instances states no maximum.  A run whose calls succeed has a report,
    and in it the maxima are [ELB_MAX_IPS] for every Classic/ALB and every
    network load balancer, and for every autoscaling group of the subnet
    the room left under its maximal size. *)
Theorem C3_theoretical_maximum_total (rt : Runtime) (w : AWS) :
  (forall out,
     V2.show_subnet_usage rt w = (out, Ok tt) ->
     exists ips eni_ips ec2_ips,
       _ips_for_subnet (CidrBlock (subnet w)) = Some ips /\
       V2._find_used_eni w = Ok eni_ips /\
       V2._find_used_ec2_instances w ips = Ok ec2_ips /\
       let used := Z.of_nat (size (V2.used_ips_of eni_ips ec2_ips)) in
       List.last out DriftWarning
       = Summary (len ips) used (used + Spec.sumZ (map Spec.group_maximum out))) /\
  (RuntimeOk rt -> Spec.collectors_ok w ->
   exists out ips eni_ips ec2_ips,
     V2.show_subnet_usage rt w = (out, Ok tt) /\
     _ips_for_subnet (CidrBlock (subnet w)) = Some ips /\
     V2._find_used_eni w = Ok eni_ips /\
     V2._find_used_ec2_instances w ips = Ok ec2_ips /\
     let used_ips := V2.used_ips_of eni_ips ec2_ips in
     let used := Z.of_nat (size used_ips) in
     let elbs := Z.of_nat (size (Spec.elb_names used_ips)) in
     let nlbs := List.filter (Spec.nlb_in_subnet (SubnetId (subnet w)))
                   (concat (pages (describe_load_balancers w))) in
     let asgs := List.filter (Spec.asg_in_subnet (SubnetId (subnet w)))
                   (concat (pages (describe_auto_scaling_groups w))) in
     List.last out DriftWarning
     = Summary (len ips) used
         (used + ELB_MAX_IPS * elbs + ELB_MAX_IPS * len nlbs
          + Spec.sumZ (map Spec.asg_maximum asgs))).
Proof.
  split; [|apply show_subnet_usage_figures].
  intros out H.
  destruct (show_subnet_usage_completes _ _ _ H)
    as (ips & eni_ips & ec2_ips & elb & o1 & nlb & asg & o2 & eks
        & E1 & E2 & E3 & E4 & E5 & E6 & E7 & ->).
  exists ips, eni_ips, ec2_ips. repeat (split; [assumption|]). cbn zeta.
  rewrite !app_assoc, last_last.
  rewrite !map_app, !sumZ_app.
  rewrite (logs_no_maximum o1), (logs_no_maximum o2).
  - destruct (bool_decide _); simpl; f_equal; lia.
  - intros l Hl. apply (handle_eks_out rt w ec2_ips). rewrite E7. exact Hl.
  - intros l Hl. apply (handle_nlbs_out rt w (V2.used_ips_of eni_ips ec2_ips)
                          (SubnetId (subnet w))). rewrite E5. exact Hl.
Qed.

Lemma C3_theoretical_maximum_total_witness :
  exists out,
    V2.show_subnet_usage canonical Fixtures.one_nlb_eni = (out, Ok tt) /\
    List.last out DriftWarning = Summary 251 1 (1 + 8 + 8 + 0).
Proof.
  eexists. split; [vm_compute; reflexivity|].
  destruct (proj1 (C3_theoretical_maximum_total canonical Fixtures.one_nlb_eni) _
              ltac:(vm_compute; reflexivity))
    as (ips & eni_ips & ec2_ips & E1 & E2 & E3 & E).
  rewrite E. vm_compute in E1. injection E1 as <-.
  vm_compute in E2. injection E2 as <-.
  vm_compute in E3. injection E3 as <-.
  vm_compute. reflexivity.
Defined.

(** Whether a run completes does not depend on the number of addresses that
    the subnet reports as available. *)
Lemma available_does_not_end_the_run (rt : Runtime) (w : AWS) (available : Z) :
  snd (V2.show_subnet_usage rt (Fixtures.with_available w available))
  = snd (V2.show_subnet_usage rt w).
Proof.
  unfold V2.show_subnet_usage.
  cbn [subnet Fixtures.with_available SubnetId CidrBlock AvailableIpAddressCount].
  change (V2._find_used_eni (Fixtures.with_available w available))
    with (V2._find_used_eni w).
  destruct (_ips_for_subnet _) as [ips|]; run; [|reflexivity].
  destruct (V2._find_used_eni w) as [eni_ips|e]; run; [|reflexivity].
  change (V2._find_used_ec2_instances (Fixtures.with_available w available) ips)
    with (V2._find_used_ec2_instances w ips).
  destruct (V2._find_used_ec2_instances w ips) as [ec2_ips|e]; run; [|reflexivity].
  change (V2._handle_elbs rt (Fixtures.with_available w available))
    with (V2._handle_elbs rt w).
  destruct (V2._handle_elbs _ _ _) as [[[a b] c]|e]; run; [|reflexivity].
  change (V2._handle_nlbs rt (Fixtures.with_available w available))
    with (V2._handle_nlbs rt w).
  destruct (V2._handle_nlbs _ _ _ _) as [o1 [[[d e] f]|e]]; run; [|reflexivity].
  change (V2._handle_asgs rt (Fixtures.with_available w available))
    with (V2._handle_asgs rt w).
  destruct (V2._handle_asgs _ _ _ _) as [[[g h] i]|e']; run; [|reflexivity].
  change (V2._handle_eks rt (Fixtures.with_available w available))
    with (V2._handle_eks rt w).
  destruct (V2._handle_eks _ _ _) as [o2 [[j k]|e']]; run; [|reflexivity].
  do 2 destruct (bool_decide _); reflexivity.
Qed.

Lemma no_figures_in_drift (b : bool) :
  List.filter Spec.states_figures (if b then [DriftWarning] else []) = [].
Proof. destruct b; reflexivity. Qed.

(** The lines that state figures are the same, whatever the subnet reports
    as available. *)
Lemma available_does_not_change_figures (rt : Runtime) (w : AWS) (available : Z)
    (out out' : list line) :
  V2.show_subnet_usage rt w = (out, Ok tt) ->
  V2.show_subnet_usage rt (Fixtures.with_available w available) = (out', Ok tt) ->
  List.filter Spec.states_figures out' = List.filter Spec.states_figures out.
Proof.
  intros H H'.
  destruct (show_subnet_usage_completes _ _ _ H)
    as (ips & eni_ips & ec2_ips & elb & o1 & nlb & asg & o2 & eks
        & E1 & E2 & E3 & E4 & E5 & E6 & E7 & ->).
  destruct (show_subnet_usage_completes _ _ _ H')
    as (ips' & eni_ips' & ec2_ips' & elb' & o1' & nlb' & asg' & o2' & eks'
        & E1' & E2' & E3' & E4' & E5' & E6' & E7' & ->).
  cbn zeta in *.
  change (_ips_for_subnet (CidrBlock (subnet w)) = Some ips') in E1'.
  rewrite E1 in E1'. injection E1' as <-.
  change (V2._find_used_eni w = Ok eni_ips') in E2'.
  rewrite E2 in E2'. injection E2' as <-.
  change (V2._find_used_ec2_instances w ips = Ok ec2_ips') in E3'.
  rewrite E3 in E3'. injection E3' as <-.
  change (V2._handle_elbs rt w (V2.used_ips_of eni_ips ec2_ips) = Ok elb') in E4'.
  rewrite E4 in E4'. injection E4' as <-.
  change (V2._handle_nlbs rt w (V2.used_ips_of eni_ips ec2_ips) (SubnetId (subnet w))
          = (o1', Ok nlb')) in E5'.
  rewrite E5 in E5'. injection E5' as <- <-.
  change (V2._handle_asgs rt w (SubnetId (subnet w)) ec2_ips = Ok asg') in E6'.
  rewrite E6 in E6'. injection E6' as <-.
  change (V2._handle_eks rt w ec2_ips = (o2', Ok eks')) in E7'.
  rewrite E7 in E7'. injection E7' as <- <-.
  rewrite !List.filter_app, !no_figures_in_drift. reflexivity.
Qed.

(** C5. A difference between the used count and what the subnet reports is
    a warning line of the report.  A run whose calls succeed completes,
    whatever the subnet reports as available; its report ends with the
    summary line, it has the warning line exactly when the used count
    differs from the usable count less the available count, and its other
    lines do not depend on the available count. *)
Theorem C5_drift_is_a_warning (rt : Runtime) (w : AWS) :
  RuntimeOk rt -> Spec.collectors_ok w ->
  exists out usable used total,
    V2.show_subnet_usage rt w = (out, Ok tt) /\
    In (UsedOutOfTotal used usable) out /\
    List.last out DriftWarning = Summary usable used total /\
    (In DriftWarning out <-> used <> usable - AvailableIpAddressCount (subnet w)) /\
    (forall available,
       exists out',
         V2.show_subnet_usage rt (Fixtures.with_available w available) = (out', Ok tt) /\
         List.filter Spec.states_figures out' = List.filter Spec.states_figures out).
Proof.
  intros Hrt Hok.
  destruct (show_subnet_usage_total rt w Hrt Hok) as [out H].
  exists out.
  destruct (show_subnet_usage_completes _ _ _ H)
    as (ips & eni_ips & ec2_ips & elb & o1 & nlb & asg & o2 & eks
        & E1 & E2 & E3 & E4 & E5 & E6 & E7 & Hout).
  cbn zeta in Hout. do 3 eexists. split; [exact H|].
  split; [|split; [|split]].
  - rewrite Hout. right. left. reflexivity.
  - rewrite Hout, !app_assoc, last_last. reflexivity.
  - assert (~ In DriftWarning o1) as Ho1.
    { apply logs_no_drift. intros l Hl.
      apply (handle_nlbs_out rt w (V2.used_ips_of eni_ips ec2_ips)
               (SubnetId (subnet w))). rewrite E5. exact Hl. }
    assert (~ In DriftWarning o2) as Ho2.
    { apply logs_no_drift. intros l Hl.
      apply (handle_eks_out rt w ec2_ips). rewrite E7. exact Hl. }
    rewrite Hout, !in_app_iff. case_bool_decide as Hd; simpl; split.
    + intros _. exact Hd.
    + intros _. do 5 right. left. left. reflexivity.
    + intros Hin. exfalso.
      repeat match goal with
             | H : _ \/ _ |- _ => destruct H
             | H : _ = DriftWarning |- _ => discriminate H
             end; tauto.
    + intros Hne. contradiction.
  - intros available.
    pose proof (available_does_not_end_the_run rt w available) as Hsnd.
    destruct (V2.show_subnet_usage rt (Fixtures.with_available w available))
      as [out' r'] eqn:H'.
    rewrite H in Hsnd. simpl in Hsnd. subst r'.
    exists out'. split; [reflexivity|].
    exact (available_does_not_change_figures rt w available out out' H H').
Qed.

Lemma eight_holders_ok : Spec.collectors_ok Fixtures.eight_holders.
Proof.
  split; try reflexivity; try (intros; left; reflexivity).
  eexists. vm_compute. reflexivity.
Defined.

Lemma C5_drift_is_a_warning_witness :
  exists out,
    V2.show_subnet_usage canonical Fixtures.eight_holders = (out, Ok tt) /\
    In DriftWarning out /\ List.last out DriftWarning = Summary 251 8 8.
Proof.
  destruct (C5_drift_is_a_warning canonical Fixtures.eight_holders
              canonical_ok eight_holders_ok)
    as (out & usable & used & total & Hrun & Hused & Hlast & Hdrift & _).
  exists out. vm_compute in Hrun. injection Hrun as <-.
  vm_compute in Hlast. injection Hlast as <- <- <-.
  split; [vm_compute; reflexivity|].
  split; [|vm_compute; reflexivity].
  apply Hdrift. vm_compute. discriminate.
Defined.

(** ** The autoscaling groups, and the merge of the holder records *)

Lemma holder_iff (m : gmap string string) (id : string) :
  Str.mem id (Spec.holders m) = true <-> exists ip, m !! ip = Some id.
Proof.
  rewrite mem_In. unfold Spec.holders. rewrite in_map_iff. split.
  - intros ([ip v] & Hv & Hin). simpl in Hv. subst v. exists ip.
    apply elem_of_map_to_list. apply list_elem_of_In. exact Hin.
  - intros (ip & Hip). exists (ip, id). split; [reflexivity|].
    apply list_elem_of_In, elem_of_map_to_list. exact Hip.
Qed.

(** C4. The figures for the autoscaling groups are sums over the groups
    whose subnet list has the subnet: of the number of members that hold an
    address of the subnet, and of the maximal size less the number of
    members.  A group whose subnet list lacks the subnet adds nothing. *)
Theorem C4_autoscaling_group_figures (rt : Runtime) (w : AWS) (subnet_id : string)
    (ec2_ips : gmap string string) :
  RuntimeOk rt ->
  error (describe_auto_scaling_groups w) = None ->
  let groups := List.filter (Spec.asg_in_subnet subnet_id)
                  (concat (pages (describe_auto_scaling_groups w))) in
  V2._handle_asgs rt w subnet_id ec2_ips
  = Ok (len groups,
        Spec.sumZ (map (Spec.asg_current ec2_ips) groups),
        Spec.sumZ (map Spec.asg_maximum groups)) /\
  (forall asg, In asg groups <->
     In asg (concat (pages (describe_auto_scaling_groups w))) /\
     In subnet_id (Str.split ","%char (VPCZoneIdentifier asg))) /\
  (forall inst, Str.mem inst (Spec.holders ec2_ips) = true <->
     exists ip, ec2_ips !! ip = Some inst).
Proof.
  intros Hrt Herr groups. split; [|split].
  - rewrite (handle_asgs_spec rt Hrt). cbn zeta. rewrite Herr. reflexivity.
  - intros asg. unfold groups. rewrite filter_In. unfold Spec.asg_in_subnet.
    rewrite mem_In. reflexivity.
  - apply holder_iff.
Qed.

Lemma C4_autoscaling_group_figures_witness :
  V2._handle_asgs canonical Fixtures.one_asg "subnet-1"
    {["10.0.1.20" := "i-1"; "10.0.1.21" := "i-2"]}
  = Ok (1, 2, 3).
Proof.
  destruct (C4_autoscaling_group_figures canonical Fixtures.one_asg "subnet-1"
              {["10.0.1.20" := "i-1"; "10.0.1.21" := "i-2"]}
              canonical_ok eq_refl) as [H _].
  rewrite H. vm_compute. reflexivity.
Defined.

(** The first variant on the same groups: the maximum is the sum of the
    maximal sizes. *)
Lemma V1_handle_asgs_adds_MaxSize (w : AWS) (subnet_id : string)
    (ec2_ips : gmap string string) :
  error (describe_auto_scaling_groups w) = None ->
  let groups := List.filter (Spec.asg_in_subnet subnet_id)
                  (concat (pages (describe_auto_scaling_groups w))) in
  V1._handle_asgs canonical w subnet_id ec2_ips
  = Ok (len groups,
        Spec.sumZ (map (Spec.asg_current ec2_ips) groups),
        Spec.sumZ (map MaxSize groups)).
Proof.
  intros Herr groups. unfold V1._handle_asgs, for_pages. rewrite Herr.
  subst groups.
  generalize (concat (pages (describe_auto_scaling_groups w))). intros asgs.
  enough (forall acc : Z * Z * Z,
            for_each (V1.asg_count canonical subnet_id ec2_ips) asgs acc
            = (let groups := List.filter (Spec.asg_in_subnet subnet_id) asgs in
               (acc.1.1 + len groups,
                acc.1.2 + Spec.sumZ (map (Spec.asg_current ec2_ips) groups),
                acc.2 + Spec.sumZ (map MaxSize groups)), None)) as H.
  { rewrite H. reflexivity. }
  induction asgs as [|asg asgs IH]; intros [[n c] m].
  - unfold len. simpl. do 2 f_equal; [f_equal|]; lia.
  - cbn [for_each List.filter]. unfold V1.asg_count at 1.
    change (Str.mem subnet_id (Str.split ","%char (VPCZoneIdentifier asg)))
      with (Spec.asg_in_subnet subnet_id asg).
    destruct (Spec.asg_in_subnet subnet_id asg); cbn [negb]; rewrite IH; [|reflexivity].
    rewrite fold_count. cbn zeta. unfold Spec.asg_current, Spec.holders.
    cbn [fst snd map Spec.sumZ foldr length iter_items canonical].
    unfold len, Spec.sumZ. cbn [length].
    do 2 f_equal; [f_equal|]; lia.
Qed.

Example V1_handle_asgs_one_asg :
  V1._handle_asgs canonical Fixtures.one_asg "subnet-1"
    {["10.0.1.20" := "i-1"; "10.0.1.21" := "i-2"]}
  = Ok (1, 2, 5).
Proof. vm_compute. reflexivity. Qed.

(** C8. The merged map of holder records has one record per address at
    most, and at an address that both the ENIs and the instances hold, it
    has the record of the instance. *)
Theorem C8_one_record_per_address (eni_ips ec2_ips : gmap string string) :
  NoDup (map fst (map_to_list (V2.used_ips_of eni_ips ec2_ips))) /\
  (forall ip,
     V2.used_ips_of eni_ips ec2_ips !! ip
     = match ec2_ips !! ip with
       | Some instance_record => Some instance_record
       | None => eni_ips !! ip
       end).
Proof.
  split.
  - apply NoDup_fst_map_to_list.
  - intros ip. unfold V2.used_ips_of. rewrite (right_id_L ∅ (∪)).
    rewrite lookup_union. destruct (ec2_ips !! ip), (eni_ips !! ip); reflexivity.
Qed.

(** ** The Classic/ALB load balancers *)

Lemma elb_names_two (A B d1 d2 : string) :
  A ≠ B ->
  Spec.elb_names (<[B := d2]> (<[A := d1]> ∅))
  = list_to_set (omap (fun item => Re.group_1 ENI_ELB_RE (snd item)) [(B, d2); (A, d1)]).
Proof.
  intros Hne. unfold Spec.elb_names.
  apply list_to_set_perm_L, omap_Permutation.
  rewrite map_to_list_insert.
  - rewrite map_to_list_insert by apply lookup_empty.
    rewrite map_to_list_empty. reflexivity.
  - rewrite lookup_insert_ne by exact Hne. apply lookup_empty.
Qed.

(** C7. With the two holder records ["eni-1 / ELB myelb"] and
    ["eni-2 / ELB myelb"] and nothing else, [_handle_elbs] finds one
    Classic/ALB load balancer, with 2 addresses in use and a maximum of 8.
    In general every load balancer it finds adds [ELB_MAX_IPS] = 8 to the
    maximum, whatever its current count. *)
Theorem C7_classic_elb_group (rt : Runtime) (Hrt : RuntimeOk rt) :
  (forall (sn : Subnet) (A B : string),
     A ≠ B ->
     let w := Fixtures.account sn
                [Fixtures.eni "eni-1" "ELB myelb" A; Fixtures.eni "eni-2" "ELB myelb" B]
                [] [] [] in
     let holders : gmap string string :=
       <[B := "eni-2 / ELB myelb"]> (<[A := "eni-1 / ELB myelb"]> ∅) in
     V2._find_used_eni w = Ok holders /\
     Spec.elb_names (V2.used_ips_of holders ∅) = {["myelb"]} /\
     V2._handle_elbs rt w (V2.used_ips_of holders ∅) = Ok (1, 2, 8)) /\
  (forall (w : AWS) (ips : gmap string string),
     forallb (Spec.elb_query_ok w) (elements (Spec.elb_names ips)) = true ->
     let n := Z.of_nat (size (Spec.elb_names ips)) in
     V2._handle_elbs rt w ips
     = Ok (n, Spec.sumZ (map (Spec.elb_enis w) (elements (Spec.elb_names ips))),
           ELB_MAX_IPS * n)).
Proof.
  split.
  - intros sn A B Hne w holders.
    assert (V2.used_ips_of holders ∅ = holders) as ->.
    { unfold V2.used_ips_of. rewrite (right_id_L ∅ (∪)), (left_id_L ∅ (∪)). reflexivity. }
    assert (Spec.elb_names holders = {["myelb"]}) as Hnames.
    { unfold holders. rewrite elb_names_two by exact Hne.
      change (omap _ _) with ["myelb"; "myelb"]. simpl.
      rewrite (right_id_L ∅ (∪)). apply (idemp_L (∪)). }
    split; [reflexivity|]. split; [exact Hnames|].
    rewrite (handle_elbs_ok rt Hrt).
    + rewrite Hnames, elements_singleton, size_singleton. reflexivity.
    + rewrite Hnames, elements_singleton. reflexivity.
  - intros w ips Hok n. apply (handle_elbs_ok rt Hrt). exact Hok.
Qed.

Lemma C7_classic_elb_group_witness :
  V2._handle_elbs canonical Fixtures.two_elb_enis
    (V2.used_ips_of (<["10.0.1.11" := "eni-2 / ELB myelb"]>
                       (<["10.0.1.10" := "eni-1 / ELB myelb"]> ∅)) ∅)
  = Ok (1, 2, 8) /\
  V2._handle_elbs canonical Fixtures.one_nlb_eni {["10.0.1.10" := "eni-3 / ELB net/mynlb/abcd1234"]}
  = Ok (1, 1, 8).
Proof.
  split.
  - apply (proj1 (C7_classic_elb_group canonical canonical_ok)
             (Fixtures.subnet_1 249) "10.0.1.10" "10.0.1.11").
    discriminate.
  - rewrite (proj2 (C7_classic_elb_group canonical canonical_ok) Fixtures.one_nlb_eni _);
      vm_compute; reflexivity.
Defined.

(** ** The NLB pattern and the descriptors of the ENIs *)

Lemma ENI_NLB_RE_rejects_eni (eni : NetworkInterface) :
  Str.startswith (eni_id eni) "eni-" = true ->
  Re.match_ ENI_NLB_RE (V2.eni_descriptor eni) = None.
Proof.
  unfold Str.startswith, V2.eni_descriptor.
  destruct (eni_id eni) as [|c id]; [intros [=]|].
  change (String.prefix "eni-" (String c id))
    with (if ascii_dec "e" c then String.prefix "ni-" id else false).
  destruct (ascii_dec "e" c) as [<-|]; [|intros [=]].
  intros _. reflexivity.
Qed.

Lemma eni_record_values (P : string -> Prop) eni : forall res : gmap string string,
  map_Forall (fun _ d => P d) res -> P (V2.eni_descriptor eni) ->
  map_Forall (fun _ d => P d) (V2.eni_record res eni).
Proof.
  unfold V2.eni_record. induction (eni_private_ip_addresses eni) as [|ip ips IH];
    intros res Hres Hd; simpl; [exact Hres|].
  apply IH; [|exact Hd]. apply map_Forall_insert_2; assumption.
Qed.

Lemma find_used_eni_values (P : string -> Prop) enis : forall res : gmap string string,
  map_Forall (fun _ d => P d) res ->
  Forall (fun eni => P (V2.eni_descriptor eni)) enis ->
  map_Forall (fun _ d => P d) (fold_left V2.eni_record enis res).
Proof.
  induction enis as [|eni enis IH]; intros res Hres Hall; simpl; [exact Hres|].
  inversion Hall as [|? ? Hd Hrest]; subst.
  apply IH; [|exact Hrest]. apply eni_record_values; assumption.
Qed.

Lemma omap_none {A B} (f : A -> option B) l :
  Forall (fun x => f x = None) l -> omap f l = [].
Proof.
  induction 1 as [|x l Hx _ IH]; simpl; [reflexivity|]. rewrite Hx. exact IH.
Qed.

(** C10. [ENI_NLB_RE] is anchored at ["ELB net/"], and the descriptor of an
    ENI starts with the id of the ENI: the pattern matches no holder record
    that [_find_used_eni] makes, and the current count of the NLBs is the
    sum, over the NLBs with a zone in the subnet, of the number of
    descriptors that contain the name of the NLB, or 1 where there is
    none. *)
Theorem C10_nlb_pattern_never_matches (rt : Runtime) (w : AWS)
    (enis : list NetworkInterface) :
  RuntimeOk rt ->
  enis_in_subnet w = Ok enis ->
  Forall (fun eni => Str.startswith (eni_id eni) "eni-" = true) enis ->
  exists eni_ips,
    V2._find_used_eni w = Ok eni_ips /\
    (forall ip desc, eni_ips !! ip = Some desc -> Re.match_ ENI_NLB_RE desc = None) /\
    V2.nlb_eni_names rt eni_ips = [] /\
    (forall ips subnet_id,
       let matched := List.filter (Spec.nlb_in_subnet subnet_id)
                        (concat (pages (describe_load_balancers w))) in
       snd (V2._handle_nlbs rt w ips subnet_id)
       = match error (describe_load_balancers w) with
         | Some ClientError | None =>
             Ok (Z.of_nat (size (list_to_set (map LoadBalancerArn matched) : gset string)),
                 Spec.sumZ (map (Spec.nlb_current ips) matched),
                 ELB_MAX_IPS * len matched)
         | Some e => Raise e
         end).
Proof.
  intros Hrt Henis Hids. unfold V2._find_used_eni. rewrite Henis.
  eexists. split; [reflexivity|].
  assert (map_Forall (fun _ d => Re.match_ ENI_NLB_RE d = None)
            (fold_left V2.eni_record enis ∅)) as Hnone.
  { apply find_used_eni_values; [apply map_Forall_empty|].
    eapply Forall_impl; [exact Hids|]. apply ENI_NLB_RE_rejects_eni. }
  split; [exact Hnone|]. split.
  - unfold V2.nlb_eni_names. apply omap_none.
    rewrite Forall_forall. intros [ip d] Hin. simpl.
    assert (Re.match_ ENI_NLB_RE d = None) as Hd.
    { apply (Hnone ip). apply elem_of_map_to_list.
      rewrite <- (items_perm rt Hrt). exact Hin. }
    unfold Re.group_1. rewrite Hd. reflexivity.
  - intros ips subnet_id. rewrite (handle_nlbs_spec rt Hrt). cbn zeta.
    destruct (error (describe_load_balancers w)) as [[]|]; reflexivity.
Qed.

Lemma C10_nlb_pattern_never_matches_witness :
  Re.match_ ENI_NLB_RE "eni-3 / ELB net/mynlb/abcd1234" = None /\
  snd (V2._handle_nlbs canonical Fixtures.one_nlb_eni
         {["10.0.1.10" := "eni-3 / ELB net/mynlb/abcd1234"]} "subnet-1")
  = Ok (1, 1, 8).
Proof.
  destruct (C10_nlb_pattern_never_matches canonical Fixtures.one_nlb_eni
              [Fixtures.eni "eni-3" "ELB net/mynlb/abcd1234" "10.0.1.10"]
              canonical_ok eq_refl)
    as (eni_ips & Hfound & Hnone & Hnames & Hfigures).
  - repeat constructor.
  - injection Hfound as <-. split.
    + apply (Hnone "10.0.1.10"). vm_compute. reflexivity.
    + rewrite Hfigures. vm_compute. reflexivity.
Defined.

(** C1. The holder record ["eni-3 / ELB net/mynlb/abcd1234"] of the ENI of
    the network load balancer [mynlb]: [ENI_NLB_RE] does not match it,
    [ENI_ELB_RE] takes ["net/mynlb/abcd1234"] out of it, and the report
    counts one Classic/ALB load balancer for it, next to the NLB itself. *)
Theorem C1_nlb_eni_is_counted_as_classic :
  let desc := "eni-3 / ELB net/mynlb/abcd1234" in
  Re.match_ ENI_NLB_RE desc = None /\
  Re.group_1 ENI_ELB_RE desc = Some "net/mynlb/abcd1234" /\
  V2._find_used_eni Fixtures.one_nlb_eni = Ok {["10.0.1.10" := desc]} /\
  Spec.elb_names {["10.0.1.10" := desc]} = {["net/mynlb/abcd1234"]} /\
  V2.show_subnet_usage canonical Fixtures.one_nlb_eni
  = ([FoundSubnet "subnet-1" "10.0.1.0/24" 250; UsedOutOfTotal 1 251;
      FoundELBs 1 1 8; FoundNLBs 1 1 8; FoundASGs 0 0 0; FoundEKS 0;
      Summary 251 1 17], Ok tt).
Proof. vm_compute. repeat split; reflexivity. Qed.

(** C2, as stated, at an account whose call for the autoscaling groups
    raises [ClientError]: the exception leaves [show_subnet_usage], and no
    summary line is written. *)
Lemma C2_asg_error_ends_the_run :
  let w := Fixtures.with_auto_scaling_groups Fixtures.two_elb_enis
             {| pages := []; error := Some ClientError |} in
  V2.show_subnet_usage canonical w
  = ([FoundSubnet "subnet-1" "10.0.1.0/24" 249; UsedOutOfTotal 2 251;
      FoundELBs 1 2 8; FoundNLBs 0 0 0], Raise ClientError) /\
  snd (V2.show_subnet_usage canonical w) <> Ok tt /\
  (forall usable used total,
     ~ In (Summary usable used total) (fst (V2.show_subnet_usage canonical w))).
Proof.
  vm_compute. split; [reflexivity|]. split; [discriminate|].
  intros usable used total H.
  repeat match goal with
         | H : _ \/ _ |- _ => destruct H
         | H : _ = Summary _ _ _ |- _ => discriminate H
         | H : False |- _ => contradiction
         end.
Qed.

(** A [ClientError] of the call that lists the load balancers, after some
    pages: the run completes if it does when the call ends after the same
    pages, with the same lines and one warning more. *)
Lemma nlb_error_after_pages (rt : Runtime) (w : AWS)
    (lbs : list (list LoadBalancer)) (out : list line) :
  RuntimeOk rt ->
  V2.show_subnet_usage rt
    (Fixtures.with_load_balancers w {| pages := lbs; error := None |}) = (out, Ok tt) ->
  exists before count curr max after,
    out = (before ++ FoundNLBs count curr max :: after)%list /\
    (forall l, In l before -> l <> LogWarning "Error querying NLBs") /\
    V2.show_subnet_usage rt
      (Fixtures.with_load_balancers w {| pages := lbs; error := Some ClientError |})
    = ((before ++ LogWarning "Error querying NLBs" :: FoundNLBs count curr max :: after)%list,
       Ok tt).
Proof.
  intros Hrt H.
  set (w0 := Fixtures.with_load_balancers w {| pages := lbs; error := None |}) in *.
  set (w1 := Fixtures.with_load_balancers w {| pages := lbs; error := Some ClientError |}).
  destruct (show_subnet_usage_completes _ _ _ H)
    as (ips & eni_ips & ec2_ips & elb & o1 & nlb & asg & o2 & eks
        & E1 & E2 & E3 & E4 & E5 & E6 & E7 & ->).
  cbn zeta in *.
  rewrite (handle_nlbs_spec rt Hrt) in E5. cbn zeta in E5. simpl in E5.
  injection E5 as <- <-.
  eexists [_; _; _], _, _, _, _. split; [reflexivity|]. split.
  { intros l [<-|[<-|[<-|[]]]]; discriminate. }
  unfold V2.show_subnet_usage.
  change (subnet w1) with (subnet w0).
  rewrite E1. run.
  change (V2._find_used_eni w1) with (V2._find_used_eni w0). rewrite E2. run.
  change (V2._find_used_ec2_instances w1 ips) with (V2._find_used_ec2_instances w0 ips).
  rewrite E3. run.
  change (V2._handle_elbs rt w1) with (V2._handle_elbs rt w0). rewrite E4. run.
  rewrite (handle_nlbs_spec rt Hrt). cbn zeta. 
  change (error (describe_load_balancers w1)) with (Some ClientError).
  change (pages (describe_load_balancers w1)) with lbs.
  cbn iota. run.
  change (V2._handle_asgs rt w1) with (V2._handle_asgs rt w0). rewrite E6. run.
  change (V2._handle_eks rt w1) with (V2._handle_eks rt w0). rewrite E7. run.
  destruct elb as [[a b] c], asg as [[g h] i], eks as [j k]. run.
  destruct (bool_decide _); run; rewrite <- ?app_assoc; reflexivity.
Qed.

(** The run reads the listing of the load balancers through its pages and
    its error only. *)
Lemma show_subnet_usage_load_balancers (rt : Runtime) (w : AWS) :
  RuntimeOk rt ->
  V2.show_subnet_usage rt w
  = V2.show_subnet_usage rt
      (Fixtures.with_load_balancers w
         {| pages := pages (describe_load_balancers w);
            error := error (describe_load_balancers w) |}).
Proof.
  intros Hrt.
  set (w' := Fixtures.with_load_balancers w _).
  unfold V2.show_subnet_usage.
  change (subnet w') with (subnet w).
  change (V2._find_used_eni w') with (V2._find_used_eni w).
  destruct (_ips_for_subnet _) as [ips|]; run; [|reflexivity].
  destruct (V2._find_used_eni w) as [eni_ips|e]; run; [|reflexivity].
  change (V2._find_used_ec2_instances w' ips) with (V2._find_used_ec2_instances w ips).
  destruct (V2._find_used_ec2_instances w ips) as [ec2_ips|e]; run; [|reflexivity].
  change (V2._handle_elbs rt w') with (V2._handle_elbs rt w).
  destruct (V2._handle_elbs _ _ _) as [[[a b] c]|e]; run; [|reflexivity].
  rewrite !(handle_nlbs_spec rt Hrt). reflexivity.
Qed.

Lemma collectors_ok_without_error (w : AWS) :
  Spec.collectors_ok w ->
  Spec.collectors_ok
    (Fixtures.with_load_balancers w
       {| pages := pages (describe_load_balancers w); error := None |}).
Proof.
  intros Hok. split; try apply Hok. left. reflexivity.
Qed.

(** C2, amended. When the call that lists the load balancers raises a
    [ClientError] and every other call succeeds, the run completes: the
    error is caught in [_handle_nlbs], a warning is written, and the report
    is the one of the run in which the call ends without the error after
    the same pages, NLB figures and all other lines alike. *)
Theorem C2_nlb_error_is_caught (rt : Runtime) (w : AWS) :
  RuntimeOk rt ->
  Spec.collectors_ok w ->
  error (describe_load_balancers w) = Some ClientError ->
  exists before count curr max after,
    V2.show_subnet_usage rt w
    = ((before ++ LogWarning "Error querying NLBs" :: FoundNLBs count curr max :: after)%list,
       Ok tt) /\
    (forall l, In l before -> l <> LogWarning "Error querying NLBs") /\
    V2.show_subnet_usage rt
      (Fixtures.with_load_balancers w
         {| pages := pages (describe_load_balancers w); error := None |})
    = ((before ++ FoundNLBs count curr max :: after)%list, Ok tt).
Proof.
  intros Hrt Hok Herr.
  destruct (show_subnet_usage_total rt _ Hrt (collectors_ok_without_error w Hok))
    as [out Hout].
  destruct (nlb_error_after_pages rt w _ out Hrt Hout)
    as (before & count & curr & max & after & -> & Hbefore & Hrun).
  exists before, count, curr, max, after. split; [|split; [exact Hbefore|exact Hout]].
  rewrite (show_subnet_usage_load_balancers rt w Hrt), Herr. exact Hrun.
Qed.

(** The account with one NLB, when the listing of the load balancers raises
    after its page. *)
Lemma one_nlb_eni_listing_fails_ok :
  Spec.collectors_ok
    (Fixtures.with_load_balancers Fixtures.one_nlb_eni
       {| pages := pages (describe_load_balancers Fixtures.one_nlb_eni);
          error := Some ClientError |}).
Proof.
  split; try reflexivity; try (intros; left; reflexivity).
  - eexists. vm_compute. reflexivity.
  - right. reflexivity.
Defined.

Lemma C2_nlb_error_is_caught_witness :
  exists before count curr max after,
    V2.show_subnet_usage canonical
      (Fixtures.with_load_balancers Fixtures.one_nlb_eni
         {| pages := pages (describe_load_balancers Fixtures.one_nlb_eni);
            error := Some ClientError |})
    = ((before ++ LogWarning "Error querying NLBs" :: FoundNLBs count curr max :: after)%list,
       Ok tt).
Proof.
  destruct (C2_nlb_error_is_caught canonical _ canonical_ok
              one_nlb_eni_listing_fails_ok eq_refl)
    as (before & count & curr & max & after & Hrun & _ & _).
  exists before, count, curr, max, after. exact Hrun.
Defined.

Example run_nlb_collector_fails :
  V2.show_subnet_usage canonical
    (Fixtures.with_load_balancers Fixtures.one_nlb_eni
       {| pages := pages (describe_load_balancers Fixtures.one_nlb_eni);
          error := Some ClientError |})
  = ([FoundSubnet "subnet-1" "10.0.1.0/24" 250; UsedOutOfTotal 1 251;
      FoundELBs 1 1 8; LogWarning "Error querying NLBs"; FoundNLBs 1 1 8;
      FoundASGs 0 0 0; FoundEKS 0; Summary 251 1 17], Ok tt).
Proof. vm_compute. reflexivity. Qed.

Example run_nlb_collector_fails_otherwise :
  V2.show_subnet_usage canonical
    (Fixtures.with_load_balancers Fixtures.one_nlb_eni
       {| pages := []; error := Some BotoCoreError |})
  = ([FoundSubnet "subnet-1" "10.0.1.0/24" 250; UsedOutOfTotal 1 251;
      FoundELBs 1 1 8], Raise BotoCoreError).
Proof. vm_compute. reflexivity. Qed.

Lemma reversed_ok : RuntimeOk reversed.
Proof.
  split; intros x; simpl; symmetry; apply Permutation_rev.
Defined.

Lemma C9_report_is_deterministic_witness :
  V2.show_subnet_usage canonical Fixtures.one_asg
  = V2.show_subnet_usage reversed Fixtures.one_asg.
Proof.
  apply (C9_report_is_deterministic canonical reversed Fixtures.one_asg
           canonical_ok reversed_ok).
  vm_compute. reflexivity.
Defined.

(** ** The Classic/ALB pattern on the descriptor of an NLB's ENI *)

Section Patterns.
Import Re.

Lemma run_length_prefix a (l rest : list ascii) :
  Forall (fun c => accepts a c = true) l ->
  match rest with [] => True | c :: _ => accepts a c = false end ->
  run_length a (l ++ rest) = length l.
Proof.
  intros Hl Hrest. induction Hl as [|c l Hc _ IH]; simpl.
  - destruct rest as [|c rest]; [reflexivity|]. simpl. rewrite Hrest. reflexivity.
  - rewrite Hc, IH. reflexivity.
Qed.

Lemma backtrack_longest {R} (k : list ascii -> option R) s lo n r :
  k (skipn n s) = Some r -> backtrack k s lo n = Some r.
Proof. intros H. destruct n; simpl; simpl in H; rewrite H; reflexivity. Qed.

Lemma list_ascii_of_string_app s1 s2 :
  list_ascii_of_string (s1 ++ s2)
  = (list_ascii_of_string s1 ++ list_ascii_of_string s2)%list.
Proof. induction s1 as [|c s1 IH]; simpl; [reflexivity|]. rewrite IH. reflexivity. Qed.

Lemma ENI_ELB_RE_group (id rest : string) :
  id <> EmptyString ->
  Forall (fun c => accepts (InSet [("a"%char, "f"%char); ("0"%char, "9"%char)]) c = true)
         (list_ascii_of_string id) ->
  rest <> EmptyString ->
  Forall (fun c => accepts Dot c = true) (list_ascii_of_string rest) ->
  group_1 ENI_ELB_RE ("eni-" ++ id ++ " / ELB " ++ rest) = Some rest.
Proof.
  intros Hid Hhex Hrest Hdot. unfold group_1, match_.
  rewrite !list_ascii_of_string_app.
  set (h := list_ascii_of_string id) in *.
  set (r := list_ascii_of_string rest) in *.
  assert (length h <> 0%nat) as Hh.
  { unfold h. destruct id; [contradiction|]. simpl. lia. }
  assert (length r <> 0%nat) as Hr.
  { unfold r. destruct rest; [contradiction|]. simpl. lia. }
  cbn [ENI_ELB_RE lit list_ascii_of_string map app run accepts Ascii.eqb Bool.eqb].
  set (hex := InSet [("a"%char, "f"%char); ("0"%char, "9"%char)]) in *.
  rewrite (run_length_prefix hex h) by (try exact Hhex; reflexivity).
  destruct (length h <? 1)%nat eqn:E; [apply Nat.ltb_lt in E; lia|].
  rewrite (backtrack_longest _ _ _ _ {| opened := Some r; group1 := Some r |}).
  - simpl. unfold r. rewrite string_of_list_ascii_of_string. reflexivity.
  - rewrite skipn_app, skipn_all, Nat.sub_diag. simpl skipn.
    cbn [app run accepts Ascii.eqb Bool.eqb].
    assert (run_length Dot r = length r) as ->.
    { rewrite <- (app_nil_r r) at 1. apply run_length_prefix; [exact Hdot|exact I]. }
    destruct (length r <? 1)%nat eqn:E'; [apply Nat.ltb_lt in E'; lia|].
    apply backtrack_longest.
    rewrite skipn_all. cbn [opened group1 length].
    rewrite Nat.sub_0_r, firstn_all. reflexivity.
Qed.

End Patterns.

(** X21. The descriptor of the ENI of a network load balancer: the NLB
    pattern does not match it, and the Classic/ALB pattern takes
    ["net/<name>/<hash>"] out of it as the name of a load balancer. *)
Lemma nlb_descriptor_taken_for_classic (id name hash : string) :
  id <> EmptyString ->
  Forall (fun c => Re.accepts (Re.InSet [("a"%char, "f"%char); ("0"%char, "9"%char)]) c = true)
         (list_ascii_of_string id) ->
  Forall (fun c => Re.accepts Re.Dot c = true) (list_ascii_of_string (name ++ "/" ++ hash)) ->
  let desc := "eni-" ++ id ++ " / ELB net/" ++ name ++ "/" ++ hash in
  Re.match_ ENI_NLB_RE desc = None /\
  Re.group_1 ENI_ELB_RE desc = Some ("net/" ++ name ++ "/" ++ hash).
Proof.
  intros Hid Hhex Hdot desc. split.
  - apply (ENI_NLB_RE_rejects_eni
             {| eni_id := "eni-" ++ id;
                eni_description := "ELB net/" ++ name ++ "/" ++ hash;
                eni_private_ip_addresses := [] |}).
    clear. destruct id; reflexivity.
  - unfold desc.
    change (" / ELB net/" ++ name ++ "/" ++ hash)
      with (" / ELB " ++ ("net/" ++ name ++ "/" ++ hash)).
    apply ENI_ELB_RE_group; [exact Hid|exact Hhex|discriminate|].
    simpl. repeat (constructor; [reflexivity|]). exact Hdot.
Qed.

Lemma nlb_descriptor_taken_for_classic_witness :
  Re.match_ ENI_NLB_RE "eni-0a / ELB net/mynlb/abcd1234" = None /\
  Re.group_1 ENI_ELB_RE "eni-0a / ELB net/mynlb/abcd1234" = Some "net/mynlb/abcd1234".
Proof.
  apply (nlb_descriptor_taken_for_classic "0a" "mynlb" "abcd1234").
  - discriminate.
  - repeat constructor.
  - simpl. repeat constructor.
Defined.

(** * Further properties of the code *)

(** ** The patterns of [_find_subnet] on examples *)

Example SUBNET_ID_RE_id : Rx.match_ SUBNET_ID_RE "subnet-0a1B" = true.
Proof. reflexivity. Qed.

Example SUBNET_ID_RE_other : Rx.match_ SUBNET_ID_RE "subnet-0a1g" = false.
Proof. reflexivity. Qed.

Example CIDR_BLOCK_RE_block : Rx.match_ CIDR_BLOCK_RE "10.0.1.0/24" = true.
Proof. reflexivity. Qed.

Example CIDR_BLOCK_RE_long_octet : Rx.match_ CIDR_BLOCK_RE "10.0.1.0000/24" = false.
Proof. reflexivity. Qed.

Example CIDR_BLOCK_RE_tail : Rx.match_ CIDR_BLOCK_RE "999.0.1.0/245 or so" = true.
Proof. reflexivity. Qed.

(** ** The holder records of the ENIs *)

Lemma eni_record_lookup (eni : NetworkInterface) (ip : string) :
  forall res : gmap string string,
  V2.eni_record res eni !! ip
  = if decide (ip ∈ eni_private_ip_addresses eni)
    then Some (V2.eni_descriptor eni) else res !! ip.
Proof.
  unfold V2.eni_record.
  induction (eni_private_ip_addresses eni) as [|a ips IH]; intros res; simpl.
  - reflexivity.
  - rewrite IH. destruct (decide (ip ∈ ips)) as [Hin|Hout].
    + rewrite decide_True by (right; exact Hin). reflexivity.
    + destruct (decide (ip = a)) as [->|Hne].
      * rewrite decide_True by left. apply lookup_insert_eq.
      * rewrite decide_False by (intros H; inversion H; subst; contradiction).
        apply lookup_insert_ne. congruence.
Qed.

Lemma fold_eni_record_lookup (enis : list NetworkInterface) (ip : string) :
  forall res : gmap string string,
  fold_left V2.eni_record enis res !! ip
  = match last (filter (fun eni => ip ∈ eni_private_ip_addresses eni) enis) with
    | Some eni => Some (V2.eni_descriptor eni)
    | None => res !! ip
    end.
Proof.
  induction enis as [|eni enis IH]; intros res; simpl; [reflexivity|].
  rewrite IH, filter_cons, eni_record_lookup.
  destruct (decide (ip ∈ eni_private_ip_addresses eni)); [|reflexivity].
  rewrite last_cons. destruct (last _); reflexivity.
Qed.

(** X1. The record that [_find_used_eni] keeps for an address is the
    descriptor of the last ENI of the listing that has the address among its
    private addresses; an address that no listed ENI has gets no record. *)
Theorem find_used_eni_last_holder_wins (w : AWS) (enis : list NetworkInterface) :
  enis_in_subnet w = Ok enis ->
  exists eni_ips,
    V2._find_used_eni w = Ok eni_ips /\
    forall ip,
      eni_ips !! ip
      = V2.eni_descriptor
          <$> last (filter (fun eni => ip ∈ eni_private_ip_addresses eni) enis).
Proof.
  intros Henis. unfold V2._find_used_eni. rewrite Henis.
  eexists. split; [reflexivity|]. intros ip.
  rewrite fold_eni_record_lookup, lookup_empty.
  destruct (last _); reflexivity.
Qed.

Lemma find_used_eni_last_holder_wins_witness :
  V2._find_used_eni
    (Fixtures.account (Fixtures.subnet_1 0)
       [Fixtures.eni "eni-1" "first" "10.0.1.10"; Fixtures.eni "eni-2" "second" "10.0.1.10"]
       [] [] [])
  = Ok {["10.0.1.10" := "eni-2 / second"]}.
Proof.
  destruct (find_used_eni_last_holder_wins
              (Fixtures.account (Fixtures.subnet_1 0)
                 [Fixtures.eni "eni-1" "first" "10.0.1.10";
                  Fixtures.eni "eni-2" "second" "10.0.1.10"] [] [] [])
              _ eq_refl) as (m & Hm & _).
  rewrite Hm. vm_compute in Hm. injection Hm as <-. vm_compute. reflexivity.
Defined.

(** ** The holder records of the instances (second variant) *)

Lemma for_each_invariant {A S} (Inv : S -> Prop) (P : A -> Prop)
    (body : S -> A -> result S) (l : list A) :
  (forall s a s', P a -> Inv s -> body s a = Ok s' -> Inv s') ->
  Forall P l ->
  forall s, Inv s -> Inv (fst (for_each body l s)).
Proof.
  intros Hbody Hl. induction Hl as [|a l Ha _ IH]; intros s Hs; simpl; [exact Hs|].
  destruct (body s a) as [s'|e] eqn:E; [|exact Hs].
  apply IH. exact (Hbody s a s' Ha Hs E).
Qed.

Lemma ec2_record_keeps (ips : list string) (listed : list Instance)
    (res res' : gmap string string) (inst : Instance) :
  In inst listed ->
  map_Forall (ec2_record_ok ips listed) res ->
  V2.ec2_record ips res inst = Ok res' ->
  map_Forall (ec2_record_ok ips listed) res'.
Proof.
  intros Hin Hres. unfold V2.ec2_record.
  destruct (PrivateIpAddress inst) as [priv|] eqn:Hpriv; [|discriminate].
  set (by_interface := fun (res : gmap string string) (ni : string) =>
         if Str.mem ni ips
         then <[priv := InstanceId inst ++ "/"
                        ++ default "0" (NetworkInterfaceId inst)]> res
         else res).
  assert (Str.mem priv ips = false ->
          forall nis, incl nis (NetworkInterfaces inst) ->
          forall r : gmap string string,
            map_Forall (ec2_record_ok ips listed) r ->
            map_Forall (ec2_record_ok ips listed) (fold_left by_interface nis r)) as Hfold.
  { intros Hout. induction nis as [|ni nis IH]; intros Hincl r Hr; simpl; [exact Hr|].
    apply IH; [intros x Hx; apply Hincl; right; exact Hx|].
    unfold by_interface at 1. destruct (Str.mem ni ips) eqn:Hni; [|exact Hr].
    apply map_Forall_insert_2; [|exact Hr].
    exists inst. split; [exact Hin|]. right.
    repeat split; try assumption; try reflexivity.
    exists ni. split; [apply Hincl; left; reflexivity|exact Hni]. }
  destruct (Str.mem priv ips) eqn:Hmem.
  - intros [= <-]. apply map_Forall_insert_2; [|exact Hres].
    exists inst. split; [exact Hin|]. left. auto.
  - destruct (PublicIpAddress inst) as [pub|] eqn:Hpub.
    + destruct (Str.mem pub ips) eqn:Hpubmem.
      * intros [= <-]. apply map_Forall_insert_2; [|exact Hres].
        exists inst. split; [exact Hin|]. left. auto.
      * intros [= <-]. apply Hfold; [reflexivity|apply incl_refl|exact Hres].
    + intros [= <-]. apply Hfold; [reflexivity|apply incl_refl|exact Hres].
Qed.

(** X2. Every record that [_find_used_ec2_instances] returns comes
    from a listed instance.  At an address of the subnet the holder is the
    id of an instance that has the address as its private or its public
    address.  At any other address the holder is the id of an instance and
    of its interface, the address is the private address of that instance,
    and one of the interfaces of the instance has an address of the
    subnet. *)
Theorem find_used_ec2_instances_records (w : AWS) (ips : list string)
    (ec2_ips : gmap string string) :
  V2._find_used_ec2_instances w ips = Ok ec2_ips ->
  let listed := (instances_of (instances_by_ni_subnet w)
                 ++ instances_of (instances_by_subnet w))%list in
  forall ip holder, ec2_ips !! ip = Some holder -> ec2_record_ok ips listed ip holder.
Proof.
  intros H listed. unfold instances_of in listed. unfold V2._find_used_ec2_instances, V2.for_instances, for_pages in H.
  cbn [pages error] in H.
  set (l1 := concat (map (@concat Instance) (pages (instances_by_ni_subnet w)))) in *.
  set (l2 := concat (map (@concat Instance) (pages (instances_by_subnet w)))) in *.
  pose proof (for_each_invariant (map_Forall (ec2_record_ok ips listed))
                (fun inst => In inst listed) (V2.ec2_record ips) l1) as H1.
  pose proof (for_each_invariant (map_Forall (ec2_record_ok ips listed))
                (fun inst => In inst listed) (V2.ec2_record ips) l2) as H2.
  assert (forall s a s', In a listed -> map_Forall (ec2_record_ok ips listed) s ->
            V2.ec2_record ips s a = Ok s' -> map_Forall (ec2_record_ok ips listed) s')
    as Hkeep.
  { intros s a s' Ha Hs E. exact (ec2_record_keeps ips listed s s' a Ha Hs E). }
  specialize (H1 Hkeep). specialize (H2 Hkeep).
  assert (Forall (fun inst => In inst listed) l1) as Hl1.
  { apply List.Forall_forall. intros x Hx. unfold listed. apply in_or_app. left. exact Hx. }
  assert (Forall (fun inst => In inst listed) l2) as Hl2.
  { apply List.Forall_forall. intros x Hx. unfold listed. apply in_or_app. right. exact Hx. }
  specialize (H1 Hl1 ∅ (map_Forall_empty _)). specialize (H2 Hl2).
  destruct (for_each (V2.ec2_record ips) l1 ∅) as [res1 [e|]]; [discriminate|].
  destruct (error (instances_by_ni_subnet w)); [discriminate|].
  cbn [propagate fst] in *. specialize (H2 res1 H1).
  destruct (for_each (V2.ec2_record ips) l2 res1) as [res2 [e|]]; [discriminate|].
  destruct (error (instances_by_subnet w)); [discriminate|].
  cbn [propagate fst] in *. injection H as <-. exact H2.
Qed.

Lemma find_used_ec2_instances_records_witness :
  let w := Fixtures.account (Fixtures.subnet_1 0) []
             [{| InstanceId := "i-7"; PrivateIpAddress := Some "10.0.2.5";
                 PublicIpAddress := None; NetworkInterfaces := ["10.0.1.30"];
                 NetworkInterfaceId := None; Tags := [] |}] [] [] in
  V2._find_used_ec2_instances w ["10.0.1.30"] = Ok {["10.0.2.5" := "i-7/0"]} /\
  ec2_record_ok ["10.0.1.30"]
    (instances_of (instances_by_ni_subnet w) ++ instances_of (instances_by_subnet w))%list
    "10.0.2.5" "i-7/0".
Proof.
  intros w. split; [vm_compute; reflexivity|].
  apply (find_used_ec2_instances_records w ["10.0.1.30"] {["10.0.2.5" := "i-7/0"]}).
  - vm_compute. reflexivity.
  - vm_compute. reflexivity.
Defined.

Lemma for_each_raises {A S} (body : S -> A -> result S) (good : list A) (a : A)
    (rest : list A) (e : exn) :
  (forall s, body s a = Raise e) ->
  Forall (fun x => forall s, is_ok (body s x) = true) good ->
  forall s, snd (for_each body (good ++ a :: rest) s) = Some e.
Proof.
  intros Ha Hgood. induction Hgood as [|x good Hx _ IH]; intros s; simpl.
  - rewrite Ha. reflexivity.
  - specialize (Hx s). destruct (body s x); [apply IH|discriminate].
Qed.

(** X3. An instance of the first listing that has no
    [PrivateIpAddress] ends [_find_used_ec2_instances] with [KeyError], when
    every instance listed before it has one. *)
Theorem find_used_ec2_instances_KeyError (w : AWS) (ips : list string)
    (good : list Instance) (inst : Instance) (rest : list Instance) :
  instances_of (instances_by_ni_subnet w) = (good ++ inst :: rest)%list ->
  Forall (fun i => is_Some (PrivateIpAddress i)) good ->
  PrivateIpAddress inst = None ->
  V2._find_used_ec2_instances w ips = Raise KeyError.
Proof.
  unfold instances_of. intros Hlist Hgood Hnone.
  unfold V2._find_used_ec2_instances, V2.for_instances, for_pages. cbn [pages error].
  rewrite Hlist.
  pose proof (for_each_raises (V2.ec2_record ips) good inst rest KeyError) as H.
  destruct (for_each (V2.ec2_record ips) (good ++ inst :: rest) ∅) as [res o] eqn:E.
  assert (o = Some KeyError) as ->.
  { change o with (snd (res, o)). rewrite <- E. apply H.
    - intros s. unfold V2.ec2_record. rewrite Hnone. reflexivity.
    - eapply Forall_impl; [exact Hgood|]. intros i [priv Hpriv] s.
      unfold V2.ec2_record. rewrite Hpriv.
      destruct (Str.mem priv ips); [reflexivity|].
      destruct (PublicIpAddress i) as [pub|]; [|reflexivity].
      destruct (Str.mem pub ips); reflexivity. }
  reflexivity.
Qed.

Lemma find_used_ec2_instances_KeyError_witness :
  V2._find_used_ec2_instances
    (Fixtures.account (Fixtures.subnet_1 0) []
       [Fixtures.instance "i-1" "10.0.1.20" [];
        {| InstanceId := "i-2"; PrivateIpAddress := None; PublicIpAddress := None;
           NetworkInterfaces := []; NetworkInterfaceId := None; Tags := [] |}] [] [])
    ["10.0.1.20"]
  = Raise KeyError.
Proof.
  apply (find_used_ec2_instances_KeyError _ _ [Fixtures.instance "i-1" "10.0.1.20" []]
           {| InstanceId := "i-2"; PrivateIpAddress := None; PublicIpAddress := None;
              NetworkInterfaces := []; NetworkInterfaceId := None; Tags := [] |} []).
  - reflexivity.
  - repeat constructor. eexists. reflexivity.
  - reflexivity.
Defined.

(** ** The instance records of the two variants *)

Lemma for_each_fold {A S} (body : S -> A -> result S) (step : S -> A -> S)
    (l : list A) :
  (forall s a, In a l -> body s a = Ok (step s a)) ->
  forall s, for_each body l s = (fold_left step l s, None).
Proof.
  induction l as [|a l IH]; intros H s; simpl; [reflexivity|].
  rewrite (H s a (or_introl eq_refl)). apply IH.
  intros s' a' Ha'. apply H. right. exact Ha'.
Qed.

Lemma fold_private_record_lookup (l : list Instance) (ip : string) :
  forall res : gmap string string,
  fold_left private_record l res !! ip
  = match last (filter (fun inst => PrivateIpAddress inst = Some ip) l) with
    | Some inst => Some (InstanceId inst)
    | None => res !! ip
    end.
Proof.
  induction l as [|inst l IH]; intros res; simpl; [reflexivity|].
  rewrite IH, filter_cons. unfold private_record.
  destruct (decide (PrivateIpAddress inst = Some ip)) as [E|E].
  - rewrite E, last_cons, lookup_insert_eq. destruct (last _); reflexivity.
  - destruct (last _); [reflexivity|].
    destruct (PrivateIpAddress inst) as [ip'|]; [|reflexivity].
    apply lookup_insert_ne. congruence.
Qed.

(** X4. The two variants of [_find_used_ec2_instances] return
    the same records, or raise the same exception, when the listing by
    interface completes, every listed instance has a private address that is
    an address of the subnet, and every private address of the listing by
    interface is also one of the listing by subnet. *)
Theorem find_used_ec2_instances_variants (w : AWS) (ips : list string) :
  error (instances_by_ni_subnet w) = None ->
  (forall inst,
     In inst (instances_of (instances_by_ni_subnet w) ++ instances_of (instances_by_subnet w)) ->
     exists ip, PrivateIpAddress inst = Some ip /\ ip <> EmptyString /\
                Str.mem ip ips = true) ->
  (forall inst, In inst (instances_of (instances_by_ni_subnet w)) ->
     exists inst', In inst' (instances_of (instances_by_subnet w)) /\
                   PrivateIpAddress inst' = PrivateIpAddress inst) ->
  V2._find_used_ec2_instances w ips = V1b._find_used_ec2_instances w.
Proof.
  intros Herr Hgood Hseen.
  unfold V2._find_used_ec2_instances, V1b._find_used_ec2_instances,
    V2.for_instances, for_pages.
  cbn [pages error]. fold (instances_of (instances_by_ni_subnet w)).
  fold (instances_of (instances_by_subnet w)).
  set (l1 := instances_of (instances_by_ni_subnet w)) in *.
  set (l2 := instances_of (instances_by_subnet w)) in *.
  assert (forall l, (forall inst, In inst l -> In inst (l1 ++ l2)) ->
            forall res, for_each (V2.ec2_record ips) l res
                        = (fold_left private_record l res, None)) as H2.
  { intros l Hl. apply for_each_fold. intros res inst Hin.
    destruct (Hgood inst (Hl inst Hin)) as (ip & Hip & _ & Hmem).
    unfold V2.ec2_record, private_record. rewrite Hip, Hmem. reflexivity. }
  assert (forall res, for_each V1b.ec2_record l2 res
                      = (fold_left private_record l2 res, None)) as H1.
  { apply for_each_fold. intros res inst Hin.
    destruct (Hgood inst (in_or_app _ _ _ (or_intror Hin))) as (ip & Hip & Hne & _).
    unfold V1b.ec2_record, private_record. rewrite Hip.
    apply String.eqb_neq in Hne. rewrite Hne. reflexivity. }
  rewrite (H2 l1) by (intros; apply in_or_app; left; assumption).
  rewrite Herr. cbn [propagate].
  rewrite (H2 l2) by (intros; apply in_or_app; right; assumption).
  rewrite H1.
  assert (fold_left private_record l2 (fold_left private_record l1 ∅)
          = fold_left private_record l2 ∅) as ->; [|reflexivity].
  apply map_eq. intros ip. rewrite !fold_private_record_lookup, lookup_empty.
  destruct (last (filter (fun inst => PrivateIpAddress inst = Some ip) l2)) eqn:E2;
    [reflexivity|].
  destruct (last (filter (fun inst => PrivateIpAddress inst = Some ip) l1)) as [inst|]
    eqn:E1; [|reflexivity].
  exfalso. apply last_Some_elem_of in E1. apply list_elem_of_filter in E1 as [Hip Hin].
  apply list_elem_of_In in Hin.
  destruct (Hseen inst Hin) as (inst' & Hin' & Hip').
  apply last_None in E2.
  assert (inst' ∈ filter (fun inst => PrivateIpAddress inst = Some ip) l2) as Hf.
  { apply list_elem_of_filter. split; [congruence|]. apply list_elem_of_In. exact Hin'. }
  rewrite E2 in Hf. inversion Hf.
Qed.

Lemma find_used_ec2_instances_variants_witness :
  V2._find_used_ec2_instances Fixtures.one_asg ["10.0.1.20"; "10.0.1.21"]
  = V1b._find_used_ec2_instances Fixtures.one_asg.
Proof.
  apply find_used_ec2_instances_variants.
  - reflexivity.
  - intros inst Hin. vm_compute in Hin.
    destruct Hin as [<- | [<- | [<- | [<- | []]]]]; eexists;
      (split; [reflexivity|split; [discriminate|reflexivity]]).
  - intros inst Hin. exists inst. split; [|reflexivity].
    vm_compute in Hin. vm_compute. exact Hin.
Defined.

(** ** Bounds that the figures keep *)

Lemma size_list_to_set_le (l : list string) :
  (size (list_to_set l : gset string) <= length l)%nat.
Proof.
  induction l as [|x l IH].
  - rewrite list_to_set_nil, size_empty. reflexivity.
  - rewrite list_to_set_cons, size_union_alt, size_singleton. cbn [length].
    pose proof (subseteq_size (list_to_set l ∖ {[x]}) (list_to_set l : gset string)) as H.
    assert (list_to_set l ∖ {[x]} ⊆ (list_to_set l : gset string)) as Hsub
      by apply subseteq_difference_l, reflexivity.
    specialize (H Hsub). lia.
Qed.

Lemma length_omap_le {A B} (f : A -> option B) (l : list A) :
  (length (omap f l) <= length l)%nat.
Proof.
  induction l as [|x l IH]; [reflexivity|].
  change (omap f (x :: l)) with (match f x with Some y => y :: omap f l | None => omap f l end).
  destruct (f x); cbn [length]; lia.
Qed.

Lemma sumZ_nonneg (l : list Z) : Forall (fun x => 0 <= x) l -> 0 <= Spec.sumZ l.
Proof. induction 1; simpl; lia. Qed.

Lemma sumZ_le {A} (f g : A -> Z) (l : list A) :
  (forall x, f x <= g x) -> Spec.sumZ (map f l) <= Spec.sumZ (map g l).
Proof. intros H. induction l as [|x l IH]; simpl; [lia|]. specialize (H x). lia. Qed.

Lemma sumZ_add {A} (f g : A -> Z) (l : list A) :
  Spec.sumZ (map (fun x => f x + g x) l) = Spec.sumZ (map f l) + Spec.sumZ (map g l).
Proof. induction l as [|x l IH]; simpl; [reflexivity|]. rewrite IH. lia. Qed.

Lemma sumZ_const {A} (c : Z) (l : list A) :
  Spec.sumZ (map (fun _ => c) l) = c * len l.
Proof.
  induction l as [|x l IH]; unfold len in *; simpl Spec.sumZ; simpl length; [lia|].
  simpl in IH. rewrite IH. lia.
Qed.

(** X5. [_handle_elbs] returns its figures exactly when the query
    for the ENIs of every load balancer name succeeds.  The count is then at
    most the number of holder records, the current figure is not negative,
    and the maximum is [ELB_MAX_IPS] times the count. *)
Theorem handle_elbs_all_or_nothing (rt : Runtime) (w : AWS) (ips : gmap string string) :
  RuntimeOk rt ->
  is_ok (V2._handle_elbs rt w ips)
  = forallb (Spec.elb_query_ok w) (elements (Spec.elb_names ips)) /\
  (forall count curr max,
     V2._handle_elbs rt w ips = Ok (count, curr, max) ->
     0 <= count <= Z.of_nat (size ips) /\ 0 <= curr /\ max = ELB_MAX_IPS * count).
Proof.
  intros Hrt.
  destruct (forallb (Spec.elb_query_ok w) (elements (Spec.elb_names ips))) eqn:E.
  - rewrite (handle_elbs_ok rt Hrt w ips E). split; [reflexivity|].
    intros count curr max [= <- <- <-]. split; [|split; [|reflexivity]].
    + split; [lia|]. apply inj_le. unfold Spec.elb_names.
      etransitivity; [apply size_list_to_set_le|].
      etransitivity; [apply length_omap_le|].
      rewrite length_map_to_list. reflexivity.
    + apply sumZ_nonneg. apply List.Forall_forall. intros x Hx.
      apply in_map_iff in Hx as (name & <- & _). unfold Spec.elb_enis.
      destruct (enis_by_description w _); unfold len; lia.
  - destruct (handle_elbs_fail rt Hrt w ips E) as [e ->]. split; [reflexivity|].
    intros count curr max [=].
Qed.

Lemma handle_elbs_all_or_nothing_witness :
  is_ok (V2._handle_elbs canonical
           {| subnet := Fixtures.subnet_1 0;
              enis_in_subnet := Ok [];
              enis_by_description := fun _ => Raise ClientError;
              instances_by_ni_subnet := Fixtures.one_page [];
              instances_by_subnet := Fixtures.one_page [];
              instances_by_ids := fun _ => Fixtures.one_page [];
              describe_auto_scaling_groups := Fixtures.one_page [];
              describe_load_balancers := Fixtures.one_page [] |}
           {["10.0.1.10" := "eni-1 / ELB myelb"]})
  = false.
Proof.
  rewrite (proj1 (handle_elbs_all_or_nothing canonical _ _ canonical_ok)).
  vm_compute. reflexivity.
Defined.

(** X6. The figures of [_handle_nlbs].  The count is at most the
    number of network load balancers listed for the subnet (it counts their
    distinct ARNs), the current figure is at least that number (one address
    at least for each), and the maximum is [ELB_MAX_IPS] times that
    number. *)
Theorem handle_nlbs_bounds (rt : Runtime) (w : AWS) (ips : gmap string string)
    (subnet_id : string) (out : list line) (count curr max : Z) :
  RuntimeOk rt ->
  V2._handle_nlbs rt w ips subnet_id = (out, Ok (count, curr, max)) ->
  let listed := List.filter (Spec.nlb_in_subnet subnet_id)
                  (concat (pages (describe_load_balancers w))) in
  0 <= count <= len listed /\ len listed <= curr /\ max = ELB_MAX_IPS * len listed.
Proof.
  intros Hrt H listed. rewrite (handle_nlbs_spec rt Hrt) in H. cbn zeta in H.
  fold listed in H.
  assert ((count, curr, max)
          = (Z.of_nat (size (list_to_set (map LoadBalancerArn listed) : gset string)),
             Spec.sumZ (map (Spec.nlb_current ips) listed),
             ELB_MAX_IPS * len listed)) as Heq.
  { destruct (error (describe_load_balancers w)) as [[]|]; congruence. }
  injection Heq as -> -> ->. split; [|split; [|reflexivity]].
  - split; [lia|]. unfold len. apply inj_le.
    etransitivity; [apply size_list_to_set_le|]. rewrite length_map. reflexivity.
  - rewrite <- (Z.mul_1_l (len listed)), <- sumZ_const.
    apply sumZ_le. intros lb. unfold Spec.nlb_current.
    destruct (0 <? _) eqn:E; [apply Z.ltb_lt in E|]; lia.
Qed.

Lemma handle_nlbs_bounds_witness :
  V2._handle_nlbs canonical
    (Fixtures.account (Fixtures.subnet_1 0) [] [] []
       (repeat {| Type_ := "network"; LoadBalancerArn := "arn:nlb/a";
                  LoadBalancerName := "a"; AvailabilityZones := [Some "subnet-1"] |} 2))
    {["10.0.1.10" := "eni-1 / a"; "10.0.1.11" := "eni-2 / a"; "10.0.1.12" := "i-1"]}
    "subnet-1"
  = ([], Ok (1, 4, 16)) /\ 1 <= 2 /\ 2 <= 4 /\ 16 = ELB_MAX_IPS * 2.
Proof.
  assert (V2._handle_nlbs canonical
            (Fixtures.account (Fixtures.subnet_1 0) [] [] []
               (repeat {| Type_ := "network"; LoadBalancerArn := "arn:nlb/a";
                          LoadBalancerName := "a";
                          AvailabilityZones := [Some "subnet-1"] |} 2))
            {["10.0.1.10" := "eni-1 / a"; "10.0.1.11" := "eni-2 / a";
              "10.0.1.12" := "i-1"]}
            "subnet-1"
          = ([], Ok (1, 4, 16))) as Hrun by (vm_compute; reflexivity).
  split; [exact Hrun|].
  pose proof (handle_nlbs_bounds canonical _ _ _ _ _ _ _ canonical_ok Hrun) as H.
  vm_compute in H. vm_compute. intuition discriminate.
Defined.

(** X7. The figures of [_handle_asgs].  The count is the number of
    groups of the subnet, the current figure lies between 0 and the number of
    their members, and the current figure and the maximum together do not
    exceed the sum of the maximal sizes. *)
Theorem handle_asgs_bounds (rt : Runtime) (w : AWS) (subnet_id : string)
    (ec2_ips : gmap string string) (count curr max : Z) :
  RuntimeOk rt ->
  V2._handle_asgs rt w subnet_id ec2_ips = Ok (count, curr, max) ->
  let groups := List.filter (Spec.asg_in_subnet subnet_id)
                  (concat (pages (describe_auto_scaling_groups w))) in
  count = len groups /\
  0 <= curr <= Spec.sumZ (map (fun asg => len (Instances asg)) groups) /\
  curr + max <= Spec.sumZ (map MaxSize groups).
Proof.
  intros Hrt H groups. rewrite (handle_asgs_spec rt Hrt) in H. cbn zeta in H.
  fold groups in H. destruct (error (describe_auto_scaling_groups w)); [discriminate|].
  injection H as <- <- <-.
  assert (forall asg, 0 <= Spec.asg_current ec2_ips asg <= len (Instances asg)) as Hcur.
  { intros asg. unfold Spec.asg_current, len. split; [lia|].
    apply inj_le, List.filter_length_le. }
  split; [reflexivity|]. split; [split|].
  - apply sumZ_nonneg. apply List.Forall_forall. intros x Hx.
    apply in_map_iff in Hx as (asg & <- & _). apply Hcur.
  - apply sumZ_le. intros asg. apply Hcur.
  - rewrite <- sumZ_add. apply sumZ_le. intros asg. unfold Spec.asg_maximum.
    specialize (Hcur asg). lia.
Qed.

Lemma handle_asgs_bounds_witness :
  V2._handle_asgs canonical Fixtures.one_asg "subnet-1" {["10.0.1.20" := "i-1"]}
  = Ok (1, 1, 3) /\ 1 + 3 <= 5.
Proof.
  assert (V2._handle_asgs canonical Fixtures.one_asg "subnet-1" {["10.0.1.20" := "i-1"]}
          = Ok (1, 1, 3)) as Hrun by (vm_compute; reflexivity).
  split; [exact Hrun|].
  pose proof (handle_asgs_bounds canonical _ _ _ _ _ _ canonical_ok Hrun) as (_ & _ & H).
  vm_compute in H. vm_compute. exact H.
Defined.

(** ** [str.split] *)

Lemma append_cons (x : ascii) (a b : string) : String x a ++ b = String x (a ++ b).
Proof. reflexivity. Qed.

Lemma append_assoc (a b c : string) : (a ++ b) ++ c = a ++ (b ++ c).
Proof. induction a as [|x a IH]; [reflexivity|]. rewrite !append_cons, IH. reflexivity. Qed.

Lemma append_nil_r (a : string) : a ++ EmptyString = a.
Proof. induction a as [|x a IH]; [reflexivity|]. rewrite append_cons, IH. reflexivity. Qed.

Lemma split_not_nil (sep : ascii) (s : string) : Str.split sep s <> [].
Proof.
  destruct s as [|c s]; simpl; [discriminate|].
  destruct (Ascii.eqb c sep); [discriminate|]. destruct (Str.split sep s); discriminate.
Qed.

Lemma split_app (sep : ascii) (a b : string) :
  Str.split sep (a ++ String sep b) = (Str.split sep a ++ Str.split sep b)%list.
Proof.
  induction a as [|c a IH]; [change (EmptyString ++ String sep b) with (String sep b)
                           |rewrite append_cons]; simpl.
  - rewrite Ascii.eqb_refl. reflexivity.
  - destruct (Ascii.eqb c sep); rewrite IH; [reflexivity|].
    pose proof (split_not_nil sep a) as Hne.
    destruct (Str.split sep a) as [|h t]; [contradiction|]. reflexivity.
Qed.

Lemma split_one (sep : ascii) (x : string) :
  ~ In sep (list_ascii_of_string x) -> Str.split sep x = [x].
Proof.
  induction x as [|c x IH]; simpl; intros Hno; [reflexivity|].
  destruct (Ascii.eqb c sep) eqn:E.
  - apply Ascii.eqb_eq in E. exfalso. apply Hno. left. exact E.
  - rewrite IH; [reflexivity|]. intros H. apply Hno. right. exact H.
Qed.

(** The first piece, and what follows it. *)
Lemma split_head (sep : ascii) (s : string) :
  exists h t, Str.split sep s = h :: t /\
    ((t = [] /\ s = h) \/ (exists r, s = h ++ String sep r /\ t = Str.split sep r)).
Proof.
  induction s as [|c s (h & t & Hs & IH)]; simpl.
  - exists EmptyString, []. split; [reflexivity|]. left. split; reflexivity.
  - destruct (Ascii.eqb c sep) eqn:E.
    + apply Ascii.eqb_eq in E. subst c. exists EmptyString, (Str.split sep s).
      split; [reflexivity|]. right. exists s. split; reflexivity.
    + rewrite Hs. exists (String c h), t. split; [reflexivity|].
      destruct IH as [[-> ->] | (r & -> & ->)].
      * left. split; reflexivity.
      * right. exists r. split; reflexivity.
Qed.

Lemma length_append (a b : string) :
  String.length (a ++ b) = (String.length a + String.length b)%nat.
Proof. induction a as [|c a IH]; [reflexivity|]. rewrite append_cons. simpl. rewrite IH. reflexivity. Qed.

Lemma split_elements (sep : ascii) (x : string) :
  forall (n : nat) (s : string),
    (String.length s <= n)%nat -> In x (Str.split sep s) -> whole_element sep x s.
Proof.
  induction n as [|n IH]; intros s Hlen Hin.
  - destruct s; [|simpl in Hlen; lia]. simpl in Hin. destruct Hin as [<-|[]].
    exists EmptyString, EmptyString. repeat split; auto.
  - destruct (split_head sep s) as (h & t & Hs & [[-> ->] | (r & -> & ->)]);
      rewrite Hs in Hin.
    + destruct Hin as [<-|[]]. exists EmptyString, EmptyString.
      rewrite append_nil_r. repeat split; auto.
    + destruct Hin as [<-|Hin].
      * exists EmptyString, (String sep r). repeat split; eauto.
      * rewrite length_append in Hlen. simpl in Hlen.
        destruct (IH r ltac:(lia) Hin) as (pre & post & -> & Hpre & Hpost).
        exists (h ++ String sep pre), post. split; [|split; [|exact Hpost]].
        -- rewrite append_assoc. reflexivity.
        -- right. destruct Hpre as [-> | (p & ->)].
           ++ exists h. reflexivity.
           ++ exists (h ++ String sep p). rewrite append_assoc. reflexivity.
Qed.

Lemma split_has_element (sep : ascii) (x s : string) :
  ~ In sep (list_ascii_of_string x) -> whole_element sep x s -> In x (Str.split sep s).
Proof.
  intros Hno (pre & post & -> & Hpre & Hpost).
  assert (In x (Str.split sep (x ++ post))) as Hx.
  { destruct Hpost as [-> | (q & ->)].
    - rewrite append_nil_r, split_one by exact Hno. left. reflexivity.
    - rewrite split_app, split_one by exact Hno. left. reflexivity. }
  destruct Hpre as [-> | (p & ->)]; [exact Hx|].
  rewrite append_assoc. change (String sep EmptyString ++ x ++ post)
    with (String sep (x ++ post)).
  rewrite split_app. apply in_or_app. right. exact Hx.
Qed.

(** X8. [_handle_asgs] counts a group for a subnet exactly when the
    id of the subnet is a whole element of the comma-separated
    [VPCZoneIdentifier] of the group: an id that is only a part of an
    element does not count, and the accumulators are then left as they
    were. *)
Theorem asg_counted_by_whole_subnet_id (rt : Runtime) (subnet_id : string)
    (ec2_ips : gmap string string) (count curr max : Z) (asg : AutoScalingGroup) :
  ~ In ","%char (list_ascii_of_string subnet_id) ->
  (whole_element ","%char subnet_id (VPCZoneIdentifier asg) <->
   exists curr' max',
     V2.asg_count rt subnet_id ec2_ips (count, curr, max) asg = Ok (count + 1, curr', max')) /\
  (~ whole_element ","%char subnet_id (VPCZoneIdentifier asg) <->
   V2.asg_count rt subnet_id ec2_ips (count, curr, max) asg = Ok (count, curr, max)).
Proof.
  intros Hno.
  assert (Str.mem subnet_id (Str.split "," (VPCZoneIdentifier asg)) = true
          <-> whole_element "," subnet_id (VPCZoneIdentifier asg)) as Hmem.
  { rewrite mem_In. split.
    - apply (split_elements "," subnet_id _ _ (Nat.le_refl _)).
    - apply split_has_element. exact Hno. }
  unfold V2.asg_count.
  destruct (Str.mem subnet_id (Str.split "," (VPCZoneIdentifier asg))) eqn:E; simpl.
  - split; split.
    + intros _. eexists _, _. reflexivity.
    + intros _. apply Hmem. reflexivity.
    + intros Hnot. exfalso. apply Hnot, Hmem. reflexivity.
    + intros [= H _ _]. lia.
  - split; split.
    + intros H. apply Hmem in H. discriminate.
    + intros (c' & m' & [= H _ _]). lia.
    + intros _. reflexivity.
    + intros _ H. apply Hmem in H. discriminate.
Qed.

Lemma asg_counted_by_whole_subnet_id_witness :
  ~ whole_element ","%char "subnet-1" "subnet-11,subnet-2" /\
  whole_element ","%char "subnet-2" "subnet-11,subnet-2".
Proof.
  split.
  - apply (proj2 (asg_counted_by_whole_subnet_id canonical "subnet-1" ∅ 0 0 0
                    {| VPCZoneIdentifier := "subnet-11,subnet-2"; Instances := [];
                       MaxSize := 1 |}
                    ltac:(vm_compute; intuition discriminate))).
    vm_compute. reflexivity.
  - apply (proj1 (asg_counted_by_whole_subnet_id canonical "subnet-2" ∅ 0 0 0
                    {| VPCZoneIdentifier := "subnet-11,subnet-2"; Instances := [];
                       MaxSize := 1 |}
                    ltac:(vm_compute; intuition discriminate))).
    eexists _, _. vm_compute. reflexivity.
Defined.

(** ** The two variants on the autoscaling groups *)

Lemma asg_loops_variants (rt : Runtime) (subnet_id : string)
    (ec2_ips : gmap string string) (asgs : list AutoScalingGroup) :
  forall (count curr max members : Z),
  for_each (V1.asg_count rt subnet_id ec2_ips) asgs (count, curr, max + members)
  = (let '(n, c, m) := fst (for_each (V2.asg_count rt subnet_id ec2_ips) asgs
                                     (count, curr, max)) in
     (n, c, m + members
            + Spec.sumZ (map (fun asg => len (Instances asg))
                             (List.filter (Spec.asg_in_subnet subnet_id) asgs))),
     snd (for_each (V2.asg_count rt subnet_id ec2_ips) asgs (count, curr, max))).
Proof.
  induction asgs as [|asg asgs IH]; intros count curr max members.
  - simpl. do 2 f_equal. lia.
  - cbn [for_each List.filter]. unfold V1.asg_count at 1, V2.asg_count at 1 3.
    change (Str.mem subnet_id (Str.split ","%char (VPCZoneIdentifier asg)))
      with (Spec.asg_in_subnet subnet_id asg).
    destruct (Spec.asg_in_subnet subnet_id asg); cbn [negb].
    + replace (max + members + MaxSize asg)
        with (max + (MaxSize asg - len (Instances asg))
              + (members + len (Instances asg))) by lia.
      rewrite IH.
      destruct (for_each _ asgs _) as [[[n c] m] e]. cbn [fst snd map Spec.sumZ foldr].
      f_equal. f_equal. unfold Spec.sumZ. lia.
    + apply IH.
Qed.

(** X9. The two variants of [_handle_asgs] raise the same exception
    or return the same count and the same current figure; the maximum of the
    first variant is the maximum of the second plus the number of members of
    the groups of the subnet. *)
Theorem handle_asgs_variants (rt : Runtime) (w : AWS) (subnet_id : string)
    (ec2_ips : gmap string string) :
  V1._handle_asgs rt w subnet_id ec2_ips
  = match V2._handle_asgs rt w subnet_id ec2_ips with
    | Ok (count, curr, max) =>
        Ok (count, curr,
            max + Spec.sumZ (map (fun asg => len (Instances asg))
                               (List.filter (Spec.asg_in_subnet subnet_id)
                                  (concat (pages (describe_auto_scaling_groups w))))))
    | Raise e => Raise e
    end.
Proof.
  unfold V1._handle_asgs, V2._handle_asgs, for_pages.
  pose proof (asg_loops_variants rt subnet_id ec2_ips
                (concat (pages (describe_auto_scaling_groups w))) 0 0 0 0) as H.
  change (0 + 0) with 0 in H. rewrite H.
  destruct (for_each (V2.asg_count rt subnet_id ec2_ips) _ _) as [[[n c] m] [e|]];
    cbn [fst snd propagate]; [reflexivity|].
  destruct (error _); cbn [propagate]; [reflexivity|].
  f_equal. f_equal. lia.
Qed.

(** ** The EKS instances *)

(** X10. When no holder of the instance records starts with ["i-"],
    [_handle_eks] returns no instance and no cluster, without a warning, and
    whatever [describe_instances] would answer. *)
Theorem handle_eks_without_instances (rt : Runtime) (w : AWS)
    (ec2_ips : gmap string string) :
  RuntimeOk rt ->
  (forall ip holder, ec2_ips !! ip = Some holder -> Str.startswith holder "i-" = false) ->
  V2._handle_eks rt w ec2_ips = ([], Ok (0, [])).
Proof.
  intros Hrt Hnone. unfold V2._handle_eks.
  assert (V2.eks_instance_ids rt ec2_ips = []) as ->; [|reflexivity].
  unfold V2.eks_instance_ids.
  assert (filter (fun iid => Is_true (Str.startswith iid "i-"))
            (iter_set rt (list_to_set (map snd (iter_items rt ec2_ips)))) = []) as ->;
    [|reflexivity].
  destruct (filter _ _) as [|iid rest] eqn:E; [reflexivity|]. exfalso.
  assert (iid ∈ filter (fun iid => Is_true (Str.startswith iid "i-"))
            (iter_set rt (list_to_set (map snd (iter_items rt ec2_ips))))) as Hin
    by (rewrite E; left).
  apply list_elem_of_filter in Hin as [Hstarts Hin].
  rewrite (set_perm rt Hrt) in Hin. apply elem_of_elements, elem_of_list_to_set in Hin.
  apply list_elem_of_In, in_map_iff in Hin as ([ip holder] & Heq & Hitem).
  simpl in Heq. subst holder.
  apply list_elem_of_In in Hitem. rewrite (items_perm rt Hrt) in Hitem.
  apply elem_of_map_to_list in Hitem.
  rewrite (Hnone ip iid Hitem) in Hstarts. exact Hstarts.
Qed.

Lemma handle_eks_without_instances_witness :
  V2._handle_eks canonical
    {| subnet := Fixtures.subnet_1 0;
       enis_in_subnet := Ok [];
       enis_by_description := fun _ => Ok [];
       instances_by_ni_subnet := Fixtures.one_page [];
       instances_by_subnet := Fixtures.one_page [];
       instances_by_ids := fun _ => {| pages := []; error := Some BotoCoreError |};
       describe_auto_scaling_groups := Fixtures.one_page [];
       describe_load_balancers := Fixtures.one_page [] |}
    {["10.0.1.10" := "eni-1 / ELB myelb"]}
  = ([], Ok (0, [])).
Proof.
  apply handle_eks_without_instances; [exact canonical_ok|].
  intros ip holder H. apply lookup_singleton_Some in H as [_ <-]. reflexivity.
Defined.

Lemma dict_append_keys {X} (k : string) (x : X) (d : list (string * list X)) :
  map fst (V2.dict_append k x d)
  = if bool_decide (k ∈ map fst d) then map fst d else (map fst d ++ [k])%list.
Proof.
  induction d as [|[k' l] d IH]; simpl; [reflexivity|].
  destruct (String.eqb k k') eqn:E.
  - apply String.eqb_eq in E. subst k'. simpl.
    rewrite bool_decide_eq_true_2 by left. reflexivity.
  - apply String.eqb_neq in E. simpl. rewrite IH.
    destruct (bool_decide (k ∈ map fst d)) eqn:Hd.
    + apply bool_decide_eq_true_1 in Hd.
      rewrite bool_decide_eq_true_2 by (right; exact Hd). reflexivity.
    + apply bool_decide_eq_false_1 in Hd.
      rewrite bool_decide_eq_false_2; [reflexivity|].
      intros H. inversion H; subst; contradiction.
Qed.

Lemma dict_append_sum {X} (k : string) (x : X) (d : list (string * list X)) :
  Spec.sumZ (map (fun entry => len (snd entry)) (V2.dict_append k x d))
  = Spec.sumZ (map (fun entry => len (snd entry)) d) + 1.
Proof.
  induction d as [|[k' l] d IH]; simpl.
  - unfold len. simpl. lia.
  - destruct (String.eqb k k'); simpl.
    + unfold len. rewrite length_app. simpl. lia.
    + rewrite IH. lia.
Qed.

Lemma dict_append_entries {X} (P : string * list X -> Prop) (k : string) (x : X)
    (d : list (string * list X)) :
  (forall l, P (k, (l ++ [x])%list)) -> P (k, [x]) ->
  Forall P d -> Forall P (V2.dict_append k x d).
Proof.
  intros Hupd Hnew. induction 1 as [|[k' l] d Hk Hd IH]; simpl.
  - repeat constructor. exact Hnew.
  - destruct (String.eqb k k') eqn:E.
    + apply String.eqb_eq in E. subst k'. constructor; [apply Hupd|exact Hd].
    + constructor; [exact Hk|exact IH].
Qed.

Lemma eks_record_keeps (st st' : V2.eks_state) (inst : Instance) :
  eks_state_ok st -> V2.eks_record st inst = Ok st' -> eks_state_ok st'.
Proof.
  intros (Hsum & Hnodup & Hall). unfold V2.eks_record.
  destruct (V2.cluster_name_of (Tags inst)) as [name|]; [|intros [= <-]; repeat split; assumption].
  destruct (String.eqb name EmptyString) eqn:E; [intros [= <-]; repeat split; assumption|].
  apply String.eqb_neq in E. intros [= <-]. split; [|split]; cbn [fst snd].
  - rewrite dict_append_sum, Hsum. reflexivity.
  - rewrite dict_append_keys. case_bool_decide as Hin; [exact Hnodup|].
    apply NoDup_app. split; [exact Hnodup|]. split.
    + intros x Hx Hx'. apply list_elem_of_singleton in Hx'. subst x. contradiction.
    + apply NoDup_singleton.
  - apply dict_append_entries; [| |exact Hall].
    + intros l. split; [exact E|]. destruct l; discriminate.
    + split; [exact E|discriminate].
Qed.

(** X11. What [_handle_eks] returns is consistent: the count is the
    number of instances that the clusters list, no cluster is listed twice or
    under an empty name, and every listed cluster has an instance. *)
Theorem handle_eks_details_agree (rt : Runtime) (w : AWS) (ec2_ips : gmap string string)
    (out : list line) (st : V2.eks_state) :
  V2._handle_eks rt w ec2_ips = (out, Ok st) -> eks_state_ok st.
Proof.
  assert (eks_state_ok (0, [])) as H0.
  { repeat split; simpl; constructor. }
  unfold V2._handle_eks. destruct (V2.eks_instance_ids rt ec2_ips) as [|iid ids].
  - intros [= <- <-]. exact H0.
  - unfold V2.for_instances, for_pages. cbn [pages error].
    set (l := concat _). 
    pose proof (for_each_invariant eks_state_ok (fun _ => True) V2.eks_record l
                  (fun s a s' _ Hs E => eks_record_keeps s s' a Hs E)
                  (Forall_true _ _ (fun _ => I)) (0, []) H0) as Hinv.
    destruct (for_each V2.eks_record l (0, [])) as [st1 [e|]]; cbn [fst] in Hinv.
    + destruct e; simpl; intros [= <- <-] || intros [=]. exact Hinv.
    + destruct (error _) as [[]|]; simpl; intros [= <- <-] || intros [=]; exact Hinv.
Qed.

Lemma handle_eks_details_agree_witness :
  eks_state_ok (2, [("c1", [("i-1", "10.0.1.20")]); ("c2", [("i-2", "10.0.1.21")])]).
Proof.
  apply (handle_eks_details_agree canonical Fixtures.one_asg
           {["10.0.1.20" := "i-1"; "10.0.1.21" := "i-2"]} []).
  vm_compute. reflexivity.
Defined.

Lemma find_none_of {A} (f : A -> bool) (l : list A) :
  (forall x, In x l -> f x = false) -> List.find f l = None.
Proof.
  induction l as [|a l IH]; simpl; intros H; [reflexivity|].
  rewrite (H a (or_introl eq_refl)). apply IH. intros x Hx. apply H. right. exact Hx.
Qed.

Lemma find_first {A} (f : A -> bool) (before after : list A) (a : A) :
  (forall x, In x before -> f x = false) -> f a = true ->
  List.find f (before ++ a :: after) = Some a.
Proof.
  induction before as [|b before IH]; simpl; intros H Ha.
  - rewrite Ha. reflexivity.
  - rewrite (H b (or_introl eq_refl)). apply IH; [|exact Ha].
    intros x Hx. apply H. right. exact Hx.
Qed.

Lemma prefix_append (p s : string) : String.prefix p (p ++ s) = true.
Proof.
  induction p as [|c p IH]; [destruct s; reflexivity|].
  rewrite append_cons. simpl. destruct (ascii_dec c c); [exact IH|contradiction].
Qed.

(** X12. An instance without the tag [eks:cluster-name] whose first
    tag key of prefix ["kubernetes.io/cluster/"] is that prefix followed by a
    name without ["/"] is recorded under that name; it is not recorded when
    the name is empty. *)
Theorem eks_record_kubernetes_key (st : V2.eks_state) (inst : Instance)
    (before after : list (string * string)) (name value : string) :
  Tags inst
  = (before ++ (("kubernetes.io/cluster/" ++ name)%string, value) :: after)%list ->
  (forall kv, In kv before ->
     fst kv <> "eks:cluster-name" /\
     Str.startswith (fst kv) "kubernetes.io/cluster/" = false) ->
  (forall kv, In kv after -> fst kv <> "eks:cluster-name") ->
  ~ In "/"%char (list_ascii_of_string name) ->
  V2.eks_record st inst
  = Ok (if String.eqb name EmptyString then st
        else (fst st + 1,
              V2.dict_append name
                (InstanceId inst, default "N/A" (PrivateIpAddress inst)) (snd st))).
Proof.
  intros Htags Hbefore Hafter Hname.
  assert (V2.cluster_name_of (Tags inst) = Some name) as Hc.
  { unfold V2.cluster_name_of, V2.tag_value. rewrite Htags.
    rewrite find_none_of.
    - cbn [fmap option_fmap option_map].
      rewrite (find_first _ before after).
      + cbn [fst]. f_equal.
        change ("kubernetes.io/cluster/" ++ name)
          with ("kubernetes.io" ++ String "/" ("cluster" ++ String "/" name)).
        rewrite !split_app, (split_one "/" name) by exact Hname.
        reflexivity.
      + intros kv Hkv. apply (Hbefore kv Hkv).
      + cbn [fst]. apply prefix_append.
    - intros kv Hkv. apply in_rev in Hkv. apply in_app_or in Hkv.
      apply String.eqb_neq.
      destruct Hkv as [Hkv | [<- | Hkv]].
      + apply (Hbefore kv Hkv).
      + cbn [fst]. intros H. discriminate H.
      + apply (Hafter kv Hkv). }
  unfold V2.eks_record. rewrite Hc.
  destruct (String.eqb name EmptyString); reflexivity.
Qed.

Lemma eks_record_kubernetes_key_witness :
  V2.eks_record (0, []) (Fixtures.instance "i-2" "10.0.1.21"
                           [("Name", "node"); ("kubernetes.io/cluster/c2", "owned")])
  = Ok (1, [("c2", [("i-2", "10.0.1.21")])]).
Proof.
  apply (eks_record_kubernetes_key (0, [])
           (Fixtures.instance "i-2" "10.0.1.21"
              [("Name", "node"); ("kubernetes.io/cluster/c2", "owned")])
           [("Name", "node")] [] "c2" "owned").
  - reflexivity.
  - intros kv [<- | []]. split; [discriminate|reflexivity].
  - intros kv [].
  - vm_compute. intuition discriminate.
Defined.

(** X13. [_ips_for_subnet] on the blocks of prefix length 28 and
    more.  For /28 and /29 it returns the block without its first 4 and its
    last address, as for larger blocks; for /30 and /31 it returns no
    address (the block not being the last of the address space); for /32 it
    returns the one address of the block. *)
Theorem ips_for_small_blocks (cidr : string) (net : Netaddr.IPNetwork) :
  Netaddr.parse cidr = Some net ->
  28 <= Netaddr.prefixlen net ->
  (30 <= Netaddr.prefixlen net <= 31 -> Netaddr.last net < Netaddr.max_int) ->
  _ips_for_subnet cidr
  = Some (if Netaddr.prefixlen net <=? 29
          then map (fun i => Netaddr.str (Netaddr.first net + 4 + Z.of_nat i))
                   (seq 0 (Z.to_nat (2 ^ (32 - Netaddr.prefixlen net) - 5)))
          else if Netaddr.prefixlen net =? 32 then [Netaddr.str (Netaddr.value net)]
          else []).
Proof.
  intros Hparse Hp _.
  destruct (parse_bounds _ _ Hparse) as [Hv Hpb].
  pose proof (size_spec net Hv Hpb) as Hsize.
  pose proof (first_spec net Hv Hpb) as Hfirst.
  unfold _ips_for_subnet. rewrite Hparse. f_equal.
  assert (Netaddr.prefixlen net = 28 \/ Netaddr.prefixlen net = 29 \/
          Netaddr.prefixlen net = 30 \/ Netaddr.prefixlen net = 31 \/
          Netaddr.prefixlen net = 32) as Hcases by lia.
  destruct Hcases as [E | [E | [E | [E | E]]]]; rewrite E in *;
    cbn [Z.leb Z.eqb Z.compare Pos.compare Pos.compare_cont Pos.eqb] in *.
  - rewrite getitem_slice_4_m1 by (rewrite Hsize; vm_compute; discriminate).
    rewrite Hsize, map_map. reflexivity.
  - rewrite getitem_slice_4_m1 by (rewrite Hsize; vm_compute; discriminate).
    rewrite Hsize, map_map. reflexivity.
  - unfold Netaddr.getitem_slice, Netaddr.slice_indices. rewrite Hsize.
    change (Netaddr.clip (2 ^ (32 - 30)) 4) with 4.
    change (Netaddr.clip (2 ^ (32 - 30)) (-1)) with 3.
    cbn [Z.ltb Z.add Z.compare Pos.compare Pos.compare_cont Pos.add orb Pos.succ].
    unfold Netaddr.iter_iprange.
    replace (Netaddr.first net + 3 - 1 - (Netaddr.first net + 4) + 1) with (-1) by lia.
    reflexivity.
  - unfold Netaddr.getitem_slice, Netaddr.slice_indices. rewrite Hsize.
    change (Netaddr.clip (2 ^ (32 - 31)) 4) with 2.
    change (Netaddr.clip (2 ^ (32 - 31)) (-1)) with 1.
    cbn [Z.ltb Z.add Z.compare Pos.compare Pos.compare_cont Pos.add orb Pos.succ].
    unfold Netaddr.iter_iprange.
    replace (Netaddr.first net + 1 - 1 - (Netaddr.first net + 2) + 1) with (-1) by lia.
    reflexivity.
  - unfold Netaddr.getitem_slice, Netaddr.slice_indices. rewrite Hsize.
    change (Netaddr.clip (2 ^ (32 - 32)) 4) with 1.
    change (Netaddr.clip (2 ^ (32 - 32)) (-1)) with 0.
    cbn [Z.ltb Z.add Z.compare Pos.compare Pos.compare_cont Pos.add orb Pos.succ].
    rewrite Hfirst. change (2 ^ (32 - 32)) with 1.
    rewrite Z.div_1_r, Z.mul_1_l. reflexivity.
Qed.

Lemma ips_for_small_blocks_witness :
  _ips_for_subnet "10.0.1.0/28"
  = Some ["10.0.1.4"; "10.0.1.5"; "10.0.1.6"; "10.0.1.7"; "10.0.1.8"; "10.0.1.9";
          "10.0.1.10"; "10.0.1.11"; "10.0.1.12"; "10.0.1.13"; "10.0.1.14"] /\
  _ips_for_subnet "10.0.1.8/30" = Some [] /\
  _ips_for_subnet "10.0.1.9/32" = Some ["10.0.1.9"].
Proof.
  split; [|split].
  - apply (ips_for_small_blocks "10.0.1.0/28"
             {| Netaddr.value := 167772416; Netaddr.prefixlen := 28 |}).
    + vm_compute. reflexivity.
    + simpl. lia.
    + simpl. lia.
  - apply (ips_for_small_blocks "10.0.1.8/30"
             {| Netaddr.value := 167772424; Netaddr.prefixlen := 30 |}).
    + vm_compute. reflexivity.
    + simpl. lia.
    + intros _. vm_compute. reflexivity.
  - apply (ips_for_small_blocks "10.0.1.9/32"
             {| Netaddr.value := 167772425; Netaddr.prefixlen := 32 |}).
    + vm_compute. reflexivity.
    + simpl. lia.
    + simpl. lia.
Defined.

(** ** Exceptions that end the run *)

(** X14. When the listing of the autoscaling groups ends with an
    exception, and the other calls succeed, the run ends with that exception
    after the line of the NLB figures: no figure of the groups, no
    summary. *)
Theorem asg_error_ends_the_run (rt : Runtime) (w : AWS) (e : exn) :
  RuntimeOk rt ->
  Spec.collectors_ok
    (Fixtures.with_auto_scaling_groups w
       {| pages := pages (describe_auto_scaling_groups w); error := None |}) ->
  error (describe_auto_scaling_groups w) = Some e ->
  exists (ips : list string) used count curr max nlb_out n c m,
    V2.show_subnet_usage rt w
    = (([FoundSubnet (SubnetId (subnet w)) (CidrBlock (subnet w))
           (AvailableIpAddressCount (subnet w));
         UsedOutOfTotal used (len ips); FoundELBs count curr max]
        ++ nlb_out ++ [FoundNLBs n c m])%list, Raise e) /\
    forall l, In l nlb_out -> l = LogWarning "Error querying NLBs".
Proof.
  intros Hrt Hok Herr.
  set (w0 := Fixtures.with_auto_scaling_groups w _) in Hok.
  unfold V2.show_subnet_usage.
  destruct (Spec.cidr_ok w0 Hok) as [ips Hips].
  change (_ips_for_subnet (CidrBlock (subnet w)) = Some ips) in Hips. rewrite Hips. run.
  pose proof (Spec.enis_ok w0 Hok) as Henis.
  change (is_ok (enis_in_subnet w) = true) in Henis.
  unfold V2._find_used_eni. destruct (enis_in_subnet w) as [enis|]; [|discriminate]. run.
  destruct (find_used_ec2_instances_ok w0 ips Hok) as [ec2_ips Hec2].
  change (V2._find_used_ec2_instances w ips = Ok ec2_ips) in Hec2. rewrite Hec2. run.
  rewrite (handle_elbs_ok rt Hrt).
  2:{ apply forallb_forall. intros name _. apply (Spec.elb_queries_ok w0 Hok). }
  run.
  rewrite (handle_nlbs_spec rt Hrt), (handle_asgs_spec rt Hrt). cbn zeta. rewrite Herr.
  pose proof (Spec.lbs_ok w0 Hok) as Hlbs.
  change (Spec.caught (error (describe_load_balancers w))) in Hlbs.
  destruct Hlbs as [-> | ->]; run.
  - eexists ips, _, _, _, _, [], _, _, _. split; [reflexivity|]. intros l [].
  - eexists ips, _, _, _, _, [_], _, _, _. split; [reflexivity|].
    intros l [<-|[]]. reflexivity.
Qed.

Lemma asg_error_ends_the_run_witness :
  exists out,
    V2.show_subnet_usage canonical
      (Fixtures.with_auto_scaling_groups Fixtures.two_elb_enis
         {| pages := []; error := Some BotoCoreError |})
    = (out, Raise BotoCoreError).
Proof.
  destruct (asg_error_ends_the_run canonical
              (Fixtures.with_auto_scaling_groups Fixtures.two_elb_enis
                 {| pages := []; error := Some BotoCoreError |})
              BotoCoreError canonical_ok)
    as (ips & used & count & curr & max & nlb_out & n & c & m & Hrun & _).
  - split; try reflexivity; try (intros; left; reflexivity).
    eexists. vm_compute. reflexivity.
  - reflexivity.
  - eexists. exact Hrun.
Defined.

(** X15. When the listing of the load balancers ends with an
    exception other than [ClientError], and the other calls succeed, the run
    ends with that exception after the line of the Classic/ALB figures: no
    figure of the NLBs, no summary. *)
Theorem nlb_other_error_ends_the_run (rt : Runtime) (w : AWS) (e : exn) :
  RuntimeOk rt ->
  Spec.collectors_ok
    (Fixtures.with_load_balancers w
       {| pages := pages (describe_load_balancers w); error := None |}) ->
  error (describe_load_balancers w) = Some e ->
  e <> ClientError ->
  exists (ips : list string) used count curr max,
    V2.show_subnet_usage rt w
    = ([FoundSubnet (SubnetId (subnet w)) (CidrBlock (subnet w))
          (AvailableIpAddressCount (subnet w));
        UsedOutOfTotal used (len ips); FoundELBs count curr max], Raise e).
Proof.
  intros Hrt Hok Herr Hne.
  set (w0 := Fixtures.with_load_balancers w _) in Hok.
  unfold V2.show_subnet_usage.
  destruct (Spec.cidr_ok w0 Hok) as [ips Hips].
  change (_ips_for_subnet (CidrBlock (subnet w)) = Some ips) in Hips. rewrite Hips. run.
  pose proof (Spec.enis_ok w0 Hok) as Henis.
  change (is_ok (enis_in_subnet w) = true) in Henis.
  unfold V2._find_used_eni. destruct (enis_in_subnet w) as [enis|]; [|discriminate]. run.
  destruct (find_used_ec2_instances_ok w0 ips Hok) as [ec2_ips Hec2].
  change (V2._find_used_ec2_instances w ips = Ok ec2_ips) in Hec2. rewrite Hec2. run.
  rewrite (handle_elbs_ok rt Hrt).
  2:{ apply forallb_forall. intros name _. apply (Spec.elb_queries_ok w0 Hok). }
  run.
  rewrite (handle_nlbs_spec rt Hrt). cbn zeta. rewrite Herr.
  destruct e; try contradiction; run; eexists ips, _, _, _, _; reflexivity.
Qed.

Lemma nlb_other_error_ends_the_run_witness :
  exists out,
    V2.show_subnet_usage canonical
      (Fixtures.with_load_balancers Fixtures.two_elb_enis
         {| pages := []; error := Some BotoCoreError |})
    = (out, Raise BotoCoreError).
Proof.
  destruct (nlb_other_error_ends_the_run canonical
              (Fixtures.with_load_balancers Fixtures.two_elb_enis
                 {| pages := []; error := Some BotoCoreError |})
              BotoCoreError canonical_ok)
    as (ips & used & count & curr & max & Hrun).
  - split; try reflexivity; try (intros; left; reflexivity).
    eexists. vm_compute. reflexivity.
  - reflexivity.
  - discriminate.
  - eexists. exact Hrun.
Defined.

(** ** The theoretical maximum and the addresses in use *)

(** X16. In a report, the theoretical maximum is not below the
    number of addresses in use, provided that no group of the subnet has more
    members than its maximal size. *)
Theorem maximum_not_below_used (rt : Runtime) (w : AWS) (out : list line) :
  RuntimeOk rt ->
  V2.show_subnet_usage rt w = (out, Ok tt) ->
  (forall asg, In asg (concat (pages (describe_auto_scaling_groups w))) ->
     Spec.asg_in_subnet (SubnetId (subnet w)) asg = true ->
     len (Instances asg) <= MaxSize asg) ->
  exists usable used total,
    List.last out DriftWarning = Summary usable used total /\ 0 <= used <= total.
Proof.
  intros Hrt H Hasg.
  destruct (show_subnet_usage_completes _ _ _ H)
    as (ips & eni_ips & ec2_ips & elb & o1 & nlb & asg & o2 & eks
        & E1 & E2 & E3 & E4 & E5 & E6 & E7 & ->).
  cbn zeta in *.
  eexists _, _, _. split.
  { rewrite !app_assoc. apply last_last. }
  split; [lia|].
  assert (0 <= elb.2) as Helb.
  { destruct (forallb (Spec.elb_query_ok w)
                (elements (Spec.elb_names (V2.used_ips_of eni_ips ec2_ips)))) eqn:E.
    - rewrite (handle_elbs_ok rt Hrt _ _ E) in E4. injection E4 as <-. cbn [snd].
      unfold ELB_MAX_IPS. lia.
    - destruct (handle_elbs_fail rt Hrt _ _ E) as [e He]. congruence. }
  assert (0 <= nlb.2) as Hnlb.
  { rewrite (handle_nlbs_spec rt Hrt) in E5. cbn zeta in E5.
    assert (nlb.2 = ELB_MAX_IPS * len (List.filter
              (Spec.nlb_in_subnet (SubnetId (subnet w)))
              (concat (pages (describe_load_balancers w))))) as ->.
    { destruct (error (describe_load_balancers w)) as [[]|];
        try discriminate E5; injection E5 as _ <-; reflexivity. }
    unfold ELB_MAX_IPS, len. lia. }
  assert (0 <= asg.2) as Hasg2.
  { rewrite (handle_asgs_spec rt Hrt) in E6. cbn zeta in E6.
    destruct (error (describe_auto_scaling_groups w)); [discriminate|].
    injection E6 as <-. cbn [snd].
    apply sumZ_nonneg. apply List.Forall_forall. intros x Hx.
    apply in_map_iff in Hx as (g & <- & Hg). apply filter_In in Hg as [Hin Hsub].
    unfold Spec.asg_maximum. specialize (Hasg g Hin Hsub). lia. }
  lia.
Qed.

Lemma maximum_not_below_used_witness :
  exists usable used total,
    List.last (fst (V2.show_subnet_usage canonical Fixtures.one_asg)) DriftWarning
    = Summary usable used total /\ 0 <= used <= total.
Proof.
  apply (maximum_not_below_used canonical Fixtures.one_asg _ canonical_ok).
  - vm_compute. reflexivity.
  - intros asg Hin Hsub. vm_compute in Hin.
    destruct Hin as [<- | [<- | []]]; [vm_compute; discriminate|discriminate Hsub].
Defined.

(** ** The patterns of [_find_subnet] *)

Lemma try_counts_spec (k : nat -> bool) (lo : nat) : forall n : nat,
  (lo <= n)%nat ->
  Rx.try_counts k lo n = true <-> exists i : nat, (lo <= i <= n)%nat /\ k i = true.
Proof.
  induction n as [|n IH]; intros Hlo; simpl.
  - rewrite orb_false_r. split.
    + intros H. exists 0%nat. split; [lia|exact H].
    + intros (i & Hi & H). replace i with 0%nat in H by lia. exact H.
  - destruct (n <? lo)%nat eqn:E.
    + apply Nat.ltb_lt in E. rewrite orb_false_r. split.
      * intros H. exists (S n). split; [lia|exact H].
      * intros (i & Hi & H). replace i with (S n) in H by lia. exact H.
    + apply Nat.ltb_ge in E. rewrite orb_true_iff, (IH E). split.
      * intros [H | (i & Hi & H)]; [exists (S n)|exists i]; (split; [lia|exact H]).
      * intros (i & Hi & H). destruct (Nat.eq_dec i (S n)) as [->|Hne].
        -- left. exact H.
        -- right. exists i. split; [lia|exact H].
Qed.

Lemma firstn_run_length (a : Re.atom) : forall (s : list ascii) (i : nat),
  (i <= Re.run_length a s)%nat ->
  Forall (fun c => Re.accepts a c = true) (firstn i s) /\ length (firstn i s) = i.
Proof.
  induction s as [|c s IH]; intros i Hi; simpl in Hi.
  - replace i with 0%nat by lia. split; [constructor|reflexivity].
  - destruct i as [|i]; [split; [constructor|reflexivity]|].
    destruct (Re.accepts a c) eqn:E; [|lia].
    destruct (IH i ltac:(lia)) as [HF HL]. simpl. split; [|lia].
    constructor; [exact E|exact HF].
Qed.

(** A bounded repetition before a character that it does not accept takes
    the whole run. *)
Lemma repeat_then_chr (a : Re.atom) (lo : nat) (hi : option nat) (c : ascii)
    (p : list Rx.node) (pos : nat) (s : list ascii) :
  Re.accepts a c = false ->
  Rx.matches (Rx.Repeat a lo hi :: Rx.One (Re.Chr c) :: p) pos s = true <->
  exists x rest,
    s = (x ++ c :: rest)%list /\ (lo <= length x)%nat /\ bounded (length x) hi /\
    Forall (fun c => Re.accepts a c = true) x /\
    Rx.matches p (S (pos + length x)) rest = true.
Proof.
  intros Hc. cbn [Rx.matches].
  set (n := match hi with Some h => Nat.min h (Re.run_length a s)
            | None => Re.run_length a s end).
  rewrite andb_true_iff, Nat.leb_le. split.
  - intros [Hlo H]. apply (try_counts_spec _ lo n Hlo) in H as (i & Hi & H).
    destruct (skipn i s) as [|c' s'] eqn:Es; [discriminate|].
    apply andb_true_iff in H as [Hc' H]. cbn [Re.accepts] in Hc'.
    apply Ascii.eqb_eq in Hc'. subst c'.
    assert (i <= Re.run_length a s)%nat as Hrun by (unfold n in Hi; destruct hi; lia).
    destruct (firstn_run_length a s i Hrun) as [HF HL].
    exists (firstn i s), s'. rewrite HL. repeat split.
    + rewrite <- Es. symmetry. apply firstn_skipn.
    + lia.
    + unfold bounded, n in *. destruct hi; [lia|exact I].
    + exact HF.
    + exact H.
  - intros (x & rest & -> & Hlo & Hhi & Hx & H).
    assert (n = length x) as ->.
    { unfold n. rewrite (run_length_prefix a x (c :: rest) Hx Hc).
      unfold bounded in Hhi. destruct hi; lia. }
    split; [exact Hlo|].
    apply (try_counts_spec _ lo (length x) Hlo). exists (length x). split; [lia|].
    rewrite skipn_app, skipn_all, Nat.sub_diag. cbn [skipn app Re.accepts].
    rewrite Ascii.eqb_refl. exact H.
Qed.

(** A repetition that ends the pattern asks for its least count only. *)
Lemma repeat_last (a : Re.atom) (lo hi : nat) (pos : nat) (s : list ascii) :
  (lo <= hi)%nat ->
  Rx.matches [Rx.Repeat a lo (Some hi)] pos s = true <-> (lo <= Re.run_length a s)%nat.
Proof.
  intros Hhi. cbn [Rx.matches]. rewrite andb_true_iff, Nat.leb_le. split.
  - intros [H _]. lia.
  - intros H. split; [lia|].
    apply try_counts_spec; [lia|]. exists lo. split; [lia|reflexivity].
Qed.

(** An unbounded repetition before [$]. *)
Lemma repeat_then_eol (a : Re.atom) (lo : nat) (pos : nat) (s : list ascii) :
  Re.accepts a Re.newline = false ->
  Rx.matches [Rx.Repeat a lo None; Rx.Eol] pos s = true <->
  exists x,
    (lo <= length x)%nat /\ Forall (fun c => Re.accepts a c = true) x /\
    (s = x \/ s = (x ++ [Re.newline])%list).
Proof.
  intros Hnl. cbn [Rx.matches]. rewrite andb_true_iff, Nat.leb_le. split.
  - intros [Hlo H]. apply (try_counts_spec _ lo _ Hlo) in H as (i & Hi & H).
    destruct (firstn_run_length a s i ltac:(lia)) as [HF HL].
    exists (firstn i s). rewrite HL. split; [lia|split; [exact HF|]].
    rewrite <- (firstn_skipn i s) at 1 3.
    destruct (skipn i s) as [|c [|c' s']]; [| |discriminate].
    + left. apply app_nil_r.
    + right. rewrite andb_true_r in H. apply Ascii.eqb_eq in H. subst c. reflexivity.
  - intros (x & Hlo & Hx & Hs).
    assert (Re.run_length a s = length x) as ->.
    { destruct Hs as [-> | ->].
      - rewrite <- (app_nil_r x) at 1. apply run_length_prefix; [exact Hx|exact I].
      - apply run_length_prefix; [exact Hx|exact Hnl]. }
    split; [exact Hlo|].
    apply (try_counts_spec _ lo (length x) Hlo). exists (length x). split; [lia|].
    destruct Hs as [-> | ->].
    + rewrite skipn_all. reflexivity.
    + rewrite skipn_app, skipn_all, Nat.sub_diag. cbn [skipn app].
      rewrite Ascii.eqb_refl. reflexivity.
Qed.

Lemma bol_at_0 (p : list Rx.node) (s : list ascii) :
  Rx.matches (Rx.Bol :: p) 0 s = Rx.matches p 0 s.
Proof. reflexivity. Qed.

Lemma one_chr (c : ascii) (p : list Rx.node) (pos : nat) (s : list ascii) :
  Rx.matches (Rx.One (Re.Chr c) :: p) pos (c :: s) = Rx.matches p (S pos) s.
Proof. cbn [Rx.matches Re.accepts]. rewrite Ascii.eqb_refl. reflexivity. Qed.

Lemma string_of_list (l : list ascii) :
  exists s : string, list_ascii_of_string s = l.
Proof. exists (string_of_list_ascii l). apply list_ascii_of_string_of_list_ascii. Qed.

Lemma list_ascii_inj (s1 s2 : string) :
  list_ascii_of_string s1 = list_ascii_of_string s2 -> s1 = s2.
Proof.
  intros H. rewrite <- (string_of_list_ascii_of_string s1), H.
  apply string_of_list_ascii_of_string.
Qed.

Lemma length_list_ascii (s : string) :
  length (list_ascii_of_string s) = String.length s.
Proof. induction s as [|c s IH]; simpl; [reflexivity|]. rewrite IH. reflexivity. Qed.

(** X17. The queries that [_find_subnet] takes for a subnet id:
    ["subnet-"] followed by one hexadecimal digit or more, and then nothing
    or one newline. *)
Theorem subnet_id_queries (query : string) :
  Rx.match_ SUBNET_ID_RE query = true <->
  exists h, run_of hex_digit 1 None h /\
            (query = "subnet-" ++ h \/ query = "subnet-" ++ h ++ trailing_newline).
Proof.
  unfold Rx.match_. split.
  - intros H.
    destruct (list_ascii_of_string query)
      as [|c1 [|c2 [|c3 [|c4 [|c5 [|c6 [|c7 s]]]]]]] eqn:Eq;
      cbn [SUBNET_ID_RE Rx.lit list_ascii_of_string map app Rx.matches Nat.eqb andb] in H;
      repeat match type of H with
      | (Re.accepts (Re.Chr _) ?c && _) = true =>
          let E := fresh "E" in
          apply andb_true_iff in H as [E H]; cbn [Re.accepts] in E;
          apply Ascii.eqb_eq in E; subst c
      end;
      try discriminate H.
    change (Rx.matches [Rx.Repeat hex_digit 1 None; Rx.Eol] 7 s = true) in H.
    apply (proj1 (repeat_then_eol hex_digit _ _ _ eq_refl)) in H as (x & Hlo & Hx & Hs).
    destruct (string_of_list x) as (h & <-).
    exists h. split.
    + rewrite length_list_ascii in Hlo. repeat split; [exact Hlo|exact Hx].
    + destruct Hs as [-> | ->]; [left|right]; apply list_ascii_inj; rewrite Eq;
        rewrite !list_ascii_of_string_app; reflexivity.
  - intros (h & (Hlo & _ & Hh) & Hq).
    assert (exists tail : list ascii,
              (tail = [] \/ tail = [Re.newline]) /\
              list_ascii_of_string query
              = (list_ascii_of_string "subnet-" ++ list_ascii_of_string h ++ tail)%list)
      as (tail & Htail & ->).
    { destruct Hq as [-> | ->].
      - exists []. split; [left; reflexivity|].
        rewrite list_ascii_of_string_app, app_nil_r. reflexivity.
      - exists [Re.newline]. split; [right; reflexivity|].
        rewrite !list_ascii_of_string_app. reflexivity. }
    unfold SUBNET_ID_RE. cbn [Rx.lit list_ascii_of_string map app].
    rewrite bol_at_0, !one_chr.
    apply (proj2 (repeat_then_eol hex_digit _ _ _ eq_refl)).
    exists (list_ascii_of_string h). rewrite length_list_ascii.
    split; [exact Hlo|split; [exact Hh|]].
    destruct Htail as [-> | ->]; [left; apply app_nil_r|right; reflexivity].
Qed.

(** X18. The queries that [_find_subnet] takes for a CIDR block:
    four runs of one to three digits separated by ["."], then ["/"] and a
    digit, and then anything. *)
Theorem cidr_block_queries (query : string) :
  Rx.match_ CIDR_BLOCK_RE query = true <->
  exists a b c d p rest,
    query = a ++ "." ++ b ++ "." ++ c ++ "." ++ d ++ "/" ++ p ++ rest /\
    run_of any_digit 1 (Some 3%nat) a /\ run_of any_digit 1 (Some 3%nat) b /\
    run_of any_digit 1 (Some 3%nat) c /\ run_of any_digit 1 (Some 3%nat) d /\
    run_of any_digit 1 (Some 1%nat) p.
Proof.
  unfold Rx.match_, CIDR_BLOCK_RE. rewrite bol_at_0. split.
  - intros H.
    apply (proj1 (repeat_then_chr any_digit 1 (Some 3%nat) "."%char _ _ _ eq_refl)) in H as (a & r1 & E1 & La & Ha & Fa & H).
    apply (proj1 (repeat_then_chr any_digit 1 (Some 3%nat) "."%char _ _ _ eq_refl)) in H as (b & r2 & -> & Lb & Hb & Fb & H).
    apply (proj1 (repeat_then_chr any_digit 1 (Some 3%nat) "."%char _ _ _ eq_refl)) in H as (c & r3 & -> & Lc & Hc & Fc & H).
    apply (proj1 (repeat_then_chr any_digit 1 (Some 3%nat) "/"%char _ _ _ eq_refl)) in H as (d & r4 & -> & Ld & Hd & Fd & H).
    apply (proj1 (repeat_last any_digit 1 2 _ _ ltac:(lia))) in H.
    destruct r4 as [|x rest]; [simpl in H; lia|].
    cbn [Re.run_length] in H. destruct (Re.accepts any_digit x) eqn:Ex; [|lia].
    destruct (string_of_list a) as (sa & <-). destruct (string_of_list b) as (sb & <-).
    destruct (string_of_list c) as (sc & <-). destruct (string_of_list d) as (sd & <-).
    rewrite length_list_ascii in *.
    exists sa, sb, sc, sd, (String x EmptyString), (string_of_list_ascii rest).
    repeat split; try assumption; try (cbn; lia).
    + apply list_ascii_inj. rewrite E1.
      rewrite !list_ascii_of_string_app. cbn [list_ascii_of_string app].
      rewrite list_ascii_of_string_of_list_ascii. reflexivity.
    + constructor; [exact Ex|constructor].
  - intros (a & b & c & d & p & rest & -> & (La & Ha & Fa) & (Lb & Hb & Fb)
            & (Lc & Hc & Fc) & (Ld & Hd & Fd) & (Lp & Hp & Fp)).
    rewrite !list_ascii_of_string_app. cbn [list_ascii_of_string app].
    apply (proj2 (repeat_then_chr any_digit 1 (Some 3%nat) "."%char _ _ _ eq_refl)).
    exists (list_ascii_of_string a), (list_ascii_of_string b ++ "."%char ::
      list_ascii_of_string c ++ "."%char :: list_ascii_of_string d ++ "/"%char ::
      list_ascii_of_string p ++ list_ascii_of_string rest)%list.
    rewrite length_list_ascii.
    split; [reflexivity|]. split; [exact La|]. split; [exact Ha|]. split; [exact Fa|].
    apply (proj2 (repeat_then_chr any_digit 1 (Some 3%nat) "."%char _ _ _ eq_refl)).
    exists (list_ascii_of_string b), (list_ascii_of_string c ++ "."%char ::
      list_ascii_of_string d ++ "/"%char ::
      list_ascii_of_string p ++ list_ascii_of_string rest)%list.
    rewrite length_list_ascii.
    split; [reflexivity|]. split; [exact Lb|]. split; [exact Hb|]. split; [exact Fb|].
    apply (proj2 (repeat_then_chr any_digit 1 (Some 3%nat) "."%char _ _ _ eq_refl)).
    exists (list_ascii_of_string c), (list_ascii_of_string d ++ "/"%char ::
      list_ascii_of_string p ++ list_ascii_of_string rest)%list.
    rewrite length_list_ascii.
    split; [reflexivity|]. split; [exact Lc|]. split; [exact Hc|]. split; [exact Fc|].
    apply (proj2 (repeat_then_chr any_digit 1 (Some 3%nat) "/"%char _ _ _ eq_refl)).
    exists (list_ascii_of_string d),
      (list_ascii_of_string p ++ list_ascii_of_string rest)%list.
    rewrite length_list_ascii.
    split; [reflexivity|]. split; [exact Ld|]. split; [exact Hd|]. split; [exact Fd|].
    apply (proj2 (repeat_last any_digit 1 2 _ _ ltac:(lia))).
    destruct p as [|x p]; [simpl in Lp; lia|].
    apply Forall_inv in Fp. cbn [list_ascii_of_string app Re.run_length].
    rewrite Fp. lia.
Qed.

(** ** The subnet of a query *)

Lemma find_classic_subnet_one (describe_subnets : describe_subnets_call)
    (kwargs : describe_subnets_kwargs) (sn : Subnet) :
  V2b._find_classic_subnet describe_subnets kwargs = Ok (Some sn)
  <-> describe_subnets kwargs = Ok [sn].
Proof.
  unfold V2b._find_classic_subnet. split.
  - destruct (describe_subnets kwargs) as [[|a [|b l]]|[]]; try discriminate.
    + intros [= ->]. reflexivity.
    + unfold len. cbn [length].
      destruct (Z.of_nat (S (S (length l))) <? 1) eqn:E1; [discriminate|].
      destruct (1 <? Z.of_nat (S (S (length l)))) eqn:E2; [discriminate|].
      apply Z.ltb_ge in E2. lia.
  - intros ->. reflexivity.
Qed.

(** X19. [show_subnet_usage] goes on with a subnet only when
    [describe_subnets] returned that subnet alone, asked by id for a query
    that looks like a subnet id and by CIDR block for one that looks like a
    block; nothing is written before. *)
Theorem subnet_of_query_single_match (describe_subnets : describe_subnets_call)
    (query : string) (out : list notice) (sn : Subnet) :
  V2b.subnet_of_query describe_subnets query = (out, Ok sn) <->
  out = [] /\
  ((Rx.match_ SUBNET_ID_RE query = true /\
    describe_subnets (SubnetIds [query]) = Ok [sn]) \/
   (Rx.match_ SUBNET_ID_RE query = false /\ Rx.match_ CIDR_BLOCK_RE query = true /\
    describe_subnets (Filters "cidrBlock" [query]) = Ok [sn])).
Proof.
  unfold V2b.subnet_of_query, V2b._find_subnet, V2b._find_subnet_by_id,
    V2b._find_subnet_by_block.
  destruct (Rx.match_ SUBNET_ID_RE query);
    [|destruct (Rx.match_ CIDR_BLOCK_RE query)].
  - rewrite <- find_classic_subnet_one.
    destruct (V2b._find_classic_subnet _ _) as [[s|]|e]; split.
    + intros [= <- ->]. split; [reflexivity|]. left. split; reflexivity.
    + intros (-> & [[_ [= ->]] | [[=] _]]). reflexivity.
    + intros [=].
    + intros (_ & [[_ [=]] | [[=] _]]).
    + intros [=].
    + intros (_ & [[_ [=]] | [[=] _]]).
  - rewrite <- (find_classic_subnet_one _ (Filters "cidrBlock" [query])).
    destruct (V2b._find_classic_subnet _ (Filters _ _)) as [[s|]|e]; split.
    + intros [= <- ->]. split; [reflexivity|]. right. repeat split; reflexivity.
    + intros (-> & [[[=] _] | (_ & _ & [= ->])]). reflexivity.
    + intros [=].
    + intros (_ & [[[=] _] | (_ & _ & [=])]).
    + intros [=].
    + intros (_ & [[[=] _] | (_ & _ & [=])]).
  - split; [intros [=]|].
    intros (_ & [[[=] _] | (_ & [=] & _)]).
Qed.

(** X20. The two variants of the lookup end alike, with two
    exceptions: when [describe_subnets] returns several subnets the first
    variant writes a notice and goes on with the first of them, where the
    second exits; when the call raises [ClientError] the first variant
    propagates it, where the second logs an error and exits. *)
Theorem find_subnet_variants (describe_subnets : describe_subnets_call)
    (query : string) :
  V1b._find_subnet describe_subnets query
  = V2b.subnet_of_query describe_subnets query \/
  (exists sn, V1b._find_subnet describe_subnets query = ([MultipleSubnets], Ok sn) /\
     V2b.subnet_of_query describe_subnets query = ([], Raise SystemExit)) \/
  (V1b._find_subnet describe_subnets query = ([], Raise ClientError) /\
   V2b.subnet_of_query describe_subnets query = ([NoMatchingSubnets], Raise SystemExit)).
Proof.
  assert (forall kwargs,
    let v1 := match describe_subnets kwargs with
              | Raise e => ([], Raise e)
              | Ok subnets =>
                  match subnets with
                  | [] => ([], Raise SystemExit)
                  | sn :: _ =>
                      ((if 1 <? len subnets then [MultipleSubnets] else []), Ok sn)
                  end
              end in
    let v2 := match V2b._find_classic_subnet describe_subnets kwargs with
              | Ok (Some subnet) => ([], Ok subnet)
              | Ok None => ([NoMatchingSubnets], Raise SystemExit)
              | Raise e => ([], Raise e)
              end in
    v1 = v2 \/
    (exists sn, v1 = ([MultipleSubnets], Ok sn) /\ v2 = ([], Raise SystemExit)) \/
    (v1 = ([], Raise ClientError) /\ v2 = ([NoMatchingSubnets], Raise SystemExit)))
    as Hcall.
  { intros kwargs. unfold V2b._find_classic_subnet.
    destruct (describe_subnets kwargs) as [[|a [|b l]]|[]]; cbn zeta.
    - left. reflexivity.
    - left. reflexivity.
    - right. left. exists a.
      assert ((1 <? len (a :: b :: l)) = true) as ->
        by (apply Z.ltb_lt; unfold len; cbn [length]; lia).
      assert ((len (a :: b :: l) <? 1) = false) as ->
        by (apply Z.ltb_ge; unfold len; cbn [length]; lia).
      split; reflexivity.
    - right. right. split; reflexivity.
    - left. reflexivity.
    - left. reflexivity.
    - left. reflexivity.
    - left. reflexivity. }
  unfold V1b._find_subnet, V2b.subnet_of_query, V2b._find_subnet,
    V2b._find_subnet_by_id, V2b._find_subnet_by_block.
  destruct (Rx.match_ SUBNET_ID_RE query);
    [apply Hcall|destruct (Rx.match_ CIDR_BLOCK_RE query); [apply Hcall|]].
  left. reflexivity.
Qed.
